(** * LayerView: G-code commands, machine simulation and toolpath model

A shallow embedding of the core of LayerView:

- [layerview/gcode/commands.py]            (module [commands])
- [layerview/simulation/machine.py]        (module [machine])
- [layerview/visualization/point_cloud/interpolation.py]
                                           (module [interpolation])
- [layerview/visualization/point_cloud/path.py], [layer.py]
                                           (modules [path], [layer])
- [layerview/visualization/point_cloud/model.py]
                                           (module [model])

Conventions of the embedding.

- A Python [float] is the rational number it stands for ([Q]); [==] on
  floats is [Qeq_bool].  What [float] reads, what [round] returns and
  the sums, differences and products of [machine.py] and of
  [Model.get_layer_height] are rounded to binary64 ([to_double]).  The
  vector arithmetic on the points of a path and [statistics.mean] are
  exact: their rounding error is not modelled.
- A raised exception is the [Raise] branch of [result]; the exception
  classes are the constructors of [exn].
- A Python [dict] is an insertion-ordered association list ([dict_get],
  [dict_set], [dict_pop]); a Python [list] indexed with possibly negative
  indices goes through [getitem] and [setitem].
- Mutable objects that are shared by reference are kept in explicit
  stores: [Point3D] objects live in a [Heap] addressed by [ref], [Layer]
  objects live in the builder's [layers] store addressed by their
  allocation number.
- Functions of panda3d, numpy and [math] that have no rational
  counterpart (vector length and normalisation, [acos], [cos], [sin],
  [pi]) are the fields of the class [Numerics]; every definition that
  needs them is stated for an arbitrary instance.
- The [line_number] attribute of commands is left out: no modelled
  function reads it. *)

From Stdlib Require Import Ascii String.
From Stdlib Require Import QArith Qround Qabs Qminmax ZArith List Bool Lia Lqa.
Import ListNotations.
Open Scope Q_scope.

(** ** Exceptions and results *)

Inductive exn : Type :=
| TypeError
| ValueError
| KeyError
| IndexError
| ZeroDivisionError
| StatisticsError
| CommandParseError
| CommandTokenError
| CommandMissingParamError
| CommandInvalidParamError
| UnknownCommandError
| PostPrimingDescentError (cur_layer_z prev_layer_z : Q)
| LateEffectorDescentError (cur_layer_z prev_layer_z : Q) (prev_layer_count : nat).

Inductive result (A : Type) : Type :=
| Ok (a : A)
| Raise (e : exn).

Arguments Ok {A} a.
Arguments Raise {A} e.

Definition bind {A B : Type} (r : result A) (k : A -> result B) : result B :=
  match r with
  | Ok a => k a
  | Raise e => Raise e
  end.

Notation "x <- r ;; k" := (bind r (fun x => k))
  (at level 61, r at next level, right associativity).
Notation "' pat <- r ;; k" := (bind r (fun x => match x with pat => k end))
  (at level 61, pat pattern, r at next level, right associativity).

(** [for x in xs: st = f(st, x)], stopping at the first exception. *)
Fixpoint foldM {A S : Type} (f : S -> A -> result S) (xs : list A) (st : S)
  : result S :=
  match xs with
  | [] => Ok st
  | x :: xs' => st' <- f st x ;; foldM f xs' st'
  end.

Fixpoint mapM {A B : Type} (f : A -> result B) (xs : list A) : result (list B) :=
  match xs with
  | [] => Ok []
  | x :: xs' => y <- f x ;; ys <- mapM f xs' ;; Ok (y :: ys)
  end.

(** ** Python containers *)

Section Dict.
  Variables (K V : Type) (eqb : K -> K -> bool).

Definition dict : Type := list (K * V).

Fixpoint dict_get (k : K) (d : dict) : option V :=
  match d with
  | [] => None
  | (k', v) :: d' => if eqb k k' then Some v else dict_get k d'
  end.

(** [d[k] = v]: an existing key keeps its place, a new one goes last. *)
Fixpoint dict_set (k : K) (v : V) (d : dict) : dict :=
  match d with
  | [] => [(k, v)]
  | (k', v') :: d' =>
      if eqb k k' then (k', v) :: d' else (k', v') :: dict_set k v d'
  end.

(** [d.pop(k)]: [None] stands for the [KeyError]. *)
Fixpoint dict_pop (k : K) (d : dict) : option (V * dict) :=
  match d with
  | [] => None
  | (k', v) :: d' =>
      if eqb k k' then Some (v, d')
      else match dict_pop k d' with
           | Some (w, d'') => Some (w, (k', v) :: d'')
           | None => None
           end
  end.

Definition dict_values (d : dict) : list V := map snd d.

(** [d[k]] as an expression. *)
Definition dict_item (k : K) (d : dict) : result V :=
  match dict_get k d with
  | Some v => Ok v
  | None => Raise KeyError
  end.
End Dict.

Arguments dict_get {K V} eqb k d.
Arguments dict_set {K V} eqb k v d.
Arguments dict_pop {K V} eqb k d.
Arguments dict_values {K V} d.
Arguments dict_item {K V} eqb k d.

Section PyList.
  Context {A : Type}.

(** The position a Python index denotes, when it is in range. *)
Definition index_of (l : list A) (i : Z) : option nat :=
  let n := Z.of_nat (length l) in
  let j := (if i <? 0 then i + n else i)%Z in
  if ((0 <=? j) && (j <? n))%Z then Some (Z.to_nat j) else None.

Definition getitem (l : list A) (i : Z) : result A :=
  match index_of l i with
  | Some j => match nth_error l j with
              | Some x => Ok x
              | None => Raise IndexError
              end
  | None => Raise IndexError
  end.

Definition setitem (l : list A) (i : Z) (x : A) : result (list A) :=
  match index_of l i with
  | Some j => Ok (firstn j l ++ x :: skipn (S j) l)
  | None => Raise IndexError
  end.

(** Replace the element at position [j]; no change out of range. *)
Definition update_nth (j : nat) (f : A -> A) (l : list A) : list A :=
  match nth_error l j with
  | Some x => firstn j l ++ f x :: skipn (S j) l
  | None => l
  end.
End PyList.

(** Truth value of an [Optional[float]]: [None] and [0.0] are false. *)
Definition truthy (o : option Q) : bool :=
  match o with
  | None => false
  | Some q => negb (Qeq_bool q 0)
  end.

Definition is_not_None {A : Type} (o : option A) : bool :=
  match o with
  | None => false
  | Some _ => true
  end.

(** [any(xs)] and [all(xs)] over booleans. *)
Definition any (xs : list bool) : bool := existsb (fun b => b) xs.
Definition all (xs : list bool) : bool := forallb (fun b => b) xs.

Definition Qlt_bool (a b : Q) : bool := negb (Qle_bool b a).

(** ** Python floats

A float is the rational number it stands for.  Reading a literal,
[round] and the operations [fadd], [fsub] and [fmul] give the binary64
number nearest to the exact result, of two nearest ones the one with the
even significand ([to_double]).  The two zeros are one number here.  The infinities and
NaN are left out: where the code gets an infinity, the model has the
number [to_double] gives without a largest exponent. *)

(** The integer nearest to [q], of two nearest ones the even one. *)
Definition round_half_even (q : Q) : Z :=
  let f := Qfloor q in
  let r := q - inject_Z f in
  match Qcompare r (1 # 2) with
  | Lt => f
  | Gt => (f + 1)%Z
  | Eq => if Z.even f then f else (f + 1)%Z
  end.

(** [floor (log2 |x|)], for [x] other than 0. *)
Definition binade (x : Q) : Z :=
  let n := Z.abs (Qnum x) in
  let d := Zpos (Qden x) in
  let e := (Z.log2 n - Z.log2 d)%Z in
  if (if (0 <=? e)%Z then (d * 2 ^ e <=? n)%Z else (d <=? n * 2 ^ (- e))%Z)
  then e else (e - 1)%Z.

(** The binary64 number nearest to [x]: a significand of 53 bits, and a
    last place of [2^-1074] at least. *)
Definition to_double (x : Q) : Q :=
  let x := Qred x in
  if Qeq_bool x 0 then 0
  else
    let ulp := Qpower 2 (Z.max (binade x - 52) (-1074)) in
    Qred (inject_Z (round_half_even (x / ulp)) * ulp).

(** [a + b], [a - b] and [a * b] on floats. *)
Definition fadd (a b : Q) : Q := to_double (a + b).
Definition fsub (a b : Q) : Q := to_double (a - b).
Definition fmul (a b : Q) : Q := to_double (a * b).

Arguments to_double : simpl never.
Arguments fadd : simpl never.
Arguments fsub : simpl never.
Arguments fmul : simpl never.

(** [round(x, ndigits)] for a float [x] and [ndigits >= 0]: the float
    nearest to the decimal number of [ndigits] places that is nearest to
    [x], of two nearest decimal numbers the one with the even last digit. *)
Definition round (x : Q) (ndigits : nat) : Q :=
  let scale := inject_Z (10 ^ Z.of_nat ndigits) in
  to_double (inject_Z (round_half_even (x * scale)) / scale).

(** ** Two-dimensional vectors (panda3d [LVector2d] / [Point2D]) *)

Record LVector2d : Type := mkVec2 { v_x : Q; v_y : Q }.

Definition vec2_add (a b : LVector2d) : LVector2d :=
  mkVec2 (v_x a + v_x b) (v_y a + v_y b).
Definition vec2_sub (a b : LVector2d) : LVector2d :=
  mkVec2 (v_x a - v_x b) (v_y a - v_y b).
Definition vec2_scale (a : LVector2d) (k : Q) : LVector2d :=
  mkVec2 (v_x a * k) (v_y a * k).
Definition vec2_eqb (a b : LVector2d) : bool :=
  Qeq_bool (v_x a) (v_x b) && Qeq_bool (v_y a) (v_y b).

(** The numeric library functions the code calls and that have no exact
    rational counterpart. *)
Class Numerics : Type := {
  vec_length : LVector2d -> Q;            (* LVecBase2d.length() *)
  vec_normalized : LVector2d -> LVector2d;  (* LVecBase2d.normalized() *)
  math_acos : Q -> Q;
  math_cos : Q -> Q;
  math_sin : Q -> Q;
  math_pi : Q
}.

(** ** [layerview/gcode/commands.py] *)

Module commands.

(** [GcodeToken = Tuple[str, str]]: a letter and its number literal. *)
Definition GcodeToken : Type := (ascii * string)%type.

Definition LETTERS_COMMAND : list ascii := list_ascii_of_string "gtmnd".
Definition LETTERS_PARAM : list ascii := list_ascii_of_string "xyzijefhrs".

Definition letter_in (c : ascii) (letters : list ascii) : bool :=
  existsb (Ascii.eqb c) letters.

(** *** [float(value_str)]

The scanner only produces literals of the shape [[-+]?\d*\.?\d*]; on
these [float] gives the float nearest to the decimal number, and a
literal without any digit is a [ValueError].  Strings of another shape
are a [ValueError] here. *)

Definition digit_of (c : ascii) : option Z :=
  let n := nat_of_ascii c in
  if ((48 <=? n) && (n <=? 57))%nat then Some (Z.of_nat (n - 48)) else None.

Fixpoint digits_value (s : string) (acc : Z) : option Z :=
  match s with
  | EmptyString => Some acc
  | String c s' =>
      match digit_of c with
      | Some d => digits_value s' (10 * acc + d)%Z
      | None => None
      end
  end.

(** The text before the first ["."] and, when there is one, the text after. *)
Fixpoint split_dot (s : string) : string * option string :=
  match s with
  | EmptyString => (EmptyString, None)
  | String c s' =>
      if Ascii.eqb c "."%char then (EmptyString, Some s')
      else let '(a, b) := split_dot s' in (String c a, b)
  end.

Definition float (value_str : string) : result Q :=
  let '(negative, body) :=
    match value_str with
    | String c s' =>
        if Ascii.eqb c "-"%char then (true, s')
        else if Ascii.eqb c "+"%char then (false, s')
        else (false, value_str)
    | EmptyString => (false, value_str)
    end in
  let '(int_part, frac) := split_dot body in
  let frac_part := match frac with Some f => f | None => EmptyString end in
  if ((String.length int_part + String.length frac_part) =? 0)%nat
  then Raise ValueError
  else
    match digits_value int_part 0, digits_value frac_part 0 with
    | Some i, Some f =>
        let scale := (10 ^ Z.of_nat (String.length frac_part))%Z in
        let magnitude := Qred (inject_Z (i * scale + f) / inject_Z scale) in
        Ok (to_double (if negative then - magnitude else magnitude))
    | _, _ => Raise ValueError
    end.

(** *** Command classes *)

Record LineMove : Type := {
  lm_x : option Q; lm_y : option Q; lm_z : option Q; lm_e : option Q;
  lm_f : option Q; lm_h : option Q; lm_r : option Q; lm_s : option Q
}.

Record ArcMove : Type := {
  am_x : option Q; am_y : option Q; am_i : option Q; am_j : option Q;
  am_e : option Q; am_f : option Q
}.

(** The concrete classes; [OtherCommand] stands for an instance of any
    further subclass of [Command], which no handler table lists. *)
Inductive Command : Type :=
| G0 (p : LineMove)
| G1 (p : LineMove)
| G2 (p : ArcMove)
| G3 (p : ArcMove)
| G28 (x y z : bool)
| G92 (x y z e : option Q)
| G20 | G21 | G90 | G91 | M82 | M83
| M104 (s : Q) (r d : option Q)
| M109 (s : Q) (r t : option Q)
| OtherCommand.

Definition isinstance_LineMove (c : Command) : bool :=
  match c with G0 _ | G1 _ => true | _ => false end.
Definition isinstance_ArcMove (c : Command) : bool :=
  match c with G2 _ | G3 _ => true | _ => false end.
Definition isinstance_Move (c : Command) : bool :=
  isinstance_LineMove c || isinstance_ArcMove c.

(** [LineMove.__init__]. *)
Definition LineMove_init (x y z e f h r s : option Q) : result LineMove :=
  if negb (any (map is_not_None [x; y; z; e; f; h; r; s]))
  then Raise CommandMissingParamError
  else Ok {| lm_x := x; lm_y := y; lm_z := z; lm_e := e;
             lm_f := f; lm_h := h; lm_r := r; lm_s := s |}.

(** [ArcMove.__init__]. *)
Definition ArcMove_init (x y i j e f : option Q) : result ArcMove :=
  let params_mandatory := [x; y; i; j; e] in
  if negb (all (map is_not_None params_mandatory))
  then Raise CommandMissingParamError
  else Ok {| am_x := x; am_y := y; am_i := i; am_j := j;
             am_e := e; am_f := f |}.

(** [G92.__init__]. *)
Definition G92_init (x y z e : option Q) : result Command :=
  if negb (any (map is_not_None [x; y; z; e]))
  then Raise CommandMissingParamError
  else Ok (G92 x y z e).

(** [M104.__init__] and [M109.__init__]: [s] is a parameter without a
    default value. *)
Definition M104_init (s : Q) (r d : option Q) : result Command :=
  Ok (M104 s r d).
Definition M109_init (s : Q) (r t : option Q) : result Command :=
  Ok (M109 s r t).

(** *** [CommandParser] *)

(** The classes [_create_from_float_params] is called with. *)
Inductive CommandType : Type := TG0 | TG1 | TG2 | TG3 | TG92 | TM104 | TM109.

Definition param_letters (t : CommandType) : list ascii :=
  match t with
  | TG0 | TG1 => list_ascii_of_string "xyzefhrs"
  | TG2 | TG3 => list_ascii_of_string "xyijef"
  | TG92 => list_ascii_of_string "xyze"
  | TM104 => list_ascii_of_string "srd"
  | TM109 => list_ascii_of_string "srt"
  end.

Definition kwarg (kw : dict ascii Q) (c : ascii) : option Q :=
  dict_get Ascii.eqb c kw.

(** The call of [command_type] with the keywords of [param_to_value]: keywords that are absent take their
    default [None]; a parameter without default that is absent is Python's
    own [TypeError] for a missing argument. *)
Definition call (t : CommandType) (kw : dict ascii Q) : result Command :=
  let a := kwarg kw in
  match t with
  | TG0 => p <- LineMove_init (a "x") (a "y") (a "z") (a "e")
                              (a "f") (a "h") (a "r") (a "s") ;; Ok (G0 p)
  | TG1 => p <- LineMove_init (a "x") (a "y") (a "z") (a "e")
                              (a "f") (a "h") (a "r") (a "s") ;; Ok (G1 p)
  | TG2 => p <- ArcMove_init (a "x") (a "y") (a "i") (a "j") (a "e") (a "f") ;;
           Ok (G2 p)
  | TG3 => p <- ArcMove_init (a "x") (a "y") (a "i") (a "j") (a "e") (a "f") ;;
           Ok (G3 p)
  | TG92 => G92_init (a "x") (a "y") (a "z") (a "e")
  | TM104 => match a "s" with
             | Some s => M104_init s (a "r") (a "d")
             | None => Raise TypeError
             end
  | TM109 => match a "s" with
             | Some s => M109_init s (a "r") (a "t")
             | None => Raise TypeError
             end
  end%char.

(** The loop of [_create_from_float_params] over [tokens[1:]]. *)
Fixpoint collect_params (t : CommandType) (param_tokens : list GcodeToken)
         (param_to_value : dict ascii Q) : result (dict ascii Q) :=
  match param_tokens with
  | [] => Ok param_to_value
  | (token_letter, value_str) :: rest =>
      if negb (letter_in token_letter (param_letters t))
      then Raise CommandInvalidParamError
      else v <- float value_str ;;
           collect_params t rest (dict_set Ascii.eqb token_letter v param_to_value)
  end.

Definition _create_from_float_params (tokens : list GcodeToken)
           (command_type : CommandType) : result Command :=
  param_to_value <- collect_params command_type (tl tokens) [] ;;
  call command_type param_to_value.

(** [_create_g28]: presence of a letter, not its value, sets the flag. *)
Definition _create_g28 (tokens : list GcodeToken) : result Command :=
  let has c := existsb (fun t => Ascii.eqb (fst t) c) tokens in
  Ok (G28 (has "x"%char) (has "y"%char) (has "z"%char)).

Definition token_eqb (a b : GcodeToken) : bool :=
  Ascii.eqb (fst a) (fst b) && String.eqb (snd a) (snd b).

(** [self._command_token_to_handler]. *)
Definition _command_token_to_handler
  : dict GcodeToken (list GcodeToken -> result Command) :=
  [ (("g"%char, "0"%string), fun ts => _create_from_float_params ts TG0);
    (("g"%char, "1"%string), fun ts => _create_from_float_params ts TG1);
    (("g"%char, "2"%string), fun ts => _create_from_float_params ts TG2);
    (("g"%char, "3"%string), fun ts => _create_from_float_params ts TG3);
    (("g"%char, "28"%string), _create_g28);
    (("g"%char, "92"%string), fun ts => _create_from_float_params ts TG92);
    (("m"%char, "104"%string), fun ts => _create_from_float_params ts TM104);
    (("m"%char, "109"%string), fun ts => _create_from_float_params ts TM109);
    (("g"%char, "20"%string), fun _ => Ok G20);
    (("g"%char, "21"%string), fun _ => Ok G21);
    (("g"%char, "90"%string), fun _ => Ok G90);
    (("g"%char, "91"%string), fun _ => Ok G91);
    (("m"%char, "82"%string), fun _ => Ok M82);
    (("m"%char, "83"%string), fun _ => Ok M83) ].

(** [if current_group: groups.append(current_group)]; both lists are kept
    in reverse while the loop runs. *)
Definition push_group (groups : list (list GcodeToken))
           (current_group : list GcodeToken) : list (list GcodeToken) :=
  match current_group with
  | [] => groups
  | _ :: _ => rev current_group :: groups
  end.

(** The loop of [_group_tokens_by_command]. *)
Fixpoint group_loop (tokens : list GcodeToken)
         (groups : list (list GcodeToken)) (current_group : list GcodeToken)
  : result (list (list GcodeToken)) :=
  match tokens with
  | [] => Ok (rev (push_group groups current_group))
  | field :: rest =>
      let letter := fst field in
      if letter_in letter LETTERS_COMMAND then
        group_loop rest (push_group groups current_group) [field]
      else if letter_in letter LETTERS_PARAM then
        match current_group with
        | [] => Raise CommandTokenError
        | _ :: _ => group_loop rest groups (field :: current_group)
        end
      else Raise CommandTokenError
  end.

Definition _group_tokens_by_command (tokens : list GcodeToken)
  : result (list (list GcodeToken)) :=
  group_loop tokens [] [].

(** [CommandParser.parse]. *)
Definition parse (_skip_unknown : bool) (tokens : list GcodeToken)
  : result (list Command) :=
  tokens_grouped <- _group_tokens_by_command tokens ;;
  foldM (fun cmds token_group =>
           match token_group with
           | [] => Raise IndexError
           | command_token :: _ =>
               match dict_get token_eqb command_token _command_token_to_handler with
               | Some handler => c <- handler token_group ;; Ok (cmds ++ [c])
               | None => if negb _skip_unknown then Raise CommandParseError
                         else Ok cmds
               end
           end)
        tokens_grouped [].

End commands.

(** ** [layerview/simulation/machine.py] *)

Module machine.
  Import commands.

(** *** [Point3D] objects and the store they live in

[Point3D] is a mutable object: [p.x = v] changes it in place and every
holder of a reference sees the change.  [Point3D(p)] and [p + q] make
new objects. *)

Record Point3D : Type := mkPoint3D { p_x : Q; p_y : Q; p_z : Q }.

Definition point_add (a b : Point3D) : Point3D :=
  mkPoint3D (fadd (p_x a) (p_x b)) (fadd (p_y a) (p_y b)) (fadd (p_z a) (p_z b)).
Definition point_sub (a b : Point3D) : Point3D :=
  mkPoint3D (fsub (p_x a) (p_x b)) (fsub (p_y a) (p_y b)) (fsub (p_z a) (p_z b)).
Definition point_xy (a : Point3D) : LVector2d := mkVec2 (p_x a) (p_y a).

Definition ref : Type := nat.

Record Heap : Type := mkHeap {
  next_ref : ref;               (* the next object to be allocated *)
  cell : ref -> Point3D         (* the value each object holds *)
}.

Definition new (h : Heap) (p : Point3D) : Heap * ref :=
  (mkHeap (S (next_ref h))
          (fun r => if Nat.eqb r (next_ref h) then p else cell h r),
   next_ref h).

Definition store (h : Heap) (r : ref) (p : Point3D) : Heap :=
  mkHeap (next_ref h) (fun r' => if Nat.eqb r' r then p else cell h r').

Definition set_x (h : Heap) (r : ref) (v : Q) : Heap :=
  store h r (mkPoint3D v (p_y (cell h r)) (p_z (cell h r))).
Definition set_y (h : Heap) (r : ref) (v : Q) : Heap :=
  store h r (mkPoint3D (p_x (cell h r)) v (p_z (cell h r))).
Definition set_z (h : Heap) (r : ref) (v : Q) : Heap :=
  store h r (mkPoint3D (p_x (cell h r)) (p_y (cell h r)) v).

(** The two [Point3D(0, 0, 0)] default values of [MachineState.__init__]
    are evaluated once, when the [def] statement runs: they are two
    objects of the process, shared by every call that leaves the argument
    out. *)
Definition default_position : ref := 0%nat.
Definition default_offset_position : ref := 1%nat.

(** The store once the module has been imported. *)
Definition process_start : Heap :=
  mkHeap 2%nat (fun _ => mkPoint3D 0 0 0).

(** *** [MachineState] *)

Record MachineState : Type := {
  position : ref;
  offset_position : ref;
  extruder : Q;
  offset_extruder : Q;
  feedrate : Q;
  temp_extruder : Q;
  is_rel_positioning : bool;
  is_rel_extruder : bool;
  is_imperial : bool
}.

(** [MachineState()], every argument left to its default. *)
Definition MachineState_init : MachineState := {|
  position := default_position;
  offset_position := default_offset_position;
  extruder := 0;
  offset_extruder := 0;
  feedrate := 40;
  temp_extruder := 0;
  is_rel_positioning := false;
  is_rel_extruder := false;
  is_imperial := false
|}.

(** [self.update(state)]: every attribute of [self] is assigned. *)
Definition update (h : Heap) (self state : MachineState)
  : Heap * MachineState :=
  let '(h1, p) := new h (cell h (position state)) in
  let '(h2, o) := new h1 (cell h1 (offset_position state)) in
  (h2, {| position := p;
          offset_position := o;
          extruder := extruder state;
          offset_extruder := offset_extruder state;
          feedrate := feedrate state;
          temp_extruder := feedrate state;
          is_rel_positioning := is_rel_positioning state;
          is_rel_extruder := is_rel_extruder state;
          is_imperial := is_imperial state |}).

Definition position_abs (h : Heap) (self : MachineState) : Point3D :=
  point_sub (cell h (position self)) (cell h (offset_position self)).

Definition extruder_abs (self : MachineState) : Q :=
  fsub (extruder self) (offset_extruder self).

Definition unit_multiplier (self : MachineState) : Q :=
  if is_imperial self then to_double (127 # 5) (* 25.4 *) else 1.

(** Attribute assignment on a state. *)
Definition with_position (s : MachineState) (r : ref) : MachineState :=
  {| position := r; offset_position := offset_position s;
     extruder := extruder s; offset_extruder := offset_extruder s;
     feedrate := feedrate s; temp_extruder := temp_extruder s;
     is_rel_positioning := is_rel_positioning s;
     is_rel_extruder := is_rel_extruder s; is_imperial := is_imperial s |}.
Definition with_offset_position (s : MachineState) (r : ref) : MachineState :=
  {| position := position s; offset_position := r;
     extruder := extruder s; offset_extruder := offset_extruder s;
     feedrate := feedrate s; temp_extruder := temp_extruder s;
     is_rel_positioning := is_rel_positioning s;
     is_rel_extruder := is_rel_extruder s; is_imperial := is_imperial s |}.
Definition with_extruder (s : MachineState) (v : Q) : MachineState :=
  {| position := position s; offset_position := offset_position s;
     extruder := v; offset_extruder := offset_extruder s;
     feedrate := feedrate s; temp_extruder := temp_extruder s;
     is_rel_positioning := is_rel_positioning s;
     is_rel_extruder := is_rel_extruder s; is_imperial := is_imperial s |}.
Definition with_offset_extruder (s : MachineState) (v : Q) : MachineState :=
  {| position := position s; offset_position := offset_position s;
     extruder := extruder s; offset_extruder := v;
     feedrate := feedrate s; temp_extruder := temp_extruder s;
     is_rel_positioning := is_rel_positioning s;
     is_rel_extruder := is_rel_extruder s; is_imperial := is_imperial s |}.
Definition with_feedrate (s : MachineState) (v : Q) : MachineState :=
  {| position := position s; offset_position := offset_position s;
     extruder := extruder s; offset_extruder := offset_extruder s;
     feedrate := v; temp_extruder := temp_extruder s;
     is_rel_positioning := is_rel_positioning s;
     is_rel_extruder := is_rel_extruder s; is_imperial := is_imperial s |}.
Definition with_temp_extruder (s : MachineState) (v : Q) : MachineState :=
  {| position := position s; offset_position := offset_position s;
     extruder := extruder s; offset_extruder := offset_extruder s;
     feedrate := feedrate s; temp_extruder := v;
     is_rel_positioning := is_rel_positioning s;
     is_rel_extruder := is_rel_extruder s; is_imperial := is_imperial s |}.
Definition with_is_rel_positioning (s : MachineState) (b : bool) : MachineState :=
  {| position := position s; offset_position := offset_position s;
     extruder := extruder s; offset_extruder := offset_extruder s;
     feedrate := feedrate s; temp_extruder := temp_extruder s;
     is_rel_positioning := b;
     is_rel_extruder := is_rel_extruder s; is_imperial := is_imperial s |}.
Definition with_is_rel_extruder (s : MachineState) (b : bool) : MachineState :=
  {| position := position s; offset_position := offset_position s;
     extruder := extruder s; offset_extruder := offset_extruder s;
     feedrate := feedrate s; temp_extruder := temp_extruder s;
     is_rel_positioning := is_rel_positioning s;
     is_rel_extruder := b; is_imperial := is_imperial s |}.
Definition with_is_imperial (s : MachineState) (b : bool) : MachineState :=
  {| position := position s; offset_position := offset_position s;
     extruder := extruder s; offset_extruder := offset_extruder s;
     feedrate := feedrate s; temp_extruder := temp_extruder s;
     is_rel_positioning := is_rel_positioning s;
     is_rel_extruder := is_rel_extruder s; is_imperial := b |}.

(** *** [Machine] *)

Record Machine : Type := {
  _skip_unknown : bool;
  state_previous : MachineState;
  state_current : MachineState
}.

(** [Machine(skip_unknown)]. *)
Definition Machine_init (skip_unknown : bool) : Machine := {|
  _skip_unknown := skip_unknown;
  state_previous := MachineState_init;
  state_current := MachineState_init
|}.

Definition with_current (m : Machine) (s : MachineState) : Machine :=
  {| _skip_unknown := _skip_unknown m;
     state_previous := state_previous m;
     state_current := s |}.
Definition with_previous (m : Machine) (s : MachineState) : Machine :=
  {| _skip_unknown := _skip_unknown m;
     state_previous := s;
     state_current := state_current m |}.

(** Attributes of a [Move]; reading them on another class is an
    [AttributeError], which no caller provokes. *)
Definition move_x (c : Command) : option Q :=
  match c with G0 p | G1 p => lm_x p | G2 p | G3 p => am_x p | _ => None end.
Definition move_y (c : Command) : option Q :=
  match c with G0 p | G1 p => lm_y p | G2 p | G3 p => am_y p | _ => None end.
Definition move_e (c : Command) : option Q :=
  match c with G0 p | G1 p => lm_e p | G2 p | G3 p => am_e p | _ => None end.
Definition move_f (c : Command) : option Q :=
  match c with G0 p | G1 p => lm_f p | G2 p | G3 p => am_f p | _ => None end.

Definition get_xyz_from_command (command : Command)
  : result (option Q * option Q * option Q) :=
  match command with
  | G0 p | G1 p => Ok (lm_x p, lm_y p, lm_z p)
  | G2 p | G3 p => Ok (am_x p, am_y p, None)
  | _ => Raise TypeError
  end.

(** [val or 0]. *)
Definition or_0 (val : option Q) : Q :=
  if truthy val then match val with Some v => v | None => 0 end else 0.

(** A machine together with the store its states point into. *)
Definition World : Type := (Heap * Machine)%type.

Definition _handle_move (command : Command) (w : World) : result World :=
  let '(h, m) := w in
  let prev := state_previous m in
  let cur := state_current m in
  (* Handle feedrate *)
  let cur := match move_f command with
             | Some f => with_feedrate cur f
             | None => cur
             end in
  (* Handle extruder *)
  let cur := match move_e command with
             | Some e => if is_rel_extruder prev
                         then with_extruder cur (fadd (extruder prev) e)
                         else with_extruder cur e
             | None => cur
             end in
  (* Handle position change *)
  if is_rel_positioning prev then
    '(x, y, z) <- get_xyz_from_command command ;;
    let position_delta := mkPoint3D (or_0 x) (or_0 y) (or_0 z) in
    let '(h, r) := new h (point_add (cell h (position prev)) position_delta) in
    let cur := with_position cur r in
    let h := set_x h r (round (p_x (cell h r)) 3) in
    let h := set_y h r (round (p_y (cell h r)) 3) in
    let h := set_z h r (round (p_z (cell h r)) 3) in
    Ok (h, with_current m cur)
  else
    let h := match move_x command with
             | Some x => set_x h (position cur) (fmul x (unit_multiplier prev))
             | None => h
             end in
    let h := match move_y command with
             | Some y => set_y h (position cur) (fmul y (unit_multiplier prev))
             | None => h
             end in
    let h := match command with
             | G0 p | G1 p =>
                 match lm_z p with
                 | Some z => set_z h (position cur) (fmul z (unit_multiplier prev))
                 | None => h
                 end
             | _ => h
             end in
    Ok (h, with_current m cur).

Definition _set_units_to_inches (w : World) : result World :=
  let '(h, m) := w in Ok (h, with_current m (with_is_imperial (state_current m) true)).
Definition _set_units_to_millis (w : World) : result World :=
  let '(h, m) := w in Ok (h, with_current m (with_is_imperial (state_current m) false)).
Definition _set_abs_positioning (w : World) : result World :=
  let '(h, m) := w in
  Ok (h, with_current m (with_is_rel_positioning (state_current m) false)).
Definition _set_rel_positioning (w : World) : result World :=
  let '(h, m) := w in
  Ok (h, with_current m (with_is_rel_positioning (state_current m) true)).
Definition _set_extruder_abs_mode (w : World) : result World :=
  let '(h, m) := w in
  Ok (h, with_current m (with_is_rel_extruder (state_current m) false)).
Definition _set_extruder_rel_mode (w : World) : result World :=
  let '(h, m) := w in
  Ok (h, with_current m (with_is_rel_extruder (state_current m) true)).

Definition _move_to_origin (x y z : bool) (w : World) : result World :=
  let '(h, m) := w in
  let cur := state_current m in
  if negb (any [x; y; z]) then
    (* No axes specified, home all axes *)
    let '(h, o) := new h (mkPoint3D 0 0 0) in
    let cur := with_offset_position cur o in
    let '(h, p) := new h (mkPoint3D 0 0 0) in
    let cur := with_position cur p in
    Ok (h, with_current m cur)
  else
    (* Selective axis homing *)
    let h := if x then set_x (set_x h (offset_position cur) 0) (position cur) 0
             else h in
    let h := if y then set_y (set_y h (offset_position cur) 0) (position cur) 0
             else h in
    let h := if z then set_z (set_z h (offset_position cur) 0) (position cur) 0
             else h in
    Ok (h, m).

Definition _set_position (x y z e : option Q) (w : World) : result World :=
  let '(h, m) := w in
  let prev := state_previous m in
  let cur := state_current m in
  let h := match x with
           | Some v => if truthy x
                       then set_x h (offset_position cur)
                                  (fsub (p_x (cell h (position prev))) v)
                       else h
           | None => h
           end in
  let h := match y with
           | Some v => if truthy y
                       then set_y h (offset_position cur)
                                  (fsub (p_y (cell h (position prev))) v)
                       else h
           | None => h
           end in
  let h := match z with
           | Some v => if truthy z
                       then set_z h (offset_position cur)
                                  (fsub (p_z (cell h (position prev))) v)
                       else h
           | None => h
           end in
  let cur := match e with
             | Some v => if truthy e
                         then with_offset_extruder cur (fsub (extruder prev) v)
                         else cur
             | None => cur
             end in
  Ok (h, with_current m cur).

Definition _set_temperature_extruder (s : Q) (w : World) : result World :=
  let '(h, m) := w in
  Ok (h, with_current m (with_temp_extruder (state_current m) s)).

(** [self._get_handler(command)]: the entry of [_command_type_to_handler]
    for the command's class, if it has one. *)
Definition _get_handler (command : Command) : option (World -> result World) :=
  match command with
  | G20 => Some _set_units_to_inches
  | G21 => Some _set_units_to_millis
  | G28 x y z => Some (_move_to_origin x y z)
  | G90 => Some _set_abs_positioning
  | G91 => Some _set_rel_positioning
  | M82 => Some _set_extruder_abs_mode
  | M83 => Some _set_extruder_rel_mode
  | G92 x y z e => Some (_set_position x y z e)
  | G0 _ | G1 _ | G2 _ | G3 _ => Some (_handle_move command)
  | M104 s _ _ | M109 s _ _ => Some (_set_temperature_extruder s)
  | OtherCommand => None
  end.

Definition handle_command (command : Command) (w : World) : result World :=
  let '(h, m) := w in
  match _get_handler command with
  | Some command_handler =>
      let '(h, prev) := update h (state_previous m) (state_current m) in
      command_handler (h, with_previous m prev)
  | None =>
      if negb (_skip_unknown m) then Raise UnknownCommandError else Ok (h, m)
  end.

End machine.

(** ** [layerview/visualization/linalg.py] and [point_cloud/interpolation.py] *)

Module interpolation.

(** What a Python name may hold in [interpolate]: a float, or the bound
    method a vector's [length] attribute is when it is not called. *)
Inductive pyobj : Type :=
| PyFloat (x : Q)
| BoundMethod_length (receiver : LVector2d).

(** Conversion of an argument to a C [double]. *)
Definition as_double (o : pyobj) : result Q :=
  match o with
  | PyFloat x => Ok x
  | BoundMethod_length _ => Raise TypeError
  end.

(** [math.isclose(a, b, rel_tol=rel_tol)], [abs_tol] left at [0.0]. *)
Definition isclose (a b : pyobj) (rel_tol : Q) : result bool :=
  a <- as_double a ;;
  b <- as_double b ;;
  let diff := Qabs (b - a) in
  Ok (Qeq_bool a b
      || Qle_bool diff (Qabs (rel_tol * b))
      || Qle_bool diff (Qabs (rel_tol * a))).

Section WithNumerics.
  Context {N : Numerics}.

(** [math.acos]: outside [-1, 1] it is a domain error. *)
Definition acos (x : Q) : result Q :=
  if Qle_bool (-1) x && Qle_bool x 1 then Ok (math_acos x)
  else Raise ValueError.

Definition vec2_dot (a b : LVector2d) : Q := v_x a * v_x b + v_y a * v_y b.

Definition angle_inner (a b : LVector2d) : result Q :=
  let dot := vec2_dot (vec_normalized a) (vec_normalized b) in
  let clamped := Qmax (Qmin dot 1) (-1) in
  acos clamped.

Definition determinant (a b : LVector2d) : Q := v_x a * v_y b - v_y a * v_x b.

Definition angle_signed (a b : LVector2d) : result Q :=
  inner_angle <- angle_inner a b ;;
  let det := determinant a b in
  if Qlt_bool det 0 then Ok (- inner_angle) else Ok inner_angle.

Definition _get_angle_abs (src dst pivot : LVector2d) (is_clockwise : bool)
  : result Q :=
  let vec_pivot_to_src := vec2_sub src pivot in
  let vec_pivot_to_dst := vec2_sub dst pivot in
  angle_abs <- angle_signed vec_pivot_to_src vec_pivot_to_dst ;;
  if negb is_clockwise then Ok (angle_abs + math_pi * 2) else Ok angle_abs.

Definition _get_angle_step (radius : pyobj) (max_error : Q)
           (is_clockwise : bool) : result Q :=
  r <- as_double radius ;;
  if Qeq_bool r 0 then Raise ZeroDivisionError
  else
    a <- acos (1 - max_error / r) ;;
    let step_abs := 2 * a in
    if is_clockwise then Ok (- step_abs) else Ok step_abs.

(** [np.linspace(start, stop, num, endpoint=False)]. *)
Definition linspace (start stop : Q) (num : Z) : result (list Q) :=
  if (num <? 0)%Z then Raise ValueError
  else
    let step := (stop - start) / inject_Z num in
    Ok (map (fun k => start + inject_Z (Z.of_nat k) * step)
            (seq 0 (Z.to_nat num))).

Definition interpolate (src dst pivot : LVector2d) (is_clockwise : bool)
           (max_err : Q) : result (list LVector2d) :=
  (* radius = (src - pivot).length : the attribute, not a call of it *)
  let radius := BoundMethod_length (vec2_sub src pivot) in
  (* Validate src and dst points' distance from pivot. *)
  close <- isclose radius (PyFloat (vec_length (vec2_sub dst pivot))) (1 # 100) ;;
  if close then Raise ValueError
  else
    angle_step <- _get_angle_step radius max_err is_clockwise ;;
    angle_total <- _get_angle_abs src dst pivot is_clockwise ;;
    if Qeq_bool angle_step 0 then Raise ZeroDivisionError else
    let step_num := Qceiling (angle_total / angle_step) in
    angles <- linspace angle_step angle_total step_num ;;
    let src_unbound := vec2_sub src pivot in
    let points_inter :=
      map (fun angle =>
             let rot_cos := math_cos angle in
             let rot_sin := math_sin angle in
             mkVec2 (v_x src_unbound * rot_cos - v_y src_unbound * rot_sin
                     + v_x pivot)
                    (v_x src_unbound * rot_sin + v_y src_unbound * rot_cos
                     + v_y pivot))
          angles in
    Ok ([src] ++ points_inter ++ [dst]).

  End WithNumerics.
End interpolation.

(** ** [point_cloud/path.py] *)

Module path.

(** [class Path(list)]: the list of its points. *)
Definition Path : Type := list LVector2d.

Definition Path_init (point_first point_second : LVector2d) : Path :=
  [point_first; point_second].

Section WithNumerics.
  Context {N : Numerics}.

(** The point [p] moved by [length] along the unit vector that points
    from [neighbour] to [p]. *)
Definition shifted (p neighbour : LVector2d) (length : Q) : LVector2d :=
  vec2_add p (vec2_scale (vec_normalized (vec2_sub p neighbour)) length).

Definition add_padding (self : Path) (length : Q) : result Path :=
  (* Start *)
  a <- getitem self 0 ;;
  b <- getitem self 1 ;;
  self <- setitem self 0 (shifted a b length) ;;
  (* End *)
  c <- getitem self (-1) ;;
  d <- getitem self (-2) ;;
  setitem self (-1) (shifted c d length).

  End WithNumerics.
End path.

(** ** [point_cloud/layer.py] *)

Module layer.
  Import path.

Record Layer : Type := {
  paths : list Path;
  temperature_min : option Q;
  temperature_max : option Q;
  temperature_avg : option Q;
  feedrate_min : option Q;
  feedrate_max : option Q;
  feedrate_avg : option Q
}.

(** [Layer()]. *)
Definition Layer_init : Layer := {|
  paths := [];
  temperature_min := None; temperature_max := None; temperature_avg := None;
  feedrate_min := None; feedrate_max := None; feedrate_avg := None
|}.

Definition with_paths (l : Layer) (ps : list Path) : Layer :=
  {| paths := ps;
     temperature_min := temperature_min l;
     temperature_max := temperature_max l;
     temperature_avg := temperature_avg l;
     feedrate_min := feedrate_min l;
     feedrate_max := feedrate_max l;
     feedrate_avg := feedrate_avg l |}.

End layer.

(** ** [point_cloud/model.py] *)

Module model.
  Import commands machine path layer.

(** A [Layer] object is named by its allocation number in the store
    [layers] of the builder that created it; dictionaries keyed by a
    [Layer] compare keys by identity. *)
Definition LayerId : Type := nat.

(** *** [Model] *)

Record Model : Type := {
  _layer_to_z : dict LayerId Q;
  index_to_layer : dict nat LayerId;
  _nozzle_diam : Q;
  _priming_layer_z : option Q;
  _priming_layer : option LayerId;
  layer_objects : list Layer          (* the objects the identities name *)
}.

(** [sorted(items, key=lambda item: item[1])]: stable, ascending. *)
Fixpoint insert_by_z (item : LayerId * Q) (sorted : list (LayerId * Q))
  : list (LayerId * Q) :=
  match sorted with
  | [] => [item]
  | head :: rest =>
      if Qlt_bool (snd item) (snd head) then item :: sorted
      else head :: insert_by_z item rest
  end.

Definition sorted_by_z (items : list (LayerId * Q)) : list (LayerId * Q) :=
  fold_left (fun acc item => insert_by_z item acc) items [].

(** [Model.__init__]. *)
Definition Model_init (layer_to_z : dict LayerId Q) (nozzle_diam : Q)
           (priming_layer : option LayerId) (priming_layer_z : option Q)
           (objects : list Layer) : Model :=
  let ordered := map fst (sorted_by_z layer_to_z) in
  {| _layer_to_z := layer_to_z;
     index_to_layer := combine (seq 1 (length ordered)) ordered;
     _nozzle_diam := nozzle_diam;
     _priming_layer_z := priming_layer_z;
     _priming_layer := priming_layer;
     layer_objects := objects |}.

Definition get_layer_z (self : Model) (index : nat) : result Q :=
  l <- dict_item Nat.eqb index (index_to_layer self) ;;
  dict_item Nat.eqb l (_layer_to_z self).

Definition get_layer_height (self : Model) (index : nat) : result Q :=
  target_layer_z <- get_layer_z self index ;;
  if Nat.eqb index 1 then Ok target_layer_z
  else
    a <- get_layer_z self index ;;
    b <- get_layer_z self (index - 1) ;;
    let diff := fsub a b in
    (* Round to 3 decimal places *)
    Ok (round diff 3).

(** *** [ModelBuilder] *)

Definition lru_maxsize : nat := 128.

Record ModelBuilder : Type := {
  machine : Machine;
  z_to_layer : dict Q LayerId;
  _last_layer_z : Q;
  _is_after_post_priming_descent : bool;
  priming_layer : option LayerId;
  priming_layer_z : option Q;
  layer_to_feedrates : dict LayerId (list Q);
  layer_to_temperatures : dict LayerId (list Q);
  layers : list Layer;              (* every [Layer()] created so far *)
  lru_cache : list (Q * LayerId)    (* [get_layer_at_z]'s cache, most
                                       recently used entry first *)
}.

(** [ModelBuilder()]. *)
Definition ModelBuilder_init : ModelBuilder := {|
  machine := Machine_init true;
  z_to_layer := [];
  _last_layer_z := 0;
  _is_after_post_priming_descent := false;
  priming_layer := None;
  priming_layer_z := None;
  layer_to_feedrates := [];
  layer_to_temperatures := [];
  layers := [];
  lru_cache := []
|}.

Definition with_machine (b : ModelBuilder) (m : Machine) : ModelBuilder :=
  {| machine := m; z_to_layer := z_to_layer b;
     _last_layer_z := _last_layer_z b;
     _is_after_post_priming_descent := _is_after_post_priming_descent b;
     priming_layer := priming_layer b; priming_layer_z := priming_layer_z b;
     layer_to_feedrates := layer_to_feedrates b;
     layer_to_temperatures := layer_to_temperatures b;
     layers := layers b; lru_cache := lru_cache b |}.
Definition with_z_to_layer (b : ModelBuilder) (d : dict Q LayerId) : ModelBuilder :=
  {| machine := machine b; z_to_layer := d;
     _last_layer_z := _last_layer_z b;
     _is_after_post_priming_descent := _is_after_post_priming_descent b;
     priming_layer := priming_layer b; priming_layer_z := priming_layer_z b;
     layer_to_feedrates := layer_to_feedrates b;
     layer_to_temperatures := layer_to_temperatures b;
     layers := layers b; lru_cache := lru_cache b |}.
Definition with_last_layer_z (b : ModelBuilder) (z : Q) : ModelBuilder :=
  {| machine := machine b; z_to_layer := z_to_layer b;
     _last_layer_z := z;
     _is_after_post_priming_descent := _is_after_post_priming_descent b;
     priming_layer := priming_layer b; priming_layer_z := priming_layer_z b;
     layer_to_feedrates := layer_to_feedrates b;
     layer_to_temperatures := layer_to_temperatures b;
     layers := layers b; lru_cache := lru_cache b |}.
Definition with_priming (b : ModelBuilder) (l : LayerId) (z : Q) : ModelBuilder :=
  {| machine := machine b; z_to_layer := z_to_layer b;
     _last_layer_z := _last_layer_z b;
     _is_after_post_priming_descent := true;
     priming_layer := Some l; priming_layer_z := Some z;
     layer_to_feedrates := layer_to_feedrates b;
     layer_to_temperatures := layer_to_temperatures b;
     layers := layers b; lru_cache := lru_cache b |}.
Definition with_layer_to_feedrates (b : ModelBuilder)
           (d : dict LayerId (list Q)) : ModelBuilder :=
  {| machine := machine b; z_to_layer := z_to_layer b;
     _last_layer_z := _last_layer_z b;
     _is_after_post_priming_descent := _is_after_post_priming_descent b;
     priming_layer := priming_layer b; priming_layer_z := priming_layer_z b;
     layer_to_feedrates := d;
     layer_to_temperatures := layer_to_temperatures b;
     layers := layers b; lru_cache := lru_cache b |}.
Definition with_layer_to_temperatures (b : ModelBuilder)
           (d : dict LayerId (list Q)) : ModelBuilder :=
  {| machine := machine b; z_to_layer := z_to_layer b;
     _last_layer_z := _last_layer_z b;
     _is_after_post_priming_descent := _is_after_post_priming_descent b;
     priming_layer := priming_layer b; priming_layer_z := priming_layer_z b;
     layer_to_feedrates := layer_to_feedrates b;
     layer_to_temperatures := d;
     layers := layers b; lru_cache := lru_cache b |}.
Definition with_layers (b : ModelBuilder) (ls : list Layer) : ModelBuilder :=
  {| machine := machine b; z_to_layer := z_to_layer b;
     _last_layer_z := _last_layer_z b;
     _is_after_post_priming_descent := _is_after_post_priming_descent b;
     priming_layer := priming_layer b; priming_layer_z := priming_layer_z b;
     layer_to_feedrates := layer_to_feedrates b;
     layer_to_temperatures := layer_to_temperatures b;
     layers := ls; lru_cache := lru_cache b |}.
Definition with_lru_cache (b : ModelBuilder) (c : list (Q * LayerId))
  : ModelBuilder :=
  {| machine := machine b; z_to_layer := z_to_layer b;
     _last_layer_z := _last_layer_z b;
     _is_after_post_priming_descent := _is_after_post_priming_descent b;
     priming_layer := priming_layer b; priming_layer_z := priming_layer_z b;
     layer_to_feedrates := layer_to_feedrates b;
     layer_to_temperatures := layer_to_temperatures b;
     layers := layers b; lru_cache := c |}.

(** The object a [LayerId] names. *)
Definition deref (ls : list Layer) (l : LayerId) : result Layer :=
  match nth_error ls l with
  | Some x => Ok x
  | None => Raise KeyError
  end.

(** The body of [get_layer_at_z], as written under the decorator. *)
Definition get_layer_at_z_body (self : ModelBuilder) (layer_z : Q)
  : result (ModelBuilder * LayerId) :=
  match dict_get Qeq_bool layer_z (z_to_layer self) with
  | Some target_layer => Ok (self, target_layer)
  | None =>
      self <-
        (if Qlt_bool layer_z (_last_layer_z self) then
           (* Z Descent occurred *)
           if _is_after_post_priming_descent self then
             Raise (PostPrimingDescentError layer_z (_last_layer_z self))
           else if (1 <? length (z_to_layer self))%nat then
             Raise (LateEffectorDescentError layer_z (_last_layer_z self)
                                             (length (z_to_layer self)))
           else
             (* Set layer at _max_layer_z as priming layer. *)
             match dict_pop Qeq_bool (_last_layer_z self) (z_to_layer self) with
             | Some (popped, rest) =>
                 Ok (with_priming (with_z_to_layer self rest)
                                  popped (_last_layer_z self))
             | None => Raise KeyError
             end
         else Ok self) ;;
      (* Create new layer *)
      let target_layer := length (layers self) in
      let self := with_layers self (layers self ++ [Layer_init]) in
      let self := with_z_to_layer self
                    (dict_set Qeq_bool layer_z target_layer (z_to_layer self)) in
      (* Statistics collection *)
      let self := with_layer_to_temperatures self
                    (dict_set Nat.eqb target_layer [] (layer_to_temperatures self)) in
      let self := with_layer_to_feedrates self
                    (dict_set Nat.eqb target_layer [] (layer_to_feedrates self)) in
      Ok (self, target_layer)
  end.

(** [@lru_cache(maxsize=128)]: a call whose argument is in the cache
    returns the cached object and does not run the body; a result (never
    an exception) is cached, the least recently used entry making room. *)
Definition get_layer_at_z (self : ModelBuilder) (layer_z : Q)
  : result (ModelBuilder * LayerId) :=
  match dict_pop Qeq_bool layer_z (lru_cache self) with
  | Some (cached, others) =>
      Ok (with_lru_cache self ((layer_z, cached) :: others), cached)
  | None =>
      '(self, target_layer) <- get_layer_at_z_body self layer_z ;;
      Ok (with_lru_cache self
            (firstn lru_maxsize ((layer_z, target_layer) :: lru_cache self)),
          target_layer)
  end.

Definition add_segment_to_layer (layer : Layer) (source destination : LVector2d)
  : result Layer :=
  let new_path := with_paths layer (paths layer ++ [Path_init source destination]) in
  match paths layer with
  | [] => Ok new_path
  | _ :: _ =>
      last_path <- getitem (paths layer) (-1) ;;
      last_point <- getitem last_path (-1) ;;
      if negb (vec2_eqb source last_point) then
        (* Create new path *)
        Ok new_path
      else
        (* Continue last path *)
        ps <- setitem (paths layer) (-1) (last_path ++ [destination]) ;;
        Ok (with_paths layer ps)
  end.

(** [self.add_segment_to_layer(layer=..)] on the object named [l]. *)
Definition add_segment (self : ModelBuilder) (l : LayerId)
           (source destination : LVector2d) : result ModelBuilder :=
  layer <- deref (layers self) l ;;
  layer <- add_segment_to_layer layer source destination ;;
  Ok (with_layers self (update_nth l (fun _ => layer) (layers self))).

(** [for i in range(len(points) - 1): add_segment(points[i], points[i + 1])]. *)
Fixpoint add_segments (self : ModelBuilder) (l : LayerId)
         (points : list LVector2d) : result ModelBuilder :=
  match points with
  | p :: (q :: _) as rest =>
      self <- add_segment self l p q ;; add_segments self l rest
  | _ => Ok self
  end.

(** [d[l].append(x)]. *)
Definition append_sample (d : dict LayerId (list Q)) (l : LayerId) (x : Q)
  : result (dict LayerId (list Q)) :=
  samples <- dict_item Nat.eqb l d ;;
  Ok (dict_set Nat.eqb l (samples ++ [x]) d).

Section WithNumerics.
  Context {N : Numerics}.

(** The test "is a layer printing move" of [_handle_move]. *)
Definition is_layer_printing_move (h : Heap) (m : Machine) (command : Command)
  : bool :=
  let pos_prev := position_abs h (state_previous m) in
  let pos_cur := position_abs h (state_current m) in
  (* Stayed on layer during move? *)
  Qeq_bool (p_z pos_prev) (p_z pos_cur)
  (* Extruder value increased? *)
  && Qlt_bool (extruder_abs (state_previous m)) (extruder_abs (state_current m))
  (* Provided X or Y value? *)
  && any [truthy (move_x command); truthy (move_y command)].

Definition _handle_move (h : Heap) (self : ModelBuilder) (command : Command)
  : result ModelBuilder :=
  (* Get position *)
  let pos_prev := position_abs h (state_previous (machine self)) in
  let pos_cur := position_abs h (state_current (machine self)) in
  if negb (isinstance_Move command) then Raise TypeError
  else if is_layer_printing_move h (machine self) command then
    (* Add points *)
    let target_layer_z := p_z pos_cur in
    '(self, target_layer) <- get_layer_at_z self target_layer_z ;;
    let self := with_last_layer_z self target_layer_z in
    let source := point_xy pos_prev in
    let destination := point_xy pos_cur in
    self <-
      match command with
      | G0 _ | G1 _ => add_segment self target_layer source destination
      | G2 p | G3 p =>
          match am_i p, am_j p with
          | Some i, Some j =>
              let pivot := mkVec2 i j in
              let is_clockwise := match command with G2 _ => true | _ => false end in
              points_interpolated <-
                interpolation.interpolate source destination pivot
                                          is_clockwise (1 # 20) ;;
              add_segments self target_layer points_interpolated
          | _, _ => Raise TypeError
          end
      | _ => Ok self
      end ;;
    (* Save feedrate and temperature *)
    temps <- append_sample (layer_to_temperatures self) target_layer
               (temp_extruder (state_current (machine self))) ;;
    let self := with_layer_to_temperatures self temps in
    feeds <- append_sample (layer_to_feedrates self) target_layer
               (feedrate (state_current (machine self))) ;;
    Ok (with_layer_to_feedrates self feeds)
  else Ok self.

(** [ModelBuilder.handle_command]; the loop of [build_model] has the
    same two statements as its body. *)
Definition handle_command (w : Heap * ModelBuilder) (command : Command)
  : result (Heap * ModelBuilder) :=
  let '(h, self) := w in
  '(h, m) <- machine.handle_command command (h, machine self) ;;
  let self := with_machine self m in
  if isinstance_Move command then
    self <- _handle_move h self command ;; Ok (h, self)
  else Ok (h, self).

(** [min(xs)], [max(xs)] (the first extremal element) and
    [statistics.mean(xs)]. *)
Definition py_min (xs : list Q) : result Q :=
  match xs with
  | [] => Raise ValueError
  | x :: rest => Ok (fold_left (fun m y => if Qlt_bool y m then y else m) rest x)
  end.
Definition py_max (xs : list Q) : result Q :=
  match xs with
  | [] => Raise ValueError
  | x :: rest => Ok (fold_left (fun m y => if Qlt_bool m y then y else m) rest x)
  end.
Definition mean (xs : list Q) : result Q :=
  match xs with
  | [] => Raise StatisticsError
  | _ :: _ => Ok (fold_right Qplus 0 xs / inject_Z (Z.of_nat (length xs)))
  end.

(** One turn of the padding loop: the paths of one layer of
    [z_to_layer.values()]. *)
Definition pad_layer (nozzle_diam : Q) (ls : list Layer) (l : LayerId)
  : result (list Layer) :=
  layer <- deref ls l ;;
  padded <- mapM (fun p => add_padding p (nozzle_diam / 2)) (paths layer) ;;
  Ok (update_nth l (fun x => with_paths x padded) ls).

(** One turn of the statistics loop. *)
Definition set_statistics (self : ModelBuilder) (ls : list Layer) (l : LayerId)
  : result (list Layer) :=
  layer <- deref ls l ;;
  temperatures <- dict_item Nat.eqb l (layer_to_temperatures self) ;;
  t_min <- py_min temperatures ;;
  t_max <- py_max temperatures ;;
  t_avg <- mean temperatures ;;
  feedrates <- dict_item Nat.eqb l (layer_to_feedrates self) ;;
  f_min <- py_min feedrates ;;
  f_max <- py_max feedrates ;;
  f_avg <- mean temperatures ;;
  Ok (update_nth l
        (fun x => {| paths := paths x;
                     temperature_min := Some t_min;
                     temperature_max := Some t_max;
                     temperature_avg := Some t_avg;
                     feedrate_min := Some f_min;
                     feedrate_max := Some f_max;
                     feedrate_avg := Some f_avg |})
        ls).

(** The commands of [build_model]'s first loop, from a new builder. *)
Definition run_commands (h : Heap) (gcode : list Command)
  : result (Heap * ModelBuilder) :=
  foldM handle_command gcode (h, ModelBuilder_init).

(** What [build_model] does once the commands are consumed. *)
Definition finish (builder : ModelBuilder) (nozzle_diam : Q) : result Model :=
  ls <- foldM (pad_layer nozzle_diam) (dict_values (z_to_layer builder))
              (layers builder) ;;
  (* Calc and set layer statistics *)
  ls <- foldM (set_statistics builder) (dict_values (z_to_layer builder)) ls ;;
  Ok (Model_init
        (fold_left (fun d item => dict_set Nat.eqb (snd item) (fst item) d)
                   (z_to_layer builder) [])
        nozzle_diam
        (priming_layer builder)
        (priming_layer_z builder)
        ls).

(** [ModelBuilder.build_model(gcode, nozzle_diam)], run in a process
    whose [Point3D] store is [h]. *)
Definition build_model (h : Heap) (gcode : list Command) (nozzle_diam : Q)
  : result (Heap * Model) :=
  '(h, builder) <- run_commands h gcode ;;
  model <- finish builder nozzle_diam ;;
  Ok (h, model).

  End WithNumerics.
End model.

(** ** A rational instance of [Numerics]

Used to run the definitions on concrete command streams.  The square
root is cut after twelve decimals (it is exact on the squares of
multiples of [10^-12]); the trigonometric functions are the first terms
of their power series. *)

Module rational_numerics.

Definition Qsqrt (q : Q) : Q :=
  Qred (Z.sqrt (Qfloor (q * inject_Z (10 ^ 24))) # 10 ^ 12).

Definition length (v : LVector2d) : Q :=
  Qsqrt (v_x v * v_x v + v_y v * v_y v).

Definition normalized (v : LVector2d) : LVector2d :=
  let l := length v in
  if Qeq_bool l 0 then mkVec2 0 0
  else mkVec2 (Qred (v_x v / l)) (Qred (v_y v / l)).

Definition pi : Q := 3141592653589793 # 1000000000000000.

Definition cos (x : Q) : Q :=
  1 - x ^ 2 / 2 + x ^ 4 / 24 - x ^ 6 / 720 + x ^ 8 / 40320.

Definition sin (x : Q) : Q :=
  x - x ^ 3 / 6 + x ^ 5 / 120 - x ^ 7 / 5040.

Definition acos (x : Q) : Q :=
  pi / 2 - (x + x ^ 3 / 6 + 3 * x ^ 5 / 40 + 15 * x ^ 7 / 336).

Definition numerics : Numerics := {|
  vec_length := length;
  vec_normalized := normalized;
  math_acos := acos;
  math_cos := cos;
  math_sin := sin;
  math_pi := pi
|}.

End rational_numerics.

(** ** Command streams used in the examples *)

Module examples.
  Import commands.

(** [G1] with the given [x], [y], [z], [e], [f] and no [h], [r], [s]. *)
Definition g1 (x y z e f : option Q) : Command :=
  G1 {| lm_x := x; lm_y := y; lm_z := z; lm_e := e;
        lm_f := f; lm_h := None; lm_r := None; lm_s := None |}.

(** [G1 Z<z>]: a travel move to the height [z]. *)
Definition travel_z (z : Q) : Command := g1 None None (Some z) None None.

(** [G1 X<x> E<e>]: a move along X that extrudes up to [e]. *)
Definition extrude_x (x e : Q) : Command := g1 (Some x) None None (Some e) None.

Definition token (letter : ascii) (literal : string) : GcodeToken :=
  (letter, literal).

(** Deposition at Z = 0.2, 0.2, 0.4, 0.4, the extruder increasing. *)
Definition two_layers : list Command :=
  [ travel_z (1 # 5); extrude_x 1 1; extrude_x 2 2;
    travel_z (2 # 5); extrude_x 3 3; extrude_x 4 4 ].

(** A layer at Z = 0.1, then a descent to Z = 0.05: the first layer
    becomes the priming layer. *)
Definition priming : list Command :=
  [ travel_z (1 # 10); extrude_x 1 1; travel_z (1 # 20); extrude_x 2 2 ].

(** [priming], then a layer at Z = 0.2, then the head goes back down to
    the priming layer's Z = 0.1. *)
Definition back_to_priming_z : list Command :=
  priming ++ [ travel_z (1 # 5); extrude_x 3 3; travel_z (1 # 10) ].

(** [priming], then a deposition that stays at X = 2: the path of the
    layer at Z = 0.05 ends in two equal points. *)
Definition priming_and_blob : list Command :=
  priming ++ [ extrude_x 2 3 ].

Definition run_machine (gcode : list Command) (w : machine.World)
  : result machine.World :=
  foldM (fun w c => machine.handle_command c w) gcode w.

(** Equality of lists of paths, point by point, as rationals. *)
Definition path_eqb (p q : path.Path) : bool :=
  (length p =? length q)%nat
  && forallb (fun ab => vec2_eqb (fst ab) (snd ab)) (combine p q).

Definition paths_eqb (ps qs : list path.Path) : bool :=
  (length ps =? length qs)%nat
  && forallb (fun ab => path_eqb (fst ab) (snd ab)) (combine ps qs).

End examples.

(** ** Vocabulary of the statements *)

Module spec.
  Import commands machine path layer.

(** The Z a move provides: only a line move has one. *)
Definition move_z (c : Command) : option Q :=
  match c with G0 p | G1 p => lm_z p | _ => None end.

(** A missing axis contributes 0 to a relative move. *)
Definition provided_or_zero (o : option Q) : Q :=
  match o with Some v => v | None => 0 end.

(** An absolute move sets a provided coordinate to the commanded value
    times the unit multiplier, as a float, and keeps an unspecified one. *)
Definition scaled_or_kept (o : option Q) (multiplier old : Q) : Q :=
  match o with Some v => to_double (v * multiplier) | None => old end.

(** [r] is [x] rounded to [n] decimal places: the float of a decimal
    number [k / 10^n] that is nearest to [x], with [k] even when [x] is in
    the middle between two such numbers. *)
Definition rounded_to (n : nat) (x r : Q) : Prop :=
  exists k : Z,
    let d := inject_Z k / inject_Z (10 ^ Z.of_nat n) in
    r = to_double d
    /\ Qabs (x - d) <= (1 # 2) / inject_Z (10 ^ Z.of_nat n)
    /\ (Qabs (x - d) == (1 # 2) / inject_Z (10 ^ Z.of_nat n) ->
        Z.even k = true).

(** The number is far below the largest float, [2^1024 - 2^971]. *)
Definition moderate (x : Q) : Prop := Qabs x < inject_Z (2 ^ 1000).

Definition moderate_if_given (o : option Q) : Prop :=
  match o with Some v => moderate v | None => True end.

(** The coordinates of the point and the axis values of the move are
    moderate: no sum of two of them and no product with the unit
    multiplier leaves the range of the floats. *)
Definition moderate_move (c : Command) (p : Point3D) : Prop :=
  moderate (p_x p) /\ moderate (p_y p) /\ moderate (p_z p)
  /\ moderate_if_given (move_x c) /\ moderate_if_given (move_y c)
  /\ moderate_if_given (move_z c).

Section WithNumerics.
  Context {N : Numerics}.

(** [p'] is [p] with [shifted] applied to its two ends: [p] is a first
    point [a], interior points [mid] and a last point [c]; [shifted] moves
    the first point with the second point as neighbour, and the last point
    with the second-to-last point as neighbour (which, in a path of two
    points, is the first point where its own shift has left it); [mid] is
    unchanged. *)
Definition padded (len : Q) (p p' : Path) : Prop :=
  exists a mid c,
    p = a :: mid ++ [c]
    /\ let a' := shifted a (hd c mid) len in
       p' = a' :: mid ++ [shifted c (last mid a') len].

(** The two vectors are the same point. *)
Definition same_point (a b : LVector2d) : Prop :=
  v_x a == v_x b /\ v_y a == v_y b.

(** [u] is the unit vector of [v]: it has length 1 and the direction of
    [v]. *)
Definition unit_vector (v u : LVector2d) : Prop :=
  v_x u * v_x u + v_y u * v_y u == 1
  /\ exists k, 0 < k /\ v_x u == k * v_x v /\ v_y u == k * v_y v.

(** [p'] is [p] shifted by [d] along the direction away from [q]: [p']
    is at distance [d] from [p], and going from [p] to [p'] is going on
    from [q] to [p]. *)
Definition shifted_away (d : Q) (p q p' : LVector2d) : Prop :=
  (v_x p' - v_x p) * (v_x p' - v_x p) + (v_y p' - v_y p) * (v_y p' - v_y p)
  == d * d
  /\ exists k, 0 <= k
       /\ v_x p' - v_x p == k * (v_x p - v_x q)
       /\ v_y p' - v_y p == k * (v_y p - v_y q).

(** What padding by [len] makes of the end [p] of a path, next to the
    point [q]: an end that lies on its neighbour stays where it is, and an
    end for which [normalized()] gives the unit vector pointing from the
    neighbour to it is shifted by [len] away from the neighbour. *)
Definition end_padded (len : Q) (p q p' : LVector2d) : Prop :=
  (same_point p q -> same_point p' p)
  /\ (unit_vector (vec2_sub p q) (vec_normalized (vec2_sub p q)) ->
      shifted_away len p q p').

(** [p'] is [p] with both ends padded and the interior points unchanged.
    The neighbour of the first point is the second point of [p]; the
    neighbour of the last point is the second-to-last point of [p'] (in a
    path of two points that is the first point, where its own shift has
    left it). *)
Definition ends_padded (len : Q) (p p' : Path) : Prop :=
  exists a mid c a' c',
    p = a :: mid ++ [c]
    /\ p' = a' :: mid ++ [c']
    /\ end_padded len a (hd c mid) a'
    /\ end_padded len c (last mid a') c'.

(** panda3d's [normalized()] returns the zero vector for the zero
    vector. *)
Definition normalized_keeps_zero : Prop :=
  forall v : LVector2d,
    v_x v == 0 -> v_y v == 0 -> same_point (vec_normalized v) (mkVec2 0 0).
End WithNumerics.

Definition sum (xs : list Q) : Q := fold_right Qplus 0 xs.

Definition is_min (xs : list Q) (o : option Q) : Prop :=
  exists m, o = Some m /\ In m xs /\ forall x, In x xs -> m <= x.

Definition is_max (xs : list Q) (o : option Q) : Prop :=
  exists m, o = Some m /\ In m xs /\ forall x, In x xs -> x <= m.

Definition is_mean (xs : list Q) (o : option Q) : Prop :=
  exists a, o = Some a /\ xs <> []
            /\ a == sum xs / inject_Z (Z.of_nat (length xs)).

Definition no_statistics (l : Layer) : Prop :=
  temperature_min l = None /\ temperature_max l = None
  /\ temperature_avg l = None /\ feedrate_min l = None
  /\ feedrate_max l = None /\ feedrate_avg l = None.

(** What every builder reached from [ModelBuilder()] satisfies: the
    layers of [z_to_layer] are distinct objects of the store, the priming
    layer is an object of the store that [z_to_layer] no longer holds, and
    no layer has statistics yet. *)
Definition builder_inv (z_to_layer : dict Q nat) (layers : list Layer)
           (priming_layer : option nat) : Prop :=
  NoDup (dict_values z_to_layer)
  /\ (forall l, In l (dict_values z_to_layer) -> (l < length layers)%nat)
  /\ (forall p, priming_layer = Some p ->
                (p < length layers)%nat /\ ~ In p (dict_values z_to_layer))
  /\ Forall no_statistics layers.

(** The statistics the loop gives the layer [l] of builder [b]. *)
Definition statistics_of (b : model.ModelBuilder) (l : nat) (x : Layer) : Prop :=
  exists temperatures feedrates,
    dict_get Nat.eqb l (model.layer_to_temperatures b) = Some temperatures
    /\ dict_get Nat.eqb l (model.layer_to_feedrates b) = Some feedrates
    /\ is_min temperatures (temperature_min x)
    /\ is_max temperatures (temperature_max x)
    /\ is_mean temperatures (temperature_avg x)
    /\ is_min feedrates (feedrate_min x)
    /\ is_max feedrates (feedrate_max x).

End spec.

From Stdlib Require Import Permutation.

(** ** Vocabulary of the statements on commands and the machine *)

Module spec_commands.
Import commands.

Definition is_command_token (t : GcodeToken) : Prop :=
  letter_in (fst t) LETTERS_COMMAND = true.

Definition is_param_token (t : GcodeToken) : Prop :=
  letter_in (fst t) LETTERS_COMMAND = false
  /\ letter_in (fst t) LETTERS_PARAM = true.

Definition is_unrecognized_token (t : GcodeToken) : Prop :=
  letter_in (fst t) LETTERS_COMMAND = false
  /\ letter_in (fst t) LETTERS_PARAM = false.

(** A group: a command token followed by parameter tokens. *)
Definition is_group (g : list GcodeToken) : Prop :=
  exists c ps, g = c :: ps /\ is_command_token c /\ Forall is_param_token ps.

(** The literal of the last token of [tokens] that carries [letter]. *)
Fixpoint last_literal (letter : ascii) (tokens : list GcodeToken)
  : option string :=
  match tokens with
  | [] => None
  | (l, v) :: rest =>
      match last_literal letter rest with
      | Some w => Some w
      | None => if Ascii.eqb letter l then Some v else None
      end
  end.

End spec_commands.

Module spec_machine.
Import commands machine.

(** The two [Point3D] objects of a state exist in the store. *)
Definition allocated (h : Heap) (s : MachineState) : Prop :=
  (position s < next_ref h)%nat /\ (offset_position s < next_ref h)%nat.

Definition machine_wf (h : Heap) (m : Machine) : Prop :=
  allocated h (state_previous m) /\ allocated h (state_current m).

(** The command's class has an entry in [_command_type_to_handler]. *)
Definition supported (c : Command) : bool :=
  match _get_handler c with Some _ => true | None => false end.

End spec_machine.

(** ** Vocabulary of the statements on the builder *)

Module spec_model.
Import commands machine path layer model.

(** The number of segments of a layer: one less than its points, path by
    path. *)
Definition segments (l : Layer) : nat :=
  fold_right (fun p n => (length p - 1 + n)%nat) 0%nat (paths l).

(** The layer object [l] exists, has sample lists, and its segments
    outnumber its temperature samples by [owed_t] and its feedrate samples
    by [owed_f]; its paths have two points or more. *)
Definition layer_ok (b : ModelBuilder) (l : LayerId) (owed_t owed_f : nat)
           (positive : bool) : Prop :=
  exists layer ts fs,
    nth_error (layers b) l = Some layer
    /\ dict_get Nat.eqb l (layer_to_temperatures b) = Some ts
    /\ dict_get Nat.eqb l (layer_to_feedrates b) = Some fs
    /\ (length ts + owed_t = segments layer)%nat
    /\ (length fs + owed_f = segments layer)%nat
    /\ (positive = true -> (1 <= segments layer)%nat)
    /\ Forall (fun p => (2 <= length p)%nat) (paths layer).

(** Every layer object is settled (as many samples of each kind as
    segments, and at least one), except that [target] may still be owed
    samples. *)
Definition layers_ok (b : ModelBuilder) (target : LayerId)
           (owed_t owed_f : nat) (positive : bool) : Prop :=
  forall l, (l < length (layers b))%nat ->
            if Nat.eqb l target then layer_ok b l owed_t owed_f positive
            else layer_ok b l 0 0 true.

Definition all_layers_ok (b : ModelBuilder) : Prop :=
  forall l, (l < length (layers b))%nat -> layer_ok b l 0 0 true.

(** No two keys of the dictionary are equal numbers. *)
Definition keys_distinct (d : dict Q LayerId) : Prop :=
  forall z l, In (z, l) d -> dict_get Qeq_bool z d = Some l.

(** The cache holds at most [lru_maxsize] entries, all of them layer
    objects; until a priming layer is detected they are the entries
    [z_to_layer] has for the same Z. *)
Definition cache_ok (b : ModelBuilder) : Prop :=
  (length (lru_cache b) <= lru_maxsize)%nat
  /\ forall z l,
       In (z, l) (lru_cache b) ->
       (l < length (layers b))%nat
       /\ (_is_after_post_priming_descent b = false ->
           dict_get Qeq_bool z (z_to_layer b) = Some l).

(** Layer objects are numbered in the order of their creation.  Without
    priming layer, [z_to_layer] holds all of them in that order; with one,
    the priming layer is object 0 and [z_to_layer] holds the others. *)
Definition index_ok (b : ModelBuilder) : Prop :=
  if _is_after_post_priming_descent b
  then priming_layer b = Some 0%nat
       /\ (exists z, priming_layer_z b = Some z)
       /\ dict_values (z_to_layer b) = seq 1 (length (layers b) - 1)
       /\ (1 <= length (layers b))%nat
  else priming_layer b = None /\ priming_layer_z b = None
       /\ dict_values (z_to_layer b) = seq 0 (length (layers b)).

(** Until a priming layer is detected, [_last_layer_z] is 0 as long as
    there is no layer, and the Z of a layer from then on. *)
Definition last_ok (b : ModelBuilder) : Prop :=
  _is_after_post_priming_descent b = false ->
  match z_to_layer b with
  | [] => _last_layer_z b = 0
  | _ :: _ => exists l, dict_get Qeq_bool (_last_layer_z b) (z_to_layer b) = Some l
  end.

(** What holds of a builder in the middle of a printing move that has
    layer [target] as its layer. *)
Definition staged_inv (b : ModelBuilder) (target : LayerId)
           (owed_t owed_f : nat) (positive : bool) : Prop :=
  index_ok b
  /\ keys_distinct (z_to_layer b)
  /\ cache_ok b
  /\ _skip_unknown (machine b) = true
  /\ (target < length (layers b))%nat
  /\ layers_ok b target owed_t owed_f positive.

(** What holds of a builder between two commands, whatever the commands
    before. *)
Definition reachable_inv (b : ModelBuilder) : Prop :=
  index_ok b
  /\ keys_distinct (z_to_layer b)
  /\ cache_ok b
  /\ _skip_unknown (machine b) = true
  /\ all_layers_ok b
  /\ last_ok b.

(** The errors of a printing move at height [z], with what the builder
    looks like when they are raised. *)
Definition descent_error (b : ModelBuilder) (z : Q) (e : exn) : Prop :=
  z < _last_layer_z b
  /\ ((e = KeyError /\ layers b = [] /\ z < 0)
      \/ (e = PostPrimingDescentError z (_last_layer_z b)
          /\ _is_after_post_priming_descent b = true)
      \/ (e = LateEffectorDescentError z (_last_layer_z b)
                                       (length (z_to_layer b))
          /\ _is_after_post_priming_descent b = false
          /\ (2 <= length (z_to_layer b))%nat)).

Definition is_arc (c : Command) : bool :=
  match c with G2 _ | G3 _ => true | _ => false end.

(** The errors a build can end in. *)
Definition is_build_error (e : exn) : Prop :=
  e = TypeError \/ e = KeyError
  \/ (exists cur prev, e = PostPrimingDescentError cur prev)
  \/ (exists cur prev n, e = LateEffectorDescentError cur prev n).

(** Each number is at most the numbers after it. *)
Fixpoint ascending (zs : list Q) : Prop :=
  match zs with
  | [] => True
  | z :: rest => Forall (fun z' => z <= z') rest /\ ascending rest
  end.

(** The two builders differ in nothing but the cache of
    [get_layer_at_z]. *)
Definition same_but_cache (b1 b2 : ModelBuilder) : Prop :=
  with_lru_cache b1 (lru_cache b2) = b2.

End spec_model.

(** ** [point_cloud/boundaries.py] *)

Module boundaries.

(** panda3d's [LVector3d]. *)
Record LVector3d : Type := mkVec3 { v3_x : Q; v3_y : Q; v3_z : Q }.

(** [LVector3d(v, z)] for a two-dimensional [v]. *)
Definition vec3_of_vec2 (v : LVector2d) (z : Q) : LVector3d :=
  mkVec3 (v_x v) (v_y v) z.

Definition vec3_add (a b : LVector3d) : LVector3d :=
  mkVec3 (v3_x a + v3_x b) (v3_y a + v3_y b) (v3_z a + v3_z b).
Definition vec3_sub (a b : LVector3d) : LVector3d :=
  mkVec3 (v3_x a - v3_x b) (v3_y a - v3_y b) (v3_z a - v3_z b).
Definition vec3_div (a : LVector3d) (k : Q) : LVector3d :=
  mkVec3 (v3_x a / k) (v3_y a / k) (v3_z a / k).
Definition vec2_div (a : LVector2d) (k : Q) : LVector2d :=
  mkVec2 (v_x a / k) (v_y a / k).

(** panda3d's [fmin] and [fmax]: the smaller (larger) number, component
    by component. *)
Definition smaller (a b : Q) : Q := if Qlt_bool a b then a else b.
Definition larger (a b : Q) : Q := if Qlt_bool b a then a else b.

Definition vec2_fmin (a b : LVector2d) : LVector2d :=
  mkVec2 (smaller (v_x a) (v_x b)) (smaller (v_y a) (v_y b)).
Definition vec2_fmax (a b : LVector2d) : LVector2d :=
  mkVec2 (larger (v_x a) (v_x b)) (larger (v_y a) (v_y b)).
Definition vec3_fmin (a b : LVector3d) : LVector3d :=
  mkVec3 (smaller (v3_x a) (v3_x b)) (smaller (v3_y a) (v3_y b))
         (smaller (v3_z a) (v3_z b)).
Definition vec3_fmax (a b : LVector3d) : LVector3d :=
  mkVec3 (larger (v3_x a) (v3_x b)) (larger (v3_y a) (v3_y b))
         (larger (v3_z a) (v3_z b)).

(** [class BoundingBox2D(BoundingBox)]. *)
Module BoundingBox2D.
Record t : Type := init { point_min : LVector2d; point_max : LVector2d }.

Definition center (self : t) : LVector2d :=
  vec2_div (vec2_add (point_max self) (point_min self)) 2.
Definition size (self : t) : LVector2d :=
  vec2_sub (point_max self) (point_min self).
Definition from_origin (point_max : LVector2d) : t :=
  init (mkVec2 0 0) point_max.
Definition null_object : t := init (mkVec2 0 0) (mkVec2 0 0).
End BoundingBox2D.

(** [class BoundingBox3D(BoundingBox)]. *)
Module BoundingBox3D.
Record t : Type := init { point_min : LVector3d; point_max : LVector3d }.

Definition center (self : t) : LVector3d :=
  vec3_div (vec3_add (point_max self) (point_min self)) 2.
Definition size (self : t) : LVector3d :=
  vec3_sub (point_max self) (point_min self).
Definition from_origin (point_max : LVector3d) : t :=
  init (mkVec3 0 0 0) point_max.
Definition null_object : t := init (mkVec3 0 0 0) (mkVec3 0 0 0).
End BoundingBox3D.

End boundaries.

(** ** [Layer.boundaries] of [point_cloud/layer.py] *)

Module layer_boundaries.
Import path layer boundaries.

(** The property [Layer.boundaries]. *)
Definition boundaries (self : Layer) : result BoundingBox2D.t :=
  match paths self with
  | [] => Raise ValueError
  | _ :: _ =>
      let vertices := concat (paths self) in
      (* Assuming all added vertices have the same z value. *)
      x_min <- model.py_min (map v_x vertices) ;;
      y_min <- model.py_min (map v_y vertices) ;;
      let point_min := mkVec2 x_min y_min in
      x_max <- model.py_max (map v_x vertices) ;;
      y_max <- model.py_max (map v_y vertices) ;;
      let point_max := mkVec2 x_max y_max in
      Ok (BoundingBox2D.init point_min point_max)
  end.

End layer_boundaries.

(** ** The boundaries of a [Model] ([point_cloud/model.py]) *)

Module model_boundaries.
Import path layer boundaries model.

(** [functools.reduce(f, xs)] without initial value; [xs] is not empty
    where the code calls it. *)
Definition reduce {A : Type} (f : A -> A -> A) (xs : list A) : result A :=
  match xs with
  | [] => Raise TypeError
  | x :: rest => Ok (fold_left f rest x)
  end.

(** The cached property [_boundaries_without_priming]. *)
Definition _boundaries_without_priming (self : Model) : result BoundingBox3D.t :=
  match index_to_layer self with
  | _ :: _ =>
      boxes <- mapM (fun l => layer <- deref (layer_objects self) l ;;
                              box_min <- layer_boundaries.boundaries layer ;;
                              box_max <- layer_boundaries.boundaries layer ;;
                              Ok (BoundingBox2D.point_min box_min,
                                  BoundingBox2D.point_max box_max))
                    (map fst (_layer_to_z self)) ;;
      (* the unpacking of [zip] into two names *)
      match boxes with
      | [] => Raise ValueError
      | _ :: _ =>
          let layer_points_min := map fst boxes in
          let layer_points_max := map snd boxes in
          layers_min <- reduce vec2_fmin layer_points_min ;;
          layers_max <- reduce vec2_fmax layer_points_max ;;
          let point_min := mkVec3 (v_x layers_min) (v_y layers_min) 0 in
          z_max <- py_max (dict_values (_layer_to_z self)) ;;
          let point_max := mkVec3 (v_x layers_max) (v_y layers_max) z_max in
          Ok (BoundingBox3D.init point_min point_max)
      end
  | [] =>
      (* No layers *)
      Ok BoundingBox3D.null_object
  end.

(** The cached property [_boundaries_with_priming]. *)
Definition _boundaries_with_priming (self : Model) : result BoundingBox3D.t :=
  match _priming_layer self with
  | None => _boundaries_without_priming self
  | Some priming =>
      (* Calc new boundaries with priming layer in mind *)
      without <- _boundaries_without_priming self ;;
      priming_layer <- deref (layer_objects self) priming ;;
      box <- layer_boundaries.boundaries priming_layer ;;
      let point_min :=
        vec3_fmin (BoundingBox3D.point_min without)
                  (vec3_of_vec2 (BoundingBox2D.point_min box) 0) in
      without <- _boundaries_without_priming self ;;
      box <- layer_boundaries.boundaries priming_layer ;;
      let point_max :=
        vec3_fmax (BoundingBox3D.point_max without)
                  (vec3_of_vec2 (BoundingBox2D.point_max box) 0) in
      Ok (BoundingBox3D.init point_min point_max)
  end.

Definition get_boundaries (self : Model) (with_priming : bool)
  : result BoundingBox3D.t :=
  if with_priming then _boundaries_with_priming self
  else _boundaries_without_priming self.

End model_boundaries.

(** ** Vocabulary of the statements on boundaries *)

Module spec_boundaries.
Import path layer boundaries.

(** The point lies in the box, borders included. *)
Definition inside (box : BoundingBox2D.t) (v : LVector2d) : Prop :=
  v_x (BoundingBox2D.point_min box) <= v_x v
  /\ v_x v <= v_x (BoundingBox2D.point_max box)
  /\ v_y (BoundingBox2D.point_min box) <= v_y v
  /\ v_y v <= v_y (BoundingBox2D.point_max box).

(** The same for the X and Y range of a three-dimensional box. *)
Definition inside_xy (box : BoundingBox3D.t) (v : LVector2d) : Prop :=
  v3_x (BoundingBox3D.point_min box) <= v_x v
  /\ v_x v <= v3_x (BoundingBox3D.point_max box)
  /\ v3_y (BoundingBox3D.point_min box) <= v_y v
  /\ v_y v <= v3_y (BoundingBox3D.point_max box).

(** The points of a layer, path after path. *)
Definition vertices (l : Layer) : list LVector2d := concat (paths l).

End spec_boundaries.

(** ** [layerview/gcode/parser.py]

A line is a [string]; a character of the model is a code point below
256.  The two regular expressions of [GcodeScanner] are written out as
the left-to-right scans [re.sub] and [re.findall] perform. *)

Module parser.
Import commands.

Definition newline : ascii := ascii_of_nat 10.

(** [\s] on a [str], which is also what [str.strip] removes. *)
Definition is_space (c : ascii) : bool :=
  let n := nat_of_ascii c in
  ((9 <=? n) && (n <=? 13) || (28 <=? n) && (n <=? 32)
   || (n =? 133) || (n =? 160))%nat.

(** [\d] on a [str]. *)
Definition is_digit (c : ascii) : bool :=
  let n := nat_of_ascii c in ((48 <=? n) && (n <=? 57))%nat.

(** [[a-z]]. *)
Definition is_letter (c : ascii) : bool :=
  let n := nat_of_ascii c in ((97 <=? n) && (n <=? 122))%nat.

(** [str.lower], one character. *)
Definition lower_char (c : ascii) : ascii :=
  let n := nat_of_ascii c in
  if ((65 <=? n) && (n <=? 90)
      || (192 <=? n) && (n <=? 222) && negb (n =? 215))%nat
  then ascii_of_nat (n + 32) else c.

Fixpoint lower (s : string) : string :=
  match s with
  | EmptyString => EmptyString
  | String c s' => String (lower_char c) (lower s')
  end.

(** *** [_PATTERN_INSIGNIFICANT.sub("", line)]

[\(.*\)|;.*|\s+]: at a ["("] that has a [")"] after it on the same
line, the match runs up to the last such [")"]; at a [";"] it runs to the
end of the line; at a blank it takes the blanks.  A match is removed and
the scan goes on after it. *)

(** The number of [")"] before the end of the line. *)
Fixpoint closing_in_line (s : string) : nat :=
  match s with
  | EmptyString => 0
  | String c s' =>
      if Ascii.eqb c newline then 0
      else ((if Ascii.eqb c ")"%char then 1 else 0) + closing_in_line s')%nat
  end.

Inductive sub_state : Type :=
| Keep                          (* outside a match *)
| InParentheses (closing : nat) (* in [\(.*\)], [closing + 1] times [")"] to go *)
| InComment.                    (* in [;.*] *)

Fixpoint sub (st : sub_state) (s : string) : string :=
  match s with
  | EmptyString => EmptyString
  | String c s' =>
      match st with
      | InParentheses k =>
          if Ascii.eqb c ")"%char
          then match k with
               | O => sub Keep s'
               | S k' => sub (InParentheses k') s'
               end
          else sub st s'
      | InComment =>
          if Ascii.eqb c newline then sub Keep s' else sub InComment s'
      | Keep =>
          if Ascii.eqb c "("%char
          then match closing_in_line s' with
               | O => String c (sub Keep s')
               | S k => sub (InParentheses k) s'
               end
          else if Ascii.eqb c ";"%char then sub InComment s'
          else if is_space c then sub Keep s'
          else String c (sub Keep s')
      end
  end.

(** [GcodeScanner._sanitize]. *)
Definition _sanitize (line : string) : string := lower (sub Keep line).

(** *** [_PATTERN_GCODE_TOKEN.findall(text)]

The pattern is a letter from a to z, then an optional sign, digits, an
optional dot and digits.  Every part after the letter may be empty, so a
match starts at each letter that is not inside an earlier match and takes
what it can. *)

Inductive phase : Type :=
| AfterLetter    (* a sign, a digit or the dot may follow *)
| InInteger      (* a digit or the dot may follow *)
| InFraction.    (* a digit may follow *)

(** The phase after [c], when the literal can take [c]. *)
Definition accepts (p : phase) (c : ascii) : option phase :=
  match p with
  | AfterLetter =>
      if Ascii.eqb c "-"%char || Ascii.eqb c "+"%char then Some InInteger
      else if is_digit c then Some InInteger
      else if Ascii.eqb c "."%char then Some InFraction
      else None
  | InInteger =>
      if is_digit c then Some InInteger
      else if Ascii.eqb c "."%char then Some InFraction
      else None
  | InFraction => if is_digit c then Some InFraction else None
  end.

(** [findall s], with the match under way, if any: its letter, its phase
    and the literal read so far. *)
Fixpoint findall (cur : option (ascii * phase * string)) (s : string)
  : list GcodeToken :=
  match s with
  | EmptyString =>
      match cur with
      | Some (letter, _, literal) => [(letter, literal)]
      | None => []
      end
  | String c s' =>
      let start :=
        if is_letter c then Some (c, AfterLetter, EmptyString) else None in
      match cur with
      | Some (letter, p, literal) =>
          match accepts p c with
          | Some p' => findall (Some (letter, p', (literal ++ String c EmptyString)%string)) s'
          | None => (letter, literal) :: findall start s'
          end
      | None => findall start s'
      end
  end.

(** [GcodeScanner.analyze]. *)
Definition analyze (line : string) : list GcodeToken :=
  findall None (_sanitize line).

(** *** [GcodeParser] *)

(** [str.strip()]. *)
Fixpoint lstrip (s : string) : string :=
  match s with
  | EmptyString => EmptyString
  | String c s' => if is_space c then lstrip s' else s
  end.

Fixpoint rstrip (s : string) : string :=
  match s with
  | EmptyString => EmptyString
  | String c s' =>
      match rstrip s' with
      | EmptyString => if is_space c then EmptyString else String c EmptyString
      | rest => String c rest
      end
  end.

Definition strip (s : string) : string := rstrip (lstrip s).

(** What a [GcodeSyntaxError] carries as [error]: the message on the
    length of the line, or the exception it wraps. *)
Inductive syntax_error : Type :=
| LineTooLong (line_length : nat)
| Wrapped (e : exn).

(** What iterating [command_generator] can end in. *)
Inductive exception : Type :=
| GcodeSyntaxError (line_num : nat) (line_raw : string) (error : syntax_error)
| Uncaught (e : exn).

Definition _LINE_LENGTH_MAX : nat := 256.

(** [isinstance(e, (CommandParseError, ValueError))]. *)
Definition is_caught (e : exn) : bool :=
  match e with
  | CommandParseError | CommandTokenError | CommandMissingParamError
  | CommandInvalidParamError | ValueError | StatisticsError => true
  | _ => false
  end.

(** One turn of the loop of [command_generator]: the commands the line
    yields, each with its [line_number], or the exception raised. *)
Definition handle_line (skip_unknown : bool) (line_number : nat)
           (line_raw : string) : exception + list (nat * Command) :=
  (* Check line length *)
  let line_length := String.length line_raw in
  if (_LINE_LENGTH_MAX <? line_length)%nat then
    inl (GcodeSyntaxError line_number line_raw (LineTooLong line_length))
  else
    (* Parse line *)
    match commands.parse skip_unknown (analyze line_raw) with
    | Raise e =>
        if is_caught e
        then inl (GcodeSyntaxError line_number (strip line_raw) (Wrapped e))
        else inl (Uncaught e)
    | Ok cmds => inr (map (fun command => (line_number, command)) cmds)
    end.

(** [command_generator(data, skip_unknown)], iterated to its end: what
    it yields, and the exception that ends it, if one does. *)
Fixpoint generator_from (skip_unknown : bool) (line_number : nat)
         (data : list string) : list (nat * Command) * option exception :=
  match data with
  | [] => ([], None)
  | line_raw :: rest =>
      let line_number := (line_number + 1)%nat in
      match handle_line skip_unknown line_number line_raw with
      | inl e => ([], Some e)
      | inr cmds =>
          let '(yielded, ending) := generator_from skip_unknown line_number rest in
          (cmds ++ yielded, ending)
      end
  end.

Definition command_generator (data : list string) (skip_unknown : bool)
  : list (nat * Command) * option exception :=
  generator_from skip_unknown 0 data.

(** [GcodeParser.parse], on the lines of the file. *)
Definition parse (lines : list string) (skip_unknown : bool)
  : exception + list (nat * Command) :=
  match command_generator lines skip_unknown with
  | (gcode, None) => inr gcode
  | (_, Some e) => inl e
  end.

End parser.

(** ** Vocabulary of the statements on the parser *)

Module spec_parser.
Import commands parser.

(** All characters of [s] satisfy [p]. *)
Fixpoint all_chars (p : ascii -> bool) (s : string) : bool :=
  match s with
  | EmptyString => true
  | String c s' => p c && all_chars p s'
  end.

Fixpoint has_char (p : ascii -> bool) (s : string) : bool :=
  match s with
  | EmptyString => false
  | String c s' => p c || has_char p s'
  end.

(** [s] without its blanks, line breaks apart. *)
Fixpoint squeeze (s : string) : string :=
  match s with
  | EmptyString => EmptyString
  | String c s' =>
      if is_space c && negb (Ascii.eqb c newline) then squeeze s'
      else String c (squeeze s')
  end.

(** The line is short enough and its commands are [cmds]. *)
Definition line_gives (skip_unknown : bool) (line : string)
           (cmds : list Command) : Prop :=
  (String.length line <= _LINE_LENGTH_MAX)%nat
  /\ commands.parse skip_unknown (analyze line) = Ok cmds.

(** The commands of consecutive good lines, numbered from [first]. *)
Fixpoint numbered (skip_unknown : bool) (first : nat) (lines : list string)
  : list (nat * Command) :=
  match lines with
  | [] => []
  | line :: rest =>
      match commands.parse skip_unknown (analyze line) with
      | Ok cmds => map (fun c => (first, c)) cmds
      | Raise _ => []
      end ++ numbered skip_unknown (S first) rest
  end.

End spec_parser.

(** * Properties *)

Import commands machine path layer examples.

(** ** Results *)

Lemma bind_Ok_inv {A B : Type} (r : result A) (k : A -> result B) (b : B) :
  bind r k = Ok b -> exists a, r = Ok a /\ k a = Ok b.
Proof.
  destruct r as [a | e]; simpl; intros H.
  - exists a. split; [reflexivity | exact H].
  - discriminate H.
Qed.


(** ** The command constructors (C7) *)

Lemma LineMove_init_without_field :
  LineMove_init None None None None None None None None
  = Raise CommandMissingParamError.
Proof. reflexivity. Qed.

Lemma ArcMove_init_missing_mandatory (x y i j e f : option Q) :
  x = None \/ y = None \/ i = None \/ j = None \/ e = None ->
  ArcMove_init x y i j e f = Raise CommandMissingParamError.
Proof.
  intros H. unfold ArcMove_init.
  destruct x, y, i, j, e; simpl; try reflexivity;
    repeat (destruct H as [H | H]; try discriminate H); discriminate H.
Qed.

Lemma G92_init_without_axis :
  G92_init None None None None = Raise CommandMissingParamError.
Proof. reflexivity. Qed.

(** C7. The claim says that every constructor with mandatory fields raises
    the missing-parameter command error when one is missing, M104 and M109
    without [s] included.  On the code, an M104 or M109 built from a token
    group without [s] ends in Python's TypeError for a missing argument, not
    in CommandMissingParamError: neither [_create_from_float_params] nor the
    whole [parse] raises the command error on the line [M104] or [M109]. *)
Theorem C7_set_temperature_without_s_is_TypeError :
  _create_from_float_params [token "m" "104"] TM104 = Raise TypeError
  /\ _create_from_float_params [token "m" "109"] TM109 = Raise TypeError
  /\ parse false [token "m" "104"] = Raise TypeError
  /\ parse true [token "m" "109"; token "r" "200"] = Raise TypeError.
Proof. repeat split; reflexivity. Qed.

(** ** The machine (C5, C6, C9, C10) *)

(** Every command with a handler is handled without an exception, and
    leaves in the previous state's temperature the feedrate the current
    state had. *)
Lemma handle_command_previous_temperature (c : Command) (h : Heap) (m : Machine) :
  match _get_handler c with
  | Some _ =>
      exists h' m',
        machine.handle_command c (h, m) = Ok (h', m')
        /\ temp_extruder (state_previous m') = feedrate (state_current m)
  | None => True
  end.
Proof.
  destruct c as [p | p | p | p | bx by_ bz | x y z e | | | | | | | s r d | s r t | ];
    simpl; trivial; unfold machine.handle_command; simpl;
    try (eexists; eexists; split; reflexivity).
  1-4: unfold machine._handle_move; simpl;
       destruct (is_rel_positioning (state_current m)); simpl;
       eexists; eexists; split; reflexivity.
  destruct bx, by_, bz; eexists; eexists; split; reflexivity.
Qed.

(** C5. The claim says that after a supported command the previous state
    equals, field by field, the current state as it was before the command.
    On the code [MachineState.update] assigns the feedrate to
    [temp_extruder]: a new machine handling [G90] has current temperature 0
    before the command and previous temperature 40 after it. *)
Theorem C5_previous_temperature_is_the_feedrate :
  temp_extruder (state_current (Machine_init false)) = 0
  /\ exists h' m',
       machine.handle_command G90 (process_start, Machine_init false) = Ok (h', m')
       /\ temp_extruder (state_previous m') = 40.
Proof.
  split; [reflexivity |].
  eexists; eexists; split; reflexivity.
Qed.

(** A commanded extruder value other than 0 is taken over: the offset
    becomes the raw value minus the commanded one, and the raw value
    stays. *)
Lemma set_position_extruder_nonzero (e : Q) (h : Heap) (m : Machine) :
  ~ e == 0 ->
  exists h' m',
    machine.handle_command (G92 None None None (Some e)) (h, m) = Ok (h', m')
    /\ offset_extruder (state_current m') = fsub (extruder (state_current m)) e
    /\ extruder (state_current m') = extruder (state_current m).
Proof.
  intros NZ.
  assert (T : Qeq_bool e 0 = false).
  { destruct (Qeq_bool e 0) eqn:B; [| reflexivity].
    apply Qeq_bool_eq in B. contradiction. }
  unfold machine.handle_command, machine._set_position. simpl.
  rewrite T. simpl.
  eexists; eexists. split; [reflexivity |]. split; reflexivity.
Qed.

(** C6. The claim says that G92 sets the offset so that the new absolute
    value equals the commanded value, also when that value is 0.  On the
    code a commanded 0 is skipped: after [G1 X5 E5], [G92 X0 E0] leaves both
    offsets at 0, and the absolute X and extruder values at 5. *)
Theorem C6_set_position_to_zero_is_ignored :
  match run_machine [g1 (Some 5) None None (Some 5) None;
                     G92 (Some 0) None None (Some 0)]
                    (process_start, Machine_init false) with
  | Ok (h, m) =>
      p_x (position_abs h (state_current m)) = 5
      /\ extruder_abs (state_current m) = 5
      /\ p_x (cell h (offset_position (state_current m))) = 0
      /\ offset_extruder (state_current m) = 0
  | Raise _ => False
  end.
Proof. vm_compute. repeat split; reflexivity. Qed.

(** C10. The claim says that every new machine starts at position (0,0,0)
    whatever other machines did before.  On the code the default position
    is one object shared by all machines: once a first machine has handled
    [G1 X5], a machine created afterwards starts with current and previous
    position (5,0,0). *)
Theorem C10_new_machine_sees_earlier_moves :
  match machine.handle_command (g1 (Some 5) None None None None)
                               (process_start, Machine_init false) with
  | Ok (h, _) =>
      cell h (position (state_current (Machine_init false))) = mkPoint3D 5 0 0
      /\ cell h (position (state_previous (Machine_init false))) = mkPoint3D 5 0 0
      /\ position_abs h (state_current (Machine_init false)) = mkPoint3D 5 0 0
  | Raise _ => False
  end
  /\ cell process_start (position (state_current (Machine_init false)))
     = mkPoint3D 0 0 0.
Proof. vm_compute. repeat split; reflexivity. Qed.

(** *** Rounding *)

Lemma to_double_comp (x y : Q) : x == y -> to_double x = to_double y.
Proof.
  intros E. unfold to_double. rewrite (Qred_complete _ _ E). reflexivity.
Qed.

(** [round_half_even q] is an integer nearest to [q], the even one of two. *)
Lemma round_half_even_nearest (q : Q) :
  Qabs (q - inject_Z (round_half_even q)) <= 1 # 2
  /\ (Qabs (q - inject_Z (round_half_even q)) == 1 # 2 ->
      Z.even (round_half_even q) = true).
Proof.
  unfold round_half_even.
  pose proof (Qfloor_le q) as Lo. pose proof (Qlt_floor q) as Hi.
  set (f := Qfloor q) in *.
  assert (Hi' : q < inject_Z f + 1).
  { rewrite inject_Z_plus in Hi. exact Hi. }
  clear Hi.
  destruct (Qcompare (q - inject_Z f) (1 # 2)) eqn:C.
  - apply Qeq_alt in C.
    destruct (Z.even f) eqn:Ev.
    + split; [| intros _; exact Ev].
      rewrite C. discriminate.
    + assert (E1 : q - inject_Z (f + 1) == - (1 # 2)).
      { rewrite inject_Z_plus. change (inject_Z 1) with 1. lra. }
      split.
      * rewrite E1. discriminate.
      * intros _. rewrite Z.even_add, Ev. reflexivity.
  - apply Qlt_alt in C.
    assert (A : Qabs (q - inject_Z f) == q - inject_Z f).
    { apply Qabs_pos. lra. }
    split.
    + rewrite A. lra.
    + intros T. rewrite A in T. lra.
  - apply Qgt_alt in C.
    assert (A : Qabs (q - inject_Z (f + 1)) == - (q - inject_Z (f + 1))).
    { apply Qabs_neg. rewrite inject_Z_plus. change (inject_Z 1) with 1. lra. }
    split.
    + rewrite A, inject_Z_plus. change (inject_Z 1) with 1. lra.
    + intros T. rewrite A, inject_Z_plus in T. change (inject_Z 1) with 1 in T. lra.
Qed.

(** [round] rounds to decimal places. *)
Lemma round_rounded_to (x : Q) (n : nat) : spec.rounded_to n x (round x n).
Proof.
  unfold spec.rounded_to, round.
  set (scale := inject_Z (10 ^ Z.of_nat n)).
  assert (P : 0 < scale).
  { unfold scale. change 0 with (inject_Z 0). rewrite <- Zlt_Qlt.
    apply Z.pow_pos_nonneg; lia. }
  exists (round_half_even (x * scale)). cbn zeta.
  destruct (round_half_even_nearest (x * scale)) as [Near Even].
  set (k := inject_Z (round_half_even (x * scale))) in *.
  assert (D : Qabs (x - k / scale) == Qabs (x * scale - k) / scale).
  { setoid_replace (x - k / scale) with ((x * scale - k) * / scale)
      by (field; lra).
    rewrite Qabs_Qmult. rewrite (Qabs_pos (/ scale)); [reflexivity |].
    apply Qlt_le_weak, Qinv_lt_0_compat. exact P. }
  split; [reflexivity |]. split.
  - rewrite D. apply Qle_shift_div_l; [exact P |].
    setoid_replace (Qabs (x * scale - k) / scale * scale)
      with (Qabs (x * scale - k)) by (field; lra).
    exact Near.
  - intros T. apply Even. rewrite D in T.
    transitivity (Qabs (x * scale - k) / scale * scale); [field; lra |].
    rewrite T. field. lra.
Qed.

Lemma or_0_provided (o : option Q) : or_0 o == spec.provided_or_zero o.
Proof.
  destruct o as [v |]; unfold or_0, truthy; simpl; [| reflexivity].
  destruct (Qeq_bool v 0) eqn:E; simpl; [| reflexivity].
  apply Qeq_bool_eq in E. symmetry. exact E.
Qed.

Lemma round_of_sum (a : Q) (o : option Q) :
  spec.rounded_to 3 (to_double (a + spec.provided_or_zero o))
                  (round (fadd a (or_0 o)) 3).
Proof.
  unfold fadd. rewrite (to_double_comp (a + or_0 o) (a + spec.provided_or_zero o))
    by (rewrite or_0_provided; reflexivity).
  apply round_rounded_to.
Qed.

(** C9. A move handled in relative positioning mode puts the position at
    the old position plus the provided axis values (a missing axis counts
    as 0), each coordinate rounded to 3 decimal places; handled in absolute
    mode it sets each provided coordinate to the commanded value times the
    unit multiplier (25.4 in imperial mode, else 1) and keeps the others.
    Sums and products are those of floats, and the numbers are moderate, so
    that none of them leaves the range of the floats.  From a new machine,
    [G91; G1 X5; G1 X5] ends at absolute X = 10. *)
Theorem C9_move_updates_position :
  (forall (c : Command) (h : Heap) (m : Machine),
      isinstance_Move c = true ->
      (position (state_current m) < next_ref h)%nat ->
      spec.moderate_move c (cell h (position (state_current m))) ->
      exists h' m',
        machine.handle_command c (h, m) = Ok (h', m')
        /\ let old := cell h (position (state_current m)) in
           let new := cell h' (position (state_current m')) in
           let k := unit_multiplier (state_current m) in
           if is_rel_positioning (state_current m) then
             spec.rounded_to
               3 (to_double (p_x old + spec.provided_or_zero (move_x c)))
               (p_x new)
             /\ spec.rounded_to
                  3 (to_double (p_y old + spec.provided_or_zero (move_y c)))
                  (p_y new)
             /\ spec.rounded_to
                  3 (to_double (p_z old + spec.provided_or_zero (spec.move_z c)))
                  (p_z new)
           else
             new = mkPoint3D
                     (spec.scaled_or_kept (move_x c) k (p_x old))
                     (spec.scaled_or_kept (move_y c) k (p_y old))
                     (spec.scaled_or_kept (spec.move_z c) k (p_z old)))
  /\ (forall s : MachineState,
        unit_multiplier s = if is_imperial s then to_double 25.4 else 1)
  /\ match run_machine [G91; g1 (Some 5) None None None None;
                        g1 (Some 5) None None None None]
                       (process_start, Machine_init false) with
     | Ok (h, m) => p_x (position_abs h (state_current m)) = 10
     | Raise _ => False
     end.
Proof.
  split; [| split; [intros s; unfold unit_multiplier; destruct (is_imperial s);
                    reflexivity | vm_compute; reflexivity]].
  intros c h m Hmove Hwf _.
  assert (N1 : (position (state_current m) =? next_ref h)%nat = false)
    by (apply Nat.eqb_neq; lia).
  assert (N2 : (position (state_current m) =? S (next_ref h))%nat = false)
    by (apply Nat.eqb_neq; lia).
  assert (N3 : (next_ref h =? S (next_ref h))%nat = false)
    by (apply Nat.eqb_neq; lia).
  destruct c as [p | p | p | p | | | | | | | | | | | ]; try discriminate Hmove;
    unfold machine.handle_command, machine._handle_move; simpl;
    destruct (is_rel_positioning (state_current m)); simpl.
  all: eexists; eexists; (split; [reflexivity |]); simpl.
  all: try (rewrite ?Nat.eqb_refl, ?N3; simpl;
            repeat split; apply round_of_sum).
  all: destruct p; simpl;
    destruct (is_rel_extruder (state_current m)); simpl;
    repeat match goal with
           | |- context [match ?o with Some _ => _ | None => _ end] =>
               is_var o; destruct o; simpl
           end;
    unfold set_x, set_y, set_z, store, unit_multiplier, fmul; simpl;
    rewrite ?Nat.eqb_refl, ?N1, ?N2; simpl;
    destruct (cell h (position (state_current m))); reflexivity.
Qed.

(** C9 at a concrete input: after [G91], a new machine handling
    [G1 X0.0025 Y0.0005 Z-0.0025], the numbers being those [float] reads,
    ends at the floats of 0.003, 0.001 and -0.003. *)
Lemma C9_move_updates_position_witness :
  match float "0.0025", float "0.0005", float "-0.0025",
        machine.handle_command G91 (process_start, Machine_init false) with
  | Ok x, Ok y, Ok z, Ok (h, m) =>
      exists h' m',
        machine.handle_command (g1 (Some x) (Some y) (Some z) None None) (h, m)
        = Ok (h', m')
        /\ cell h' (position (state_current m'))
           = mkPoint3D (to_double 0.003) (to_double 0.001) (to_double (-0.003))
  | _, _, _, _ => False
  end.
Proof.
  destruct (float "0.0025") as [x |] eqn:Ex; [| vm_compute in Ex; discriminate Ex].
  destruct (float "0.0005") as [y |] eqn:Ey; [| vm_compute in Ey; discriminate Ey].
  destruct (float "-0.0025") as [z |] eqn:Ez; [| vm_compute in Ez; discriminate Ez].
  destruct (machine.handle_command G91 (process_start, Machine_init false))
    as [[h m] |] eqn:E; [| vm_compute in E; discriminate E].
  assert (Rel : is_rel_positioning (state_current m) = true)
    by (vm_compute in E; injection E as <- <-; reflexivity).
  assert (Old : cell h (position (state_current m)) = mkPoint3D 0 0 0)
    by (vm_compute in E; injection E as <- <-; reflexivity).
  assert (Wf : (position (state_current m) < next_ref h)%nat)
    by (vm_compute in E; injection E as <- <-; vm_compute; lia).
  assert (Hx : x = to_double 0.0025) by (vm_compute in Ex; injection Ex as <-; vm_compute; reflexivity).
  assert (Hy : y = to_double 0.0005) by (vm_compute in Ey; injection Ey as <-; vm_compute; reflexivity).
  assert (Hz : z = to_double (-0.0025)) by (vm_compute in Ez; injection Ez as <-; vm_compute; reflexivity).
  assert (Mod : spec.moderate_move (g1 (Some x) (Some y) (Some z) None None)
                                   (cell h (position (state_current m)))).
  { rewrite Old, Hx, Hy, Hz. repeat split; vm_compute; reflexivity. }
  destruct (proj1 C9_move_updates_position
                  (g1 (Some x) (Some y) (Some z) None None) h m eq_refl Wf Mod)
    as (h' & m' & E' & R).
  exists h', m'. split; [exact E' |].
  cbv zeta in R. rewrite Rel, Old in R.
  clear - R E' E Hx Hy Hz. subst x y z.
  vm_compute in E. injection E as <- <-.
  vm_compute in E'. injection E' as <- <-. vm_compute. reflexivity.
Defined.

(** ** The arc interpolator (C1) *)

(** Two equal distances are close for [math.isclose]. *)
Lemma isclose_same_distance (r : Q) :
  interpolation.isclose (interpolation.PyFloat r) (interpolation.PyFloat r) (1 # 100)
  = Ok true.
Proof.
  unfold interpolation.isclose; simpl.
  assert (E : Qeq_bool r r = true) by (apply Qeq_bool_iff; reflexivity).
  rewrite E. reflexivity.
Qed.

(** C1. The claim says that the interpolator returns the polyline when
    source and destination are equidistant from the pivot and raises the
    validation error otherwise.  On the code no call returns a polyline or
    raises the validation error: [radius] is bound to the [length] method
    itself, not to its result, and [math.isclose] rejects it with a
    TypeError, for every source, destination, pivot, direction and error. *)
Theorem C1_interpolate_always_raises_TypeError :
  forall (N : Numerics) (src dst pivot : LVector2d) (is_clockwise : bool)
         (max_err : Q),
    interpolation.interpolate src dst pivot is_clockwise max_err = Raise TypeError.
Proof. intros. reflexivity. Qed.

(** ** The model builder (C2, C8) *)

(** The body of [get_layer_at_z] at a Z without layer that is below the
    last deposition Z: after the priming detection it raises
    PostPrimingDescentError; else with more than one layer it raises
    LateEffectorDescentError with the layer count; else it makes the single
    layer the priming layer and creates an empty layer at the new Z. *)
Lemma get_layer_at_z_body_descent (b : model.ModelBuilder) (z : Q) :
  dict_get Qeq_bool z (model.z_to_layer b) = None ->
  Qlt_bool z (model._last_layer_z b) = true ->
  if model._is_after_post_priming_descent b then
    model.get_layer_at_z_body b z
    = Raise (PostPrimingDescentError z (model._last_layer_z b))
  else if (1 <? length (model.z_to_layer b))%nat then
    model.get_layer_at_z_body b z
    = Raise (LateEffectorDescentError z (model._last_layer_z b)
                                      (length (model.z_to_layer b)))
  else
    match dict_pop Qeq_bool (model._last_layer_z b) (model.z_to_layer b) with
    | Some (single, rest) =>
        exists b',
          model.get_layer_at_z_body b z = Ok (b', length (model.layers b))
          /\ model.priming_layer b' = Some single
          /\ model.priming_layer_z b' = Some (model._last_layer_z b)
          /\ model._is_after_post_priming_descent b' = true
          /\ model.z_to_layer b' = dict_set Qeq_bool z (length (model.layers b)) rest
          /\ nth_error (model.layers b') (length (model.layers b)) = Some Layer_init
    | None => model.get_layer_at_z_body b z = Raise KeyError
    end.
Proof.
  intros Hget Hlt. unfold model.get_layer_at_z_body. rewrite Hget, Hlt.
  destruct (model._is_after_post_priming_descent b); [reflexivity |].
  destruct (1 <? length (model.z_to_layer b))%nat; [reflexivity |].
  destruct (dict_pop Qeq_bool (model._last_layer_z b) (model.z_to_layer b))
    as [[single rest] |]; [| reflexivity].
  eexists. split; [reflexivity |]. simpl. repeat split.
  rewrite nth_error_app2 by lia. rewrite Nat.sub_diag. reflexivity.
Qed.

(** C2. The claim says that every descent after the priming layer was
    recorded raises PostPrimingDescentError, a descent back to the priming
    layer's own Z included.  On the code that descent is answered from the
    cache of [get_layer_at_z]: after layers at Z = 0.1, 0.05 and 0.2, a
    deposition move at Z = 0.1 finds no layer at 0.1, is below the last
    deposition Z 0.2, follows the priming detection, and still gets the
    priming layer back, while the function body alone would raise. *)
Theorem C2_descent_to_priming_z_does_not_raise :
  forall N : Numerics,
    match model.run_commands process_start back_to_priming_z with
    | Ok (h, b) =>
        let z := p_z (position_abs h (state_current (model.machine b))) in
        z = to_double (1 # 10)
        /\ dict_get Qeq_bool z (model.z_to_layer b) = None
        /\ Qlt_bool z (model._last_layer_z b) = true
        /\ model._is_after_post_priming_descent b = true
        /\ model.priming_layer b = Some 0%nat
        /\ model.get_layer_at_z_body b z
           = Raise (PostPrimingDescentError z (model._last_layer_z b))
        /\ match model.get_layer_at_z b z with
           | Ok (_, l) => l = 0%nat
           | Raise _ => False
           end
        /\ match model.handle_command (h, b) (extrude_x 4 4) with
           | Ok (_, b') =>
               option_map paths (nth_error (model.layers b') 0)
               = Some [[mkVec2 0 0; mkVec2 1 0]; [mkVec2 3 0; mkVec2 4 0]]
           | Raise _ => False
           end
    | Raise _ => False
    end.
Proof. intros N. vm_compute. repeat split; reflexivity. Qed.

(** C8. The claim says that a move is a deposition move as soon as Z is
    unchanged, the extruder value increases and an X or Y is provided, a
    provided 0 included.  On the code a provided 0 does not count: after
    [G1 X5 E1], the move [G1 X0 E2] keeps Z, increases the extruder value
    and provides X, and is not treated as a deposition move; the layer keeps
    its single segment and its single sample. *)
Theorem C8_move_to_zero_is_not_a_deposition :
  forall N : Numerics,
    match model.run_commands process_start [extrude_x 5 1] with
    | Ok (h1, b1) =>
        match machine.handle_command (extrude_x 0 2) (h1, model.machine b1) with
        | Ok (h, m) =>
            Qeq_bool (p_z (position_abs h (state_previous m)))
                     (p_z (position_abs h (state_current m))) = true
            /\ Qlt_bool (extruder_abs (state_previous m))
                        (extruder_abs (state_current m)) = true
            /\ move_x (extrude_x 0 2) = Some 0
            /\ model.is_layer_printing_move h m (extrude_x 0 2) = false
        | Raise _ => False
        end
    | Raise _ => False
    end
    /\ match model.run_commands process_start [extrude_x 5 1; extrude_x 0 2] with
       | Ok (_, b) =>
           map paths (model.layers b) = [[[mkVec2 0 0; mkVec2 5 0]]]
           /\ model.layer_to_temperatures b = [(0%nat, [0])]
       | Raise _ => False
       end.
Proof. intros N. vm_compute. repeat split; reflexivity. Qed.

(** The builder on the stream of the specification's example: deposition
    at Z = 0.2, 0.2, 0.4, 0.4 gives two layers of height 0.2 each. *)
Lemma two_layers_heights (N : Numerics) :
  match model.build_model process_start two_layers (2 # 5) with
  | Ok (_, m) =>
      length (model.index_to_layer m) = 2%nat
      /\ model.get_layer_height m 1 = Ok (to_double (1 # 5))
      /\ model.get_layer_height m 2 = Ok (to_double (1 # 5))
  | Raise _ => False
  end.
Proof. vm_compute. repeat split; reflexivity. Qed.

(** ** Containers *)

Section DictFacts.
  Context {K V : Type} (eqb : K -> K -> bool).

Lemma dict_set_values_in (k : K) (v : V) (d : dict K V) (x : V) :
  In x (dict_values (dict_set eqb k v d)) -> x = v \/ In x (dict_values d).
Proof.
  induction d as [| [k' v'] d IH]; simpl.
  - intros [H | []]. left. symmetry. exact H.
  - destruct (eqb k k'); simpl.
    + intros [H | H]; [left; symmetry; exact H | right; right; exact H].
    + intros [H | H]; [right; left; exact H |].
      destruct (IH H) as [E | I]; [left; exact E | right; right; exact I].
Qed.

Lemma dict_set_values_NoDup (k : K) (v : V) (d : dict K V) :
  NoDup (dict_values d) -> ~ In v (dict_values d) ->
  NoDup (dict_values (dict_set eqb k v d)).
Proof.
  induction d as [| [k' v'] d IH]; simpl; intros ND NI.
  - constructor; [intros [] | constructor].
  - inversion ND as [| ? ? NI' ND']; subst.
    destruct (eqb k k'); simpl.
    + constructor; [intros I; apply NI; right; exact I | exact ND'].
    + constructor.
      * intros I. apply dict_set_values_in in I. destruct I as [E | I].
        -- apply NI. left. exact E.
        -- apply NI'. exact I.
      * apply IH; [exact ND' | intros I; apply NI; right; exact I].
Qed.

Lemma dict_pop_values (k : K) (d d' : dict K V) (v : V) :
  dict_pop eqb k d = Some (v, d') ->
  In v (dict_values d)
  /\ (forall x, In x (dict_values d') -> In x (dict_values d))
  /\ (NoDup (dict_values d) ->
      NoDup (dict_values d') /\ ~ In v (dict_values d')).
Proof.
  revert d'. induction d as [| [k' v'] d IH]; simpl; intros d' H;
    [discriminate |].
  destruct (eqb k k').
  - injection H as H1 H2; subst. split; [left; reflexivity |]. split.
    + intros x I. right. exact I.
    + intros ND. inversion ND; subst. split; assumption.
  - destruct (dict_pop eqb k d) as [[w d''] |]; [| discriminate].
    injection H as H1 H2; subst.
    destruct (IH d'' eq_refl) as [Iv [Sub ND']].
    split; [right; exact Iv |]. split.
    + simpl. intros x [I | I]; [left; exact I | right; apply Sub; exact I].
    + intros ND. inversion ND as [| ? ? NI NDd]; subst.
      destruct (ND' NDd) as [A B]. simpl. split.
      * constructor; [intros I; apply NI; apply Sub; exact I | exact A].
      * intros [E | I]; [| exact (B I)].
        subst. apply NI. exact Iv.
Qed.
End DictFacts.

Section ListFacts.
  Context {A : Type}.

Lemma update_nth_length (j : nat) (f : A -> A) (l : list A) :
  length (update_nth j f l) = length l.
Proof.
  unfold update_nth. destruct (nth_error l j) as [x |] eqn:E; [| reflexivity].
  assert (L : (j < length l)%nat) by (apply nth_error_Some; congruence).
  rewrite length_app. cbn [length]. rewrite length_firstn, length_skipn. lia.
Qed.

Lemma update_nth_same (j : nat) (f : A -> A) (l : list A) :
  nth_error (update_nth j f l) j = option_map f (nth_error l j).
Proof.
  unfold update_nth. destruct (nth_error l j) as [x |] eqn:E; simpl.
  - assert (L : (j < length l)%nat) by (apply nth_error_Some; congruence).
    rewrite nth_error_app2; rewrite length_firstn; [| lia].
    replace (j - Nat.min j (length l))%nat with 0%nat by lia. reflexivity.
  - exact E.
Qed.

Lemma update_nth_other (j i : nat) (f : A -> A) (l : list A) :
  i <> j -> nth_error (update_nth j f l) i = nth_error l i.
Proof.
  intros NE. unfold update_nth.
  destruct (nth_error l j) as [x |] eqn:E; [| reflexivity].
  assert (L : (j < length l)%nat) by (apply nth_error_Some; congruence).
  destruct (Nat.lt_ge_cases i j) as [Lt | Ge].
  - rewrite nth_error_app1; [| rewrite length_firstn; lia].
    rewrite nth_error_firstn.
    destruct (i <? j)%nat eqn:B; [reflexivity | apply Nat.ltb_ge in B; lia].
  - rewrite nth_error_app2; rewrite length_firstn; [| lia].
    replace (Nat.min j (length l)) with j by lia.
    destruct (i - j)%nat as [| n] eqn:D; [lia |]. cbn [nth_error].
    rewrite nth_error_skipn. f_equal. lia.
Qed.

Lemma update_nth_Forall (P : A -> Prop) (j : nat) (f : A -> A) (l : list A) :
  Forall P l -> (forall x, nth_error l j = Some x -> P (f x)) ->
  Forall P (update_nth j f l).
Proof.
  intros HP Hf. apply Forall_forall. intros y Hy.
  apply In_nth_error in Hy. destruct Hy as [i Hi].
  destruct (Nat.eq_dec i j) as [-> | NE].
  - rewrite update_nth_same in Hi.
    destruct (nth_error l j) as [x |] eqn:E; [| discriminate].
    simpl in Hi. injection Hi as <-. apply Hf. reflexivity.
  - rewrite update_nth_other in Hi by exact NE.
    rewrite Forall_forall in HP. apply HP.
    apply nth_error_In with i. exact Hi.
Qed.
End ListFacts.

(** ** The builder's invariant *)

Lemma builder_inv_init : spec.builder_inv [] [] None.
Proof.
  repeat split; try constructor; simpl; try contradiction; discriminate.
Qed.

Lemma builder_inv_new_layer (z : Q) (d : dict Q nat) (ls : list Layer)
      (p : option nat) :
  spec.builder_inv d ls p ->
  spec.builder_inv (dict_set Qeq_bool z (length ls) d) (ls ++ [Layer_init]) p.
Proof.
  intros (ND & Bound & Prim & Stat).
  assert (Fresh : ~ In (length ls) (dict_values d)).
  { intros I. apply Bound in I. lia. }
  repeat split.
  - apply dict_set_values_NoDup; assumption.
  - intros l I. rewrite length_app. simpl.
    apply dict_set_values_in in I. destruct I as [-> | I]; [lia |].
    apply Bound in I. lia.
  - rewrite length_app. simpl. destruct (Prim p0 H) as [L _]. lia.
  - intros I. destruct (Prim p0 H) as [L NI].
    apply dict_set_values_in in I. destruct I as [-> | I]; [lia | exact (NI I)].
  - apply Forall_app. split; [exact Stat |].
    constructor; [repeat split | constructor].
Qed.

Lemma builder_inv_pop (k : Q) (d rest : dict Q nat) (ls : list Layer)
      (p : option nat) (v : nat) :
  spec.builder_inv d ls p ->
  dict_pop Qeq_bool k d = Some (v, rest) ->
  spec.builder_inv rest ls (Some v).
Proof.
  intros (ND & Bound & Prim & Stat) Pop.
  destruct (dict_pop_values Qeq_bool k d rest v Pop) as (Iv & Sub & NDr).
  destruct (NDr ND) as [NDrest NI].
  repeat split.
  - exact NDrest.
  - intros l I. apply Bound. apply Sub. exact I.
  - injection H as <-. apply Bound. exact Iv.
  - injection H as <-. exact NI.
  - exact Stat.
Qed.

Lemma builder_inv_update_paths (d : dict Q nat) (ls : list Layer)
      (p : option nat) (l : nat) (layer : Layer) (ps : list Path) :
  spec.builder_inv d ls p ->
  nth_error ls l = Some layer ->
  spec.builder_inv d (update_nth l (fun _ => with_paths layer ps) ls) p.
Proof.
  intros (ND & Bound & Prim & Stat) E.
  repeat split.
  - exact ND.
  - intros l' I. rewrite update_nth_length. apply Bound. exact I.
  - rewrite update_nth_length. destruct (Prim p0 H) as [L _]. exact L.
  - destruct (Prim p0 H) as [_ NI]. exact NI.
  - apply update_nth_Forall; [exact Stat |].
    intros x _.
    rewrite Forall_forall in Stat. apply (Stat layer).
    apply nth_error_In with l. exact E.
Qed.

Lemma add_segment_to_layer_paths (layer layer' : Layer) (s d : LVector2d) :
  model.add_segment_to_layer layer s d = Ok layer' ->
  exists ps, layer' = with_paths layer ps.
Proof.
  unfold model.add_segment_to_layer.
  destruct (paths layer) as [| p0 ps0].
  - intros H. injection H as <-. eexists. reflexivity.
  - intros H.
    apply bind_Ok_inv in H. destruct H as (last_path & _ & H).
    apply bind_Ok_inv in H. destruct H as (last_point & _ & H).
    destruct (negb (vec2_eqb s last_point)).
    + injection H as <-. eexists. reflexivity.
    + apply bind_Ok_inv in H. destruct H as (ps & _ & H).
      injection H as <-. eexists. reflexivity.
Qed.

Section BuilderInvariant.
  Context {N : Numerics}.

Local Abbreviation inv b :=
  (spec.builder_inv (model.z_to_layer b) (model.layers b) (model.priming_layer b)).

Lemma get_layer_at_z_body_inv (b b' : model.ModelBuilder) (z : Q) (l : nat) :
  model.get_layer_at_z_body b z = Ok (b', l) -> inv b -> inv b'.
Proof.
  unfold model.get_layer_at_z_body.
  destruct (dict_get Qeq_bool z (model.z_to_layer b)) as [t |].
  - intros H I. injection H as <- _. exact I.
  - intros H I. apply bind_Ok_inv in H. destruct H as (b1 & H1 & H).
    injection H as <- _. simpl.
    apply builder_inv_new_layer.
    destruct (Qlt_bool z (model._last_layer_z b)).
    + destruct (model._is_after_post_priming_descent b); [discriminate |].
      destruct (1 <? length (model.z_to_layer b))%nat; [discriminate |].
      destruct (dict_pop Qeq_bool (model._last_layer_z b) (model.z_to_layer b))
        as [[popped rest] |] eqn:Pop; [| discriminate].
      injection H1 as <-. simpl.
      apply (builder_inv_pop _ _ _ _ _ _ I Pop).
    + injection H1 as <-. exact I.
Qed.

Lemma get_layer_at_z_inv (b b' : model.ModelBuilder) (z : Q) (l : nat) :
  model.get_layer_at_z b z = Ok (b', l) -> inv b -> inv b'.
Proof.
  unfold model.get_layer_at_z.
  destruct (dict_pop Qeq_bool z (model.lru_cache b)) as [[cached others] |].
  - intros H I. injection H as <- _. exact I.
  - intros H I. apply bind_Ok_inv in H. destruct H as ([b1 t] & H1 & H).
    injection H as <- _. simpl.
    apply (get_layer_at_z_body_inv _ _ _ _ H1 I).
Qed.

Lemma add_segment_inv (b b' : model.ModelBuilder) (l : nat) (s d : LVector2d) :
  model.add_segment b l s d = Ok b' -> inv b -> inv b'.
Proof.
  unfold model.add_segment, model.deref. intros H I.
  destruct (nth_error (model.layers b) l) as [layer |] eqn:E; [| discriminate].
  simpl in H. apply bind_Ok_inv in H. destruct H as (layer' & H1 & H).
  injection H as <-. simpl.
  destruct (add_segment_to_layer_paths _ _ _ _ H1) as [ps ->].
  apply builder_inv_update_paths; assumption.
Qed.

Lemma model_handle_move_inv (h : Heap) (b b' : model.ModelBuilder) (c : Command) :
  model._handle_move h b c = Ok b' -> inv b -> inv b'.
Proof.
  unfold model._handle_move. intros H I.
  destruct (negb (isinstance_Move c)); [discriminate |].
  destruct (model.is_layer_printing_move h (model.machine b) c);
    [| injection H as <-; exact I].
  apply bind_Ok_inv in H. destruct H as ([b1 t] & H1 & H).
  apply get_layer_at_z_inv in H1; [| exact I].
  apply bind_Ok_inv in H. destruct H as (b2 & H2 & H).
  apply bind_Ok_inv in H. destruct H as (temps & _ & H).
  apply bind_Ok_inv in H. destruct H as (feeds & _ & H).
  injection H as <-. simpl.
  assert (I2 : inv b2).
  { destruct c; try (injection H2 as <-; exact H1).
    - apply (add_segment_inv _ _ _ _ _ H2). exact H1.
    - apply (add_segment_inv _ _ _ _ _ H2). exact H1.
    - (* the interpolator raises on every arc *)
      destruct (am_i p), (am_j p); discriminate.
    - destruct (am_i p), (am_j p); discriminate. }
  exact I2.
Qed.

Lemma model_handle_command_inv (w w' : Heap * model.ModelBuilder) (c : Command) :
  model.handle_command w c = Ok w' -> inv (snd w) -> inv (snd w').
Proof.
  destruct w as [h b]. unfold model.handle_command. intros H I.
  apply bind_Ok_inv in H. destruct H as ([h1 m1] & _ & H).
  destruct (isinstance_Move c).
  - apply bind_Ok_inv in H. destruct H as (b1 & H1 & H).
    injection H as <-. simpl.
    apply (model_handle_move_inv _ _ _ _ H1). exact I.
  - injection H as <-. exact I.
Qed.

Lemma foldM_handle_command_inv (gcode : list Command)
      (w w' : Heap * model.ModelBuilder) :
  foldM model.handle_command gcode w = Ok w' -> inv (snd w) -> inv (snd w').
Proof.
  revert w. induction gcode as [| c rest IH]; intros w H I.
  - injection H as <-. exact I.
  - simpl in H. apply bind_Ok_inv in H. destruct H as (w1 & H1 & H).
    apply (IH w1 H). apply (model_handle_command_inv _ _ _ H1 I).
Qed.

Lemma run_commands_inv (h h' : Heap) (gcode : list Command)
      (b : model.ModelBuilder) :
  model.run_commands h gcode = Ok (h', b) -> inv b.
Proof.
  intros H.
  apply (foldM_handle_command_inv gcode (h, model.ModelBuilder_init) (h', b) H).
  exact builder_inv_init.
Qed.
End BuilderInvariant.

(** ** Endpoint padding *)

Section IndexFacts.
  Context {A : Type}.

Lemma index_of_nonneg (l : list A) (k : nat) :
  (k < length l)%nat -> index_of l (Z.of_nat k) = Some k.
Proof.
  intros L. unfold index_of.
  destruct (Z.of_nat k <? 0)%Z eqn:B; [apply Z.ltb_lt in B; lia |].
  assert (B1 : (0 <=? Z.of_nat k)%Z = true) by (apply Z.leb_le; lia).
  assert (B2 : (Z.of_nat k <? Z.of_nat (length l))%Z = true)
    by (apply Z.ltb_lt; lia).
  rewrite B1, B2. simpl. rewrite Nat2Z.id. reflexivity.
Qed.

Lemma index_of_from_end (l : list A) (k : nat) :
  (0 < k <= length l)%nat ->
  index_of l (- Z.of_nat k) = Some (length l - k)%nat.
Proof.
  intros L. unfold index_of.
  assert (B : (- Z.of_nat k <? 0)%Z = true) by (apply Z.ltb_lt; lia).
  assert (B1 : (0 <=? - Z.of_nat k + Z.of_nat (length l))%Z = true)
    by (apply Z.leb_le; lia).
  assert (B2 : (- Z.of_nat k + Z.of_nat (length l) <? Z.of_nat (length l))%Z
               = true) by (apply Z.ltb_lt; lia).
  rewrite B, B1, B2. simpl. f_equal. lia.
Qed.

Lemma getitem_last (l : list A) (c : A) : getitem (l ++ [c]) (-1) = Ok c.
Proof.
  unfold getitem. change (-1)%Z with (- Z.of_nat 1)%Z.
  rewrite (index_of_from_end (l ++ [c]) 1) by (rewrite length_app; simpl; lia).
  rewrite length_app. simpl.
  replace (length l + 1 - 1)%nat with (length l + 0)%nat by lia.
  rewrite nth_error_app2 by lia.
  replace (length l + 0 - length l)%nat with 0%nat by lia. reflexivity.
Qed.

Lemma getitem_second_last (l : list A) (d c : A) :
  getitem (l ++ [d; c]) (-2) = Ok d.
Proof.
  unfold getitem. change (-2)%Z with (- Z.of_nat 2)%Z.
  rewrite (index_of_from_end (l ++ [d; c]) 2) by (rewrite length_app; simpl; lia).
  rewrite length_app. simpl.
  replace (length l + 2 - 2)%nat with (length l + 0)%nat by lia.
  rewrite nth_error_app2 by lia.
  replace (length l + 0 - length l)%nat with 0%nat by lia. reflexivity.
Qed.

Lemma setitem_last (l : list A) (c x : A) :
  setitem (l ++ [c]) (-1) x = Ok (l ++ [x]).
Proof.
  unfold setitem. change (-1)%Z with (- Z.of_nat 1)%Z.
  rewrite (index_of_from_end (l ++ [c]) 1) by (rewrite length_app; simpl; lia).
  replace (length (l ++ [c]) - 1)%nat with (length l)
    by (rewrite length_app; simpl; lia).
  rewrite firstn_app, firstn_all, Nat.sub_diag. cbn [firstn].
  rewrite app_nil_r.
  rewrite skipn_all2 by (rewrite length_app; simpl; lia).
  reflexivity.
Qed.

Lemma getitem_0 (a : A) (l : list A) : getitem (a :: l) 0 = Ok a.
Proof.
  unfold getitem. change 0%Z with (Z.of_nat 0).
  rewrite index_of_nonneg by (simpl; lia). reflexivity.
Qed.

Lemma getitem_1 (a b : A) (l : list A) : getitem (a :: b :: l) 1 = Ok b.
Proof.
  unfold getitem. change 1%Z with (Z.of_nat 1).
  rewrite index_of_nonneg by (simpl; lia). reflexivity.
Qed.

Lemma setitem_0 (a x : A) (l : list A) : setitem (a :: l) 0 x = Ok (x :: l).
Proof.
  unfold setitem. change 0%Z with (Z.of_nat 0).
  rewrite index_of_nonneg by (simpl; lia). reflexivity.
Qed.
End IndexFacts.

Section Padding.
  Context {N : Numerics}.

Lemma add_padding_padded (p p' : Path) (len : Q) :
  add_padding p len = Ok p' -> spec.padded len p p'.
Proof.
  destruct p as [| a [| b rest]]; [discriminate | discriminate |].
  intros H.
  destruct (@exists_last _ (b :: rest)) as (mid & c & E); [discriminate |].
  unfold add_padding in H.
  rewrite getitem_0, getitem_1 in H. cbn [bind] in H.
  rewrite setitem_0 in H. cbn [bind] in H.
  rewrite E in H.
  exists a, mid, c. split; [rewrite E; reflexivity |].
  assert (Hb : hd c mid = b).
  { destruct mid as [| m0 mid']; simpl in E; injection E as -> _;
      reflexivity. }
  cbn zeta. rewrite Hb.
  set (a' := shifted a b len) in *.
  change (a' :: mid ++ [c]) with ((a' :: mid) ++ [c]) in H.
  rewrite getitem_last in H. cbn [bind] in H.
  assert (Hd : getitem ((a' :: mid) ++ [c]) (-2) = Ok (last mid a')).
  { destruct (@exists_last _ (a' :: mid)) as (pre & d & E'); [discriminate |].
    rewrite E'. rewrite <- app_assoc. simpl.
    rewrite getitem_second_last. f_equal.
    destruct mid as [| m0 mid'].
    - destruct pre as [| ? pre']; simpl in E'.
      + injection E' as ->. reflexivity.
      + injection E' as _ E'. destruct pre'; discriminate E'.
    - assert (L : last (a' :: m0 :: mid') a' = d)
        by (rewrite E'; apply last_last).
      simpl in L. simpl. symmetry. exact L. }
  rewrite Hd in H. cbn [bind] in H.
  rewrite setitem_last in H. injection H as <-. reflexivity.
Qed.

Lemma mapM_add_padding_padded (len : Q) (ps ps' : list Path) :
  mapM (fun p => add_padding p len) ps = Ok ps' ->
  Forall2 (spec.padded len) ps ps'.
Proof.
  revert ps'. induction ps as [| p ps IH]; intros ps' H.
  - injection H as <-. constructor.
  - simpl in H. apply bind_Ok_inv in H. destruct H as (p' & Hp & H).
    apply bind_Ok_inv in H. destruct H as (rest' & Hr & H).
    injection H as <-. constructor.
    + apply add_padding_padded. exact Hp.
    + apply IH. exact Hr.
Qed.

(** What [shifted] does to an end of a path. *)
Lemma shifted_end_padded (len : Q) (p q : LVector2d) :
  spec.normalized_keeps_zero -> 0 <= len ->
  spec.end_padded len p q (shifted p q len).
Proof.
  intros Zero Hlen. unfold spec.end_padded, shifted. split.
  - intros [Ex Ey].
    destruct (Zero (vec2_sub p q)) as [Nx Ny]; cbn in *.
    + rewrite Ex. ring.
    + rewrite Ey. ring.
    + split; cbn; [rewrite Nx | rewrite Ny]; ring.
  - intros (Unit & k & Hk & Ux & Uy).
    set (u := vec_normalized (vec2_sub p q)) in *.
    split; cbn.
    + transitivity (len * len * (v_x u * v_x u + v_y u * v_y u)); [ring |].
      rewrite Unit. ring.
    + exists (len * k). split; [| split].
      * apply Qmult_le_0_compat; [exact Hlen | apply Qlt_le_weak; exact Hk].
      * rewrite Ux. cbn. ring.
      * rewrite Uy. cbn. ring.
Qed.

Lemma padded_ends_padded (len : Q) (p p' : Path) :
  spec.normalized_keeps_zero -> 0 <= len ->
  spec.padded len p p' -> spec.ends_padded len p p'.
Proof.
  intros Zero Hlen (a & mid & c & -> & E). cbn zeta in E.
  exists a, mid, c, (shifted a (hd c mid) len),
         (shifted c (last mid (shifted a (hd c mid) len)) len).
  split; [reflexivity |]. split; [exact E |].
  split; apply shifted_end_padded; assumption.
Qed.

Lemma Forall2_padded_ends_padded (len : Q) (ps ps' : list Path) :
  spec.normalized_keeps_zero -> 0 <= len ->
  Forall2 (spec.padded len) ps ps' -> Forall2 (spec.ends_padded len) ps ps'.
Proof.
  intros Zero Hlen F. induction F as [| p p' ps ps' H _ IH]; constructor.
  - apply padded_ends_padded; assumption.
  - exact IH.
Qed.
End Padding.

(** ** Statistics *)

Lemma Qlt_bool_true (a b : Q) : Qlt_bool a b = true -> a < b.
Proof.
  unfold Qlt_bool. intros H. apply negb_true_iff in H.
  apply Qnot_le_lt. intros L. apply Qle_bool_iff in L. congruence.
Qed.

Lemma Qlt_bool_false (a b : Q) : Qlt_bool a b = false -> b <= a.
Proof.
  unfold Qlt_bool. intros H. apply negb_false_iff in H.
  apply Qle_bool_iff. exact H.
Qed.

Lemma fold_min_spec (rest : list Q) (x : Q) :
  let m := fold_left (fun m y => if Qlt_bool y m then y else m) rest x in
  In m (x :: rest) /\ forall y, In y (x :: rest) -> m <= y.
Proof.
  revert x. induction rest as [| y rest IH]; intros x; simpl.
  - split; [left; reflexivity |]. intros y [<- | []]. apply Qle_refl.
  - destruct (Qlt_bool y x) eqn:B.
    + destruct (IH y) as [I L]. simpl in I, L. split.
      * right. exact I.
      * intros z [<- | Hz].
        -- apply Qle_trans with y; [apply L; left; reflexivity |].
           apply Qlt_le_weak. apply Qlt_bool_true. exact B.
        -- apply L. exact Hz.
    + destruct (IH x) as [I L]. simpl in I, L. split.
      * destruct I as [I | I]; [left; exact I | right; right; exact I].
      * intros z [<- | [<- | Hz]].
        -- apply L. left. reflexivity.
        -- apply Qle_trans with x; [apply L; left; reflexivity |].
           apply Qlt_bool_false. exact B.
        -- apply L. right. exact Hz.
Qed.

Lemma fold_max_spec (rest : list Q) (x : Q) :
  let m := fold_left (fun m y => if Qlt_bool m y then y else m) rest x in
  In m (x :: rest) /\ forall y, In y (x :: rest) -> y <= m.
Proof.
  revert x. induction rest as [| y rest IH]; intros x; simpl.
  - split; [left; reflexivity |]. intros y [<- | []]. apply Qle_refl.
  - destruct (Qlt_bool x y) eqn:B.
    + destruct (IH y) as [I L]. simpl in I, L. split.
      * right. exact I.
      * intros z [<- | Hz].
        -- apply Qle_trans with y; [| apply L; left; reflexivity].
           apply Qlt_le_weak. apply Qlt_bool_true. exact B.
        -- apply L. exact Hz.
    + destruct (IH x) as [I L]. simpl in I, L. split.
      * destruct I as [I | I]; [left; exact I | right; right; exact I].
      * intros z [<- | [<- | Hz]].
        -- apply L. left. reflexivity.
        -- apply Qle_trans with x; [| apply L; left; reflexivity].
           apply Qlt_bool_false. exact B.
        -- apply L. right. exact Hz.
Qed.

Section Statistics.
  Context {N : Numerics}.

Lemma py_min_is_min (xs : list Q) (m : Q) :
  model.py_min xs = Ok m -> spec.is_min xs (Some m).
Proof.
  destruct xs as [| x rest]; [discriminate |]. intros H. injection H as <-.
  destruct (fold_min_spec rest x) as [I L].
  eexists. split; [reflexivity |]. split; assumption.
Qed.

Lemma py_max_is_max (xs : list Q) (m : Q) :
  model.py_max xs = Ok m -> spec.is_max xs (Some m).
Proof.
  destruct xs as [| x rest]; [discriminate |]. intros H. injection H as <-.
  destruct (fold_max_spec rest x) as [I L].
  eexists. split; [reflexivity |]. split; assumption.
Qed.

Lemma mean_is_mean (xs : list Q) (a : Q) :
  model.mean xs = Ok a -> spec.is_mean xs (Some a).
Proof.
  destruct xs as [| x rest]; [discriminate |]. intros H. injection H as <-.
  eexists. split; [reflexivity |]. split; [discriminate | reflexivity].
Qed.

(** *** The two loops of [finish] *)

Lemma pad_loop (nozzle_diam : Q) (ids : list nat) :
  forall ls ls' : list Layer,
    NoDup ids ->
    foldM (model.pad_layer nozzle_diam) ids ls = Ok ls' ->
    (forall l, ~ In l ids -> nth_error ls' l = nth_error ls l)
    /\ (forall l, In l ids ->
          exists x ps',
            nth_error ls l = Some x
            /\ Forall2 (spec.padded (nozzle_diam / 2)) (paths x) ps'
            /\ nth_error ls' l = Some (with_paths x ps')).
Proof.
  induction ids as [| l0 ids IH]; intros ls ls' ND H.
  - injection H as <-. split; [reflexivity | intros l []].
  - simpl in H. apply bind_Ok_inv in H. destruct H as (ls1 & H1 & H).
    inversion ND as [| ? ? NI ND']; subst.
    destruct (IH ls1 ls' ND' H) as [Other Padded].
    unfold model.pad_layer, model.deref in H1.
    destruct (nth_error ls l0) as [x0 |] eqn:E0; [| discriminate].
    simpl in H1. apply bind_Ok_inv in H1. destruct H1 as (ps0 & Hp & H1).
    injection H1 as <-.
    split.
    + intros l NIl. rewrite Other by (intros I; apply NIl; right; exact I).
      apply update_nth_other. intros ->. apply NIl. left. reflexivity.
    + intros l [<- | I].
      * exists x0, ps0. split; [exact E0 |]. split.
        -- apply mapM_add_padding_padded. exact Hp.
        -- rewrite Other by exact NI. rewrite update_nth_same, E0. reflexivity.
      * destruct (Padded l I) as (x & ps' & Ex & F & E').
        exists x, ps'. split; [| split; assumption].
        rewrite <- Ex. symmetry. apply update_nth_other.
        intros ->. exact (NI I).
Qed.

Lemma set_statistics_spec (b : model.ModelBuilder) (ls ls' : list Layer) (l0 : nat) :
  model.set_statistics b ls l0 = Ok ls' ->
  exists x0 x0',
    nth_error ls l0 = Some x0
    /\ ls' = update_nth l0 (fun _ => x0') ls
    /\ paths x0' = paths x0
    /\ spec.statistics_of b l0 x0'.
Proof.
  unfold model.set_statistics, model.deref, dict_item. intros H.
  destruct (nth_error ls l0) as [x0 |] eqn:E0; [| discriminate].
  simpl in H.
  destruct (dict_get Nat.eqb l0 (model.layer_to_temperatures b))
    as [temps |] eqn:ET; [| discriminate].
  simpl in H.
  apply bind_Ok_inv in H. destruct H as (tmin & Htmin & H).
  apply bind_Ok_inv in H. destruct H as (tmax & Htmax & H).
  apply bind_Ok_inv in H. destruct H as (tavg & Htavg & H).
  destruct (dict_get Nat.eqb l0 (model.layer_to_feedrates b))
    as [feeds |] eqn:EF; [| discriminate].
  simpl in H.
  apply bind_Ok_inv in H. destruct H as (fmin & Hfmin & H).
  apply bind_Ok_inv in H. destruct H as (fmax & Hfmax & H).
  apply bind_Ok_inv in H. destruct H as (favg & Hfavg & H).
  injection H as <-.
  exists x0.
  exists {| paths := paths x0;
            temperature_min := Some tmin; temperature_max := Some tmax;
            temperature_avg := Some tavg; feedrate_min := Some fmin;
            feedrate_max := Some fmax; feedrate_avg := Some favg |}.
  split; [reflexivity |]. split.
  - unfold update_nth. rewrite E0. reflexivity.
  - split; [reflexivity |].
    exists temps, feeds. simpl.
    repeat split;
      auto using py_min_is_min, py_max_is_max, mean_is_mean.
Qed.

Lemma statistics_loop (b : model.ModelBuilder) (ids : list nat) :
  forall ls ls' : list Layer,
    foldM (model.set_statistics b) ids ls = Ok ls' ->
    (forall l, option_map paths (nth_error ls' l) = option_map paths (nth_error ls l))
    /\ (forall l, ~ In l ids -> nth_error ls' l = nth_error ls l)
    /\ (forall l, In l ids ->
          exists x, nth_error ls' l = Some x /\ spec.statistics_of b l x).
Proof.
  induction ids as [| l0 ids IH]; intros ls ls' H.
  - injection H as <-. repeat split; try reflexivity. intros l [].
  - simpl in H. apply bind_Ok_inv in H. destruct H as (ls1 & H1 & H).
    destruct (IH ls1 ls' H) as (Paths & Other & Stats).
    destruct (set_statistics_spec _ _ _ _ H1) as (x0 & x0' & E0 & -> & P0 & S0).
    split; [| split].
    + intros l. rewrite Paths.
      destruct (Nat.eq_dec l l0) as [-> | NE].
      * rewrite update_nth_same, E0. simpl. rewrite P0. reflexivity.
      * rewrite update_nth_other by exact NE. reflexivity.
    + intros l NIl. rewrite Other by (intros I; apply NIl; right; exact I).
      apply update_nth_other. intros ->. apply NIl. left. reflexivity.
    + intros l Il.
      destruct (in_dec Nat.eq_dec l ids) as [I | NI].
      * apply Stats. exact I.
      * destruct Il as [<- | I]; [| contradiction].
        exists x0'. split; [| exact S0].
        rewrite Other by exact NI. rewrite update_nth_same, E0. reflexivity.
Qed.
End Statistics.

(** ** The finished model (C3, C4) *)

Lemma dict_set_keys_in {K V : Type} (eqb : K -> K -> bool) (k : K) (v : V)
      (d : dict K V) (x : K) :
  In x (map fst (dict_set eqb k v d)) -> x = k \/ In x (map fst d).
Proof.
  induction d as [| [k' v'] d IH]; simpl.
  - intros [H | []]. left. symmetry. exact H.
  - destruct (eqb k k'); simpl.
    + intros H. right. exact H.
    + intros [H | H]; [right; left; exact H |].
      destruct (IH H) as [E | I]; [left; exact E | right; right; exact I].
Qed.

Lemma layer_to_z_keys (items : dict Q nat) :
  forall (acc : dict nat Q) (l : nat),
    In l (map fst (fold_left (fun d item => dict_set Nat.eqb (snd item) (fst item) d)
                             items acc)) ->
    In l (map fst acc) \/ In l (dict_values items).
Proof.
  induction items as [| [z l0] items IH]; intros acc l H; simpl in *.
  - left. exact H.
  - destruct (IH _ _ H) as [I | I].
    + apply dict_set_keys_in in I. destruct I as [-> | I].
      * right. left. reflexivity.
      * left. exact I.
    + right. right. exact I.
Qed.

Lemma insert_by_z_in (item x : nat * Q) (sorted : list (nat * Q)) :
  In x (model.insert_by_z item sorted) -> x = item \/ In x sorted.
Proof.
  induction sorted as [| head rest IH]; cbn [model.insert_by_z].
  - simpl. intros [H | []]. left. symmetry. exact H.
  - match goal with |- context [if ?c then _ else _] => destruct c end; simpl.
    + intros [H | H]; [left; symmetry; exact H | right; exact H].
    + intros [H | H]; [right; left; exact H |].
      destruct (IH H) as [E | I]; [left; exact E | right; right; exact I].
Qed.

Lemma sorted_by_z_in (items : list (nat * Q)) :
  forall (acc : list (nat * Q)) (x : nat * Q),
    In x (fold_left (fun acc item => model.insert_by_z item acc) items acc) ->
    In x acc \/ In x items.
Proof.
  induction items as [| item items IH]; intros acc x H; simpl in *.
  - left. exact H.
  - destruct (IH _ _ H) as [I | I].
    + apply insert_by_z_in in I. destruct I as [-> | I].
      * right. left. reflexivity.
      * left. exact I.
    + right. right. exact I.
Qed.

(** A layer the model indexes is a layer of the builder's [z_to_layer]. *)
Lemma index_to_layer_in_values (z_to_layer : dict Q nat) (nozzle_diam : Q)
      (pl : option nat) (pz : option Q) (objects : list Layer) (index l : nat) :
  In (index, l)
     (model.index_to_layer
        (model.Model_init
           (fold_left (fun d item => dict_set Nat.eqb (snd item) (fst item) d)
                      z_to_layer [])
           nozzle_diam pl pz objects)) ->
  In l (dict_values z_to_layer).
Proof.
  simpl. intros H. apply in_combine_r in H.
  apply in_map_iff in H. destruct H as ([l' z] & E & H). simpl in E. subst l'.
  unfold model.sorted_by_z in H. apply sorted_by_z_in in H.
  destruct H as [[] | H].
  assert (K : In l (map fst (fold_left
                 (fun d item => dict_set Nat.eqb (snd item) (fst item) d)
                 z_to_layer []))).
  { apply in_map_iff. exists (l, z). split; [reflexivity | exact H]. }
  apply layer_to_z_keys in K. destruct K as [[] | K]. exact K.
Qed.

Section Finish.
  Context {N : Numerics}.

(** What [finish] does to the store of layers. *)
Lemma finish_layers (b : model.ModelBuilder) (nozzle_diam : Q) (m : model.Model) :
  spec.builder_inv (model.z_to_layer b) (model.layers b) (model.priming_layer b) ->
  model.finish b nozzle_diam = Ok m ->
  model._priming_layer m = model.priming_layer b
  /\ (forall index l, In (index, l) (model.index_to_layer m) ->
        In l (dict_values (model.z_to_layer b)))
  /\ (forall l, In l (dict_values (model.z_to_layer b)) ->
        exists before after,
          nth_error (model.layers b) l = Some before
          /\ nth_error (model.layer_objects m) l = Some after
          /\ Forall2 (spec.padded (nozzle_diam / 2)) (paths before) (paths after)
          /\ spec.statistics_of b l after)
  /\ (forall l, ~ In l (dict_values (model.z_to_layer b)) ->
        nth_error (model.layer_objects m) l = nth_error (model.layers b) l).
Proof.
  intros (ND & Bound & Prim & Stat) H. unfold model.finish in H.
  apply bind_Ok_inv in H. destruct H as (ls1 & H1 & H).
  apply bind_Ok_inv in H. destruct H as (ls2 & H2 & H).
  injection H as <-.
  destruct (pad_loop _ _ _ _ ND H1) as [Other1 Padded].
  destruct (statistics_loop _ _ _ _ H2) as (Paths & Other2 & Stats).
  split; [reflexivity |]. split; [| split].
  - intros index l I. apply (index_to_layer_in_values _ _ _ _ _ _ _ I).
  - intros l I.
    destruct (Padded l I) as (x & ps' & Ex & F & E1).
    destruct (Stats l I) as (y & Ey & Sy).
    exists x, y. split; [exact Ex |]. split; [exact Ey |]. split; [| exact Sy].
    specialize (Paths l). simpl in Ey. rewrite Ey, E1 in Paths.
    simpl in Paths. injection Paths as ->. exact F.
  - intros l NI. simpl. rewrite Other2, Other1 by exact NI. reflexivity.
Qed.
End Finish.



(** The rational [normalized] returns the zero vector for the zero
    vector. *)
Lemma rational_normalized_keeps_zero :
  spec.normalized_keeps_zero (N := rational_numerics.numerics).
Proof.
  intros [x y] Hx Hy. cbn in Hx, Hy.
  cbn [vec_normalized rational_numerics.numerics].
  unfold rational_numerics.normalized.
  assert (L : rational_numerics.length (mkVec2 x y) = 0).
  { unfold rational_numerics.length, rational_numerics.Qsqrt. cbn [v_x v_y].
    assert (F : Qfloor ((x * x + y * y) * inject_Z (10 ^ 24)) = 0%Z).
    { rewrite (Qfloor_comp _ 0); [reflexivity |]. rewrite Hx, Hy. ring. }
    rewrite F. reflexivity. }
  rewrite L. split; reflexivity.
Qed.

(** At the first point of the path (1,0), (2,0), (2,0) the rational
    [normalized] returns the unit vector: it points from (2,0) to (1,0). *)
Lemma rational_normalized_unit_example :
  spec.unit_vector
    (vec2_sub (mkVec2 1 0) (mkVec2 2 0))
    (vec_normalized (Numerics := rational_numerics.numerics)
                    (vec2_sub (mkVec2 1 0) (mkVec2 2 0))).
Proof.
  split; [vm_compute; reflexivity |].
  exists 1. repeat split; vm_compute; reflexivity.
Qed.





(** The average feedrate the statistics loop stores is the mean of the
    temperatures: with temperature 200 and feedrate 40 the layer gets a
    feedrate average of 200. *)
Lemma feedrate_avg_is_mean_of_temperatures :
  match model.build_model (N := rational_numerics.numerics) process_start
                          [M104 200 None None; extrude_x 1 1] (2 # 5) with
  | Ok (_, m) =>
      option_map feedrate_avg (nth_error (model.layer_objects m) 0) = Some (Some 200)
      /\ option_map feedrate_min (nth_error (model.layer_objects m) 0) = Some (Some 40)
  | Raise _ => False
  end.
Proof. vm_compute. repeat split; reflexivity. Qed.

(** * Further properties of the code *)

(** ** [CommandParser]: grouping, parameters, errors *)

Lemma group_loop_spec (tokens : list GcodeToken) :
  forall (groups : list (list GcodeToken)) (current : list GcodeToken),
    Forall spec_commands.is_group groups ->
    (current = [] \/ spec_commands.is_group (rev current)) ->
    match group_loop tokens groups current with
    | Ok gs =>
        concat gs = concat (rev groups) ++ rev current ++ tokens
        /\ Forall spec_commands.is_group gs
    | Raise e =>
        e = CommandTokenError
        /\ ((current = [] /\ exists t rest, tokens = t :: rest
                                            /\ spec_commands.is_param_token t)
            \/ Exists spec_commands.is_unrecognized_token tokens)
    end.
Proof.
  induction tokens as [| field rest IH]; intros groups current Hg Hc.
  - cbn [group_loop]. rewrite app_nil_r.
    destruct current as [| c0 cs]; cbn [push_group].
    + simpl. rewrite app_nil_r. split; [reflexivity |]. apply Forall_rev. exact Hg.
    + change (rev (rev (c0 :: cs) :: groups))
        with (rev groups ++ [rev (c0 :: cs)]).
      split.
      * rewrite concat_app. simpl concat at 2. rewrite app_nil_r. reflexivity.
      * apply Forall_app. split; [apply Forall_rev; exact Hg |].
        constructor; [| constructor].
        destruct Hc as [Hc | Hc]; [discriminate | exact Hc].
  - cbn [group_loop].
    destruct (letter_in (fst field) LETTERS_COMMAND) eqn:Ec.
    + (* a command letter starts a new group *)
      assert (Hg' : Forall spec_commands.is_group (push_group groups current)).
      { destruct current as [| c0 cs]; simpl; [exact Hg |].
        constructor; [| exact Hg].
        destruct Hc as [Hc | Hc]; [discriminate | exact Hc]. }
      assert (Hc' : [field] = [] \/ spec_commands.is_group (rev [field])).
      { right. exists field, []. repeat split; [exact Ec | constructor]. }
      specialize (IH (push_group groups current) [field] Hg' Hc').
      destruct (group_loop rest (push_group groups current) [field]) as [gs | e].
      * destruct IH as [E F]. split; [| exact F]. rewrite E.
        destruct current as [| c0 cs]; simpl; [reflexivity |].
        rewrite concat_app. simpl. rewrite app_nil_r, <- !app_assoc. reflexivity.
      * destruct IH as [E [[D _] | X]]; [discriminate D |].
        split; [exact E |]. right. apply Exists_cons_tl. exact X.
    + destruct (letter_in (fst field) LETTERS_PARAM) eqn:Ep.
      * destruct current as [| c0 cs].
        -- split; [reflexivity |]. left. split; [reflexivity |].
           exists field, rest. split; [reflexivity |]. split; assumption.
        -- assert (Hc' : field :: c0 :: cs = []
                         \/ spec_commands.is_group (rev (field :: c0 :: cs))).
           { right. destruct Hc as [Hc | (c & ps & E & Cc & Ps)]; [discriminate |].
             exists c, (ps ++ [field]). split; [| split].
             - change (rev (field :: c0 :: cs)) with (rev (c0 :: cs) ++ [field]).
               rewrite E. reflexivity.
             - exact Cc.
             - apply Forall_app. split; [exact Ps |].
               constructor; [split; assumption | constructor]. }
           specialize (IH groups (field :: c0 :: cs) Hg Hc').
           destruct (group_loop rest groups (field :: c0 :: cs)) as [gs | e].
           ++ destruct IH as [E F]. split; [| exact F]. rewrite E.
              change (rev (field :: c0 :: cs)) with (rev (c0 :: cs) ++ [field]).
              rewrite <- !app_assoc. reflexivity.
           ++ destruct IH as [E [[D _] | X]]; [discriminate D |].
              split; [exact E |]. right. apply Exists_cons_tl. exact X.
      * split; [reflexivity |]. right. apply Exists_cons_hd. split; assumption.
Qed.

(** X1. [_group_tokens_by_command] either returns groups that, read in
    order, are exactly the tokens it was given, each group a command token
    followed by parameter tokens; or it raises CommandTokenError, and then
    the first token is a parameter token or some token carries a letter that
    is neither a command nor a parameter letter. *)
Theorem group_tokens_by_command_spec (tokens : list GcodeToken) :
  match _group_tokens_by_command tokens with
  | Ok groups =>
      concat groups = tokens /\ Forall spec_commands.is_group groups
  | Raise e =>
      e = CommandTokenError
      /\ ((exists t rest, tokens = t :: rest /\ spec_commands.is_param_token t)
          \/ Exists spec_commands.is_unrecognized_token tokens)
  end.
Proof.
  unfold _group_tokens_by_command.
  pose proof (group_loop_spec tokens [] [] (Forall_nil _) (or_introl eq_refl)) as H.
  destruct (group_loop tokens [] []) as [gs | e].
  - exact H.
  - destruct H as [E [[_ P] | X]]; (split; [exact E |]); [left; exact P | right; exact X].
Qed.

(** The loop of [_create_from_float_params]: on success every parameter
    token carries an allowed letter and a numeric literal, and each keyword
    holds the value of the last token with its letter (or what it held
    before, when there is none). *)
Lemma collect_params_spec (t : CommandType) (params : list GcodeToken) :
  forall acc : dict ascii Q,
    match collect_params t params acc with
    | Ok kw =>
        Forall (fun tok => letter_in (fst tok) (param_letters t) = true
                           /\ exists v, float (snd tok) = Ok v) params
        /\ forall letter,
             match spec_commands.last_literal letter params with
             | Some lit => exists v, float lit = Ok v /\ kwarg kw letter = Some v
             | None => kwarg kw letter = kwarg acc letter
             end
    | Raise e => e = CommandInvalidParamError \/ e = ValueError
    end.
Proof.
  assert (Fl : forall s e, float s = Raise e -> e = ValueError).
  { intros s e. unfold float.
    repeat match goal with
           | |- context [let '(_, _) := ?x in _] => destruct x
           | |- context [if ?c then _ else _] => destruct c
           | |- context [match ?x with _ => _ end] => destruct x
           end; intros H; try discriminate H; injection H as <-; reflexivity. }
  assert (Get : forall (d : dict ascii Q) k v k',
             kwarg (dict_set Ascii.eqb k v d) k'
             = if Ascii.eqb k' k then Some v else kwarg d k').
  { intros d k v k'. unfold kwarg.
    induction d as [| [k0 v0] d IH]; simpl.
    - reflexivity.
    - destruct (Ascii.eqb k k0) eqn:E; simpl.
      + apply Ascii.eqb_eq in E. subst k0.
        destruct (Ascii.eqb k' k); reflexivity.
      + destruct (Ascii.eqb k' k0) eqn:E0.
        * apply Ascii.eqb_eq in E0. subst k0.
          rewrite Ascii.eqb_sym in E. rewrite E. reflexivity.
        * exact IH. }
  induction params as [| [l v] rest IH]; intros acc.
  - simpl. split; [constructor | intros letter; reflexivity].
  - cbn [collect_params].
    destruct (letter_in l (param_letters t)) eqn:El; cbn [negb];
      [| left; reflexivity].
    destruct (float v) as [q | e] eqn:Ef; cbn [bind];
      [| right; apply (Fl _ _ Ef)].
    specialize (IH (dict_set Ascii.eqb l q acc)).
    destruct (collect_params t rest (dict_set Ascii.eqb l q acc)) as [kw | e];
      [| exact IH].
    destruct IH as [Fa La]. split.
    + constructor; [| exact Fa]. split; [exact El | exists q; exact Ef].
    + intros letter. specialize (La letter). cbn [spec_commands.last_literal].
      destruct (spec_commands.last_literal letter rest) as [lit |];
        [exact La |].
      rewrite Get in La.
      destruct (Ascii.eqb letter l); [exists q; split; assumption | exact La].
Qed.

(** X2. When [_create_from_float_params] builds a command, every parameter
    token has a letter of the command's vocabulary and a numeric literal,
    and the constructor received, for each letter, the value of the last
    token carrying it: a repeated parameter overrides the earlier one. *)
Theorem create_from_float_params_last_wins
        (command_token : GcodeToken) (params : list GcodeToken)
        (t : CommandType) (c : Command) :
  _create_from_float_params (command_token :: params) t = Ok c ->
  Forall (fun tok => letter_in (fst tok) (param_letters t) = true
                     /\ exists v, float (snd tok) = Ok v) params
  /\ exists kw : dict ascii Q,
       call t kw = Ok c
       /\ forall letter,
            match spec_commands.last_literal letter params with
            | Some lit => exists v, float lit = Ok v /\ kwarg kw letter = Some v
            | None => kwarg kw letter = None
            end.
Proof.
  unfold _create_from_float_params. cbn [tl]. intros H.
  apply bind_Ok_inv in H. destruct H as (kw & Hk & Hc).
  pose proof (collect_params_spec t params []) as S. rewrite Hk in S.
  destruct S as [Fa La]. split; [exact Fa |].
  exists kw. split; [exact Hc | exact La].
Qed.

(** X2 at a concrete input: [G1 X1 X2] is the move to X = 2. *)
Lemma create_from_float_params_last_wins_witness :
  Forall (fun tok => letter_in (fst tok) (param_letters TG1) = true
                     /\ exists v, float (snd tok) = Ok v)
         [token "x" "1"; token "x" "2"]
  /\ exists kw : dict ascii Q,
       call TG1 kw = Ok (g1 (Some 2) None None None None)
       /\ forall letter,
            match spec_commands.last_literal letter [token "x" "1"; token "x" "2"] with
            | Some lit => exists v, float lit = Ok v /\ kwarg kw letter = Some v
            | None => kwarg kw letter = None
            end.
Proof.
  exact (create_from_float_params_last_wins
           (token "g" "1") [token "x" "1"; token "x" "2"] TG1
           (g1 (Some 2) None None None None) eq_refl).
Defined.

Open Scope char_scope.


Close Scope char_scope.

Lemma call_errors (t : CommandType) (kw : dict ascii Q) (e : exn) :
  call t kw = Raise e -> e = CommandMissingParamError \/ e = TypeError.
Proof.
  unfold call, LineMove_init, ArcMove_init, G92_init, M104_init, M109_init.
  destruct t;
    repeat match goal with
           | |- context [if ?c then _ else _] => destruct c
           | |- context [match kwarg kw ?l with _ => _ end] => destruct (kwarg kw l)
           end; simpl; intros H; try discriminate H; injection H as <-; auto.
Qed.

Lemma create_from_float_params_errors (tokens : list GcodeToken)
      (t : CommandType) (e : exn) :
  _create_from_float_params tokens t = Raise e ->
  In e [CommandInvalidParamError; ValueError; CommandMissingParamError; TypeError].
Proof.
  unfold _create_from_float_params. intros H.
  pose proof (collect_params_spec t (tl tokens) []) as S.
  destruct (collect_params t (tl tokens) []) as [kw | e0]; cbn [bind] in H.
  - apply call_errors in H. destruct H as [-> | ->]; simpl; auto.
  - injection H as <-. destruct S as [-> | ->]; simpl; auto.
Qed.

Lemma handler_errors (command_token : GcodeToken)
      (handler : list GcodeToken -> result Command)
      (group : list GcodeToken) (e : exn) :
  dict_get token_eqb command_token _command_token_to_handler = Some handler ->
  handler group = Raise e ->
  In e [CommandInvalidParamError; ValueError; CommandMissingParamError; TypeError].
Proof.
  unfold _command_token_to_handler. cbn [dict_get].
  repeat match goal with
         | |- context [if token_eqb command_token ?k then _ else _] =>
             destruct (token_eqb command_token k);
             [intros H; injection H as <-; intros H;
              first [apply (create_from_float_params_errors _ _ _ H)
                    | discriminate H] |]
         end.
  discriminate.
Qed.

(** The loop of [parse] over the groups. *)
Lemma parse_loop_spec (skip : bool) (groups : list (list GcodeToken)) :
  forall cmds : list Command,
    Forall spec_commands.is_group groups ->
    match foldM (fun cmds token_group =>
                   match token_group with
                   | [] => Raise IndexError
                   | command_token :: _ =>
                       match dict_get token_eqb command_token
                                      _command_token_to_handler with
                       | Some handler =>
                           c <- handler token_group ;; Ok (cmds ++ [c])
                       | None => if negb skip then Raise CommandParseError
                                 else Ok cmds
                       end
                   end) groups cmds with
    | Ok out =>
        (length out <= length cmds + length groups)%nat
        /\ (skip = false -> length out = (length cmds + length groups)%nat)
    | Raise e =>
        In e [CommandInvalidParamError; ValueError; CommandMissingParamError;
              TypeError; CommandParseError]
        /\ (e = CommandParseError -> skip = false)
    end.
Proof.
  induction groups as [| g rest IH]; intros cmds Hg.
  - simpl. split; [lia | intros _; lia].
  - inversion Hg as [| ? ? (c & ps & -> & _ & _) Hrest]; subst.
    cbn [foldM].
    destruct (dict_get token_eqb c _command_token_to_handler) as [handler |] eqn:Eh.
    + destruct (handler (c :: ps)) as [cmd | e] eqn:Er; cbn [bind].
      * specialize (IH (cmds ++ [cmd]) Hrest).
        match goal with
        | |- match ?x with _ => _ end =>
            destruct x as [out | e]; [| exact IH]
        end.
        rewrite length_app in IH. simpl in IH |- *.
        destruct IH as [L E]. split; [lia | intros S; specialize (E S); lia].
      * pose proof (handler_errors _ _ _ _ Eh Er) as I.
        split.
        -- simpl in I |- *. intuition auto.
        -- intros ->. simpl in I.
           destruct I as [I | [I | [I | [I | []]]]]; discriminate I.
    + destruct skip.
      * specialize (IH cmds Hrest). cbn [negb bind] in IH |- *.
        match goal with
        | |- match ?x with _ => _ end =>
            destruct x as [out | e]; [| exact IH]
        end.
        simpl. destruct IH as [L E]. split; [lia | intros S; discriminate S].
      * cbn [negb bind]. split; [simpl; auto 10 | reflexivity].
Qed.

(** X4. [CommandParser.parse] raises nothing but CommandTokenError,
    CommandInvalidParamError, ValueError, CommandMissingParamError,
    TypeError and CommandParseError, the last one only when unknown
    commands are not skipped.  When it returns, it returns at most one
    command per group of tokens, and exactly one per group when unknown
    commands are not skipped. *)
Theorem parse_outcomes (skip_unknown : bool) (tokens : list GcodeToken) :
  match parse skip_unknown tokens with
  | Ok cmds =>
      exists groups,
        _group_tokens_by_command tokens = Ok groups
        /\ (length cmds <= length groups)%nat
        /\ (skip_unknown = false -> length cmds = length groups)
  | Raise e =>
      In e [CommandTokenError; CommandInvalidParamError; ValueError;
            CommandMissingParamError; TypeError; CommandParseError]
      /\ (e = CommandParseError -> skip_unknown = false)
  end.
Proof.
  unfold parse, _group_tokens_by_command.
  pose proof (group_loop_spec tokens [] [] (Forall_nil _) (or_introl eq_refl)) as G.
  destruct (group_loop tokens [] []) as [groups | e]; cbn [bind].
  - destruct G as [_ Hg].
    pose proof (parse_loop_spec skip_unknown groups [] Hg) as L.
    match goal with
    | |- match ?x with _ => _ end => destruct x as [out | e]
    end.
    + exists groups. split; [reflexivity | exact L].
    + destruct L as [I S]. split; [simpl in I |- *; intuition auto | exact S].
  - destruct G as [-> _]. split; [simpl; auto | discriminate].
Qed.

(** ** [Machine]: dispatch, snapshots, frame *)

Ltac heap_simpl :=
  unfold set_x, set_y, set_z, store, new in *; cbn [cell next_ref fst snd] in *;
  repeat match goal with
         | |- context [Nat.eqb ?a ?a] => rewrite (Nat.eqb_refl a)
         | |- context [Nat.eqb ?a ?b] =>
             let H := fresh "Hneq" in
             assert (H : Nat.eqb a b = false) by (apply Nat.eqb_neq; lia);
             rewrite H; clear H
         end.

(** Every handler returns: a supported command is never an exception. *)
Lemma supported_command_is_handled (c : Command) (h : Heap) (m : Machine) :
  spec_machine.supported c = true ->
  exists w, machine.handle_command c (h, m) = Ok w.
Proof.
  destruct c as [p | p | p | p | bx by_ bz | x y z e | | | | | | | s r d | s r t | ];
    cbn; try discriminate; intros _; unfold machine.handle_command; cbn;
    try (eexists; reflexivity).
  1-4: unfold machine._handle_move; cbn;
       destruct (is_rel_positioning (state_current m)); cbn;
       eexists; reflexivity.
  destruct bx, by_, bz; eexists; reflexivity.
Qed.

(** X5. [Machine.handle_command] raises nothing but UnknownCommandError,
    and only for a command without handler on a machine that does not skip
    unknown commands; a skipped command changes neither the store nor the
    machine, the previous state included. *)
Theorem handle_command_unknown (c : Command) (h : Heap) (m : Machine) :
  match machine.handle_command c (h, m) with
  | Ok (h', m') =>
      spec_machine.supported c = false ->
      _skip_unknown m = true /\ h' = h /\ m' = m
  | Raise e =>
      e = UnknownCommandError
      /\ spec_machine.supported c = false /\ _skip_unknown m = false
  end.
Proof.
  destruct (spec_machine.supported c) eqn:S.
  - destruct (supported_command_is_handled c h m S) as [[h' m'] ->].
    discriminate.
  - unfold spec_machine.supported in S. unfold machine.handle_command.
    destruct (_get_handler c); [discriminate |].
    destruct (_skip_unknown m); cbn.
    + intros _. repeat split.
    + repeat split.
Qed.

Section MachineFacts.
Local Arguments Nat.eqb : simpl never.

(** X6. After a supported command, the previous state holds what the
    current state held before the command: position and position offset
    (as values), extruder value and offset, feedrate and the three mode
    flags; its extruder temperature holds the former feedrate. *)
Theorem previous_state_snapshot (c : Command) (h : Heap) (m : Machine) :
  spec_machine.supported c = true ->
  spec_machine.allocated h (state_current m) ->
  exists h' m',
    machine.handle_command c (h, m) = Ok (h', m')
    /\ cell h' (position (state_previous m')) = cell h (position (state_current m))
    /\ cell h' (offset_position (state_previous m'))
       = cell h (offset_position (state_current m))
    /\ extruder (state_previous m') = extruder (state_current m)
    /\ offset_extruder (state_previous m') = offset_extruder (state_current m)
    /\ feedrate (state_previous m') = feedrate (state_current m)
    /\ is_rel_positioning (state_previous m') = is_rel_positioning (state_current m)
    /\ is_rel_extruder (state_previous m') = is_rel_extruder (state_current m)
    /\ is_imperial (state_previous m') = is_imperial (state_current m)
    /\ temp_extruder (state_previous m') = feedrate (state_current m).
Proof.
  intros S [Hp Ho].
  destruct c as [p | p | p | p | bx by_ bz | x y z e | | | | | | | s r d | s r t | ];
    try discriminate S; clear S; unfold machine.handle_command; cbn.
  1-4: unfold machine._handle_move; cbn;
       destruct (is_rel_positioning (state_current m)); cbn;
       eexists; eexists; (split; [reflexivity |]); cbn;
       repeat match goal with
              | |- context [match ?o with Some _ => _ | None => _ end] =>
                  destruct o; cbn
              | |- context [if is_rel_extruder ?s then _ else _] =>
                  destruct (is_rel_extruder s); cbn
              end;
       heap_simpl; repeat split.
  - destruct bx, by_, bz; eexists; eexists; (split; [reflexivity |]); cbn;
      heap_simpl; repeat split.
  - unfold machine._set_position.
    eexists; eexists; (split; [reflexivity |]); cbn.
    repeat match goal with
           | |- context [match ?o with Some _ => _ | None => _ end] =>
               is_var o; destruct o; cbn
           | |- context [if negb ?b then _ else _] => destruct b; cbn
           end; heap_simpl; repeat split.
  - eexists; eexists; (split; [reflexivity |]); cbn; heap_simpl; repeat split.
  - eexists; eexists; (split; [reflexivity |]); cbn; heap_simpl; repeat split.
  - eexists; eexists; (split; [reflexivity |]); cbn; heap_simpl; repeat split.
  - eexists; eexists; (split; [reflexivity |]); cbn; heap_simpl; repeat split.
  - eexists; eexists; (split; [reflexivity |]); cbn; heap_simpl; repeat split.
  - eexists; eexists; (split; [reflexivity |]); cbn; heap_simpl; repeat split.
  - eexists; eexists; (split; [reflexivity |]); cbn; heap_simpl; repeat split.
  - eexists; eexists; (split; [reflexivity |]); cbn; heap_simpl; repeat split.
Qed.

(** X6 at a concrete input: a new machine handling [G1 X5]. *)
Lemma previous_state_snapshot_witness :
  exists h' m',
    machine.handle_command (g1 (Some 5) None None None None)
                           (process_start, Machine_init false) = Ok (h', m')
    /\ cell h' (position (state_previous m')) = mkPoint3D 0 0 0
    /\ cell h' (offset_position (state_previous m')) = mkPoint3D 0 0 0
    /\ extruder (state_previous m') = 0
    /\ offset_extruder (state_previous m') = 0
    /\ feedrate (state_previous m') = 40
    /\ is_rel_positioning (state_previous m') = false
    /\ is_rel_extruder (state_previous m') = false
    /\ is_imperial (state_previous m') = false
    /\ temp_extruder (state_previous m') = 40.
Proof.
  exact (previous_state_snapshot
           (g1 (Some 5) None None None None) process_start (Machine_init false)
           eq_refl (conj (Nat.lt_0_succ 1) (Nat.lt_succ_diag_r 1))).
Defined.

(** X7. A command changes no [Point3D] object that existed before it
    other than the position and the position offset of the current state;
    objects are only ever added to the store. *)
Theorem handle_command_frame (c : Command) (h : Heap) (m : Machine) (r : ref) :
  (r < next_ref h)%nat ->
  r <> position (state_current m) ->
  r <> offset_position (state_current m) ->
  match machine.handle_command c (h, m) with
  | Ok (h', _) => cell h' r = cell h r /\ (next_ref h <= next_ref h')%nat
  | Raise _ => True
  end.
Proof.
  intros Hr Np No.
  destruct c as [p | p | p | p | bx by_ bz | x y z e | | | | | | | s r0 d | s r0 t | ];
    unfold machine.handle_command; cbn.
  1-4: unfold machine._handle_move; cbn;
       destruct (is_rel_positioning (state_current m)); cbn;
       repeat match goal with
              | |- context [match ?o with Some _ => _ | None => _ end] =>
                  destruct o; cbn
              | |- context [if is_rel_extruder ?s then _ else _] =>
                  destruct (is_rel_extruder s); cbn
              end;
       heap_simpl; (split; [reflexivity | lia]).
  - destruct bx, by_, bz; cbn; heap_simpl; (split; [reflexivity | lia]).
  - unfold machine._set_position. cbn.
    repeat match goal with
           | |- context [match ?o with Some _ => _ | None => _ end] =>
               is_var o; destruct o; cbn
           | |- context [if negb ?b then _ else _] => destruct b; cbn
           end; heap_simpl; (split; [reflexivity | lia]).
  - heap_simpl; (split; [reflexivity | lia]).
  - heap_simpl; (split; [reflexivity | lia]).
  - heap_simpl; (split; [reflexivity | lia]).
  - heap_simpl; (split; [reflexivity | lia]).
  - heap_simpl; (split; [reflexivity | lia]).
  - heap_simpl; (split; [reflexivity | lia]).
  - heap_simpl; (split; [reflexivity | lia]).
  - heap_simpl; (split; [reflexivity | lia]).
  - destruct (_skip_unknown m); cbn; [split; [reflexivity | lia] | exact I].
Qed.

(** X7 at a concrete input: a machine whose current state has private
    position objects (2 and 3) leaves the shared default position (object
    0) alone when it handles [G1 X5]. *)
Lemma handle_command_frame_witness :
  match machine.handle_command
          (g1 (Some 5) None None None None)
          (mkHeap 4%nat (fun _ => mkPoint3D 0 0 0),
           with_current (Machine_init false)
             (with_offset_position (with_position MachineState_init 2%nat) 3%nat))
  with
  | Ok (h', _) => cell h' 0%nat = mkPoint3D 0 0 0 /\ (4 <= next_ref h')%nat
  | Raise _ => True
  end.
Proof.
  apply (handle_command_frame
           (g1 (Some 5) None None None None)
           (mkHeap 4%nat (fun _ => mkPoint3D 0 0 0))
           (with_current (Machine_init false)
              (with_offset_position (with_position MachineState_init 2%nat) 3%nat))
           0%nat); simpl; lia.
Defined.

(** X8. Homing.  [G28] without axis flag gives the current state a
    position and a position offset of (0,0,0).  With flags it zeroes the
    position and the offset on the flagged axes and keeps both on the
    others.  No other field of the current state changes. *)
Theorem move_to_origin_spec (bx by_ bz : bool) (h : Heap) (m : Machine) :
  spec_machine.allocated h (state_current m) ->
  exists h' m',
    machine.handle_command (G28 bx by_ bz) (h, m) = Ok (h', m')
    /\ let old := state_current m in
       let new := state_current m' in
       let home_all := negb (bx || by_ || bz) in
       let axis (flag : bool) (before : Q) := if flag || home_all then 0 else before in
       cell h' (position new)
       = mkPoint3D (axis bx (p_x (cell h (position old))))
                   (axis by_ (p_y (cell h (position old))))
                   (axis bz (p_z (cell h (position old))))
       /\ cell h' (offset_position new)
          = mkPoint3D (axis bx (p_x (cell h (offset_position old))))
                      (axis by_ (p_y (cell h (offset_position old))))
                      (axis bz (p_z (cell h (offset_position old))))
       /\ extruder new = extruder old
       /\ offset_extruder new = offset_extruder old
       /\ feedrate new = feedrate old
       /\ temp_extruder new = temp_extruder old
       /\ is_rel_positioning new = is_rel_positioning old
       /\ is_rel_extruder new = is_rel_extruder old
       /\ is_imperial new = is_imperial old.
Proof.
  intros [Hp Ho]. unfold machine.handle_command. cbn.
  destruct (Nat.eq_dec (position (state_current m))
                       (offset_position (state_current m))) as [E | NE].
  - destruct bx, by_, bz; cbn; eexists; eexists; (split; [reflexivity |]); cbn;
      heap_simpl; rewrite <- ?E; rewrite ?Nat.eqb_refl; cbn;
      destruct (cell h (position (state_current m))); repeat split.
  - assert (B1 : Nat.eqb (position (state_current m))
                         (offset_position (state_current m)) = false)
      by (apply Nat.eqb_neq; exact NE).
    assert (B2 : Nat.eqb (offset_position (state_current m))
                         (position (state_current m)) = false)
      by (apply Nat.eqb_neq; intros X; apply NE; symmetry; exact X).
    destruct bx, by_, bz; cbn; eexists; eexists; (split; [reflexivity |]); cbn;
      unfold set_x, set_y, set_z, store; cbn [cell next_ref];
      rewrite ?Nat.eqb_refl, ?B1, ?B2; cbn;
      repeat match goal with
             | |- context [Nat.eqb ?a ?b] =>
                 let H := fresh "Hneq" in
                 assert (H : Nat.eqb a b = false) by (apply Nat.eqb_neq; lia);
                 rewrite H; clear H; cbn
             end;
      destruct (cell h (position (state_current m)));
      destruct (cell h (offset_position (state_current m))); repeat split.
Qed.

(** X8 at a concrete input: a new machine homing its X axis. *)
Lemma move_to_origin_spec_witness :
  exists h' m',
    machine.handle_command (G28 true false false)
                           (process_start, Machine_init false) = Ok (h', m')
    /\ cell h' (position (state_current m')) = mkPoint3D 0 0 0.
Proof.
  destruct (move_to_origin_spec true false false process_start (Machine_init false)
              (conj (Nat.lt_0_succ 1) (Nat.lt_succ_diag_r 1)))
    as (h' & m' & E & P & _).
  exists h', m'. split; [exact E | exact P].
Defined.

(** X9. [G92] leaves the raw position and the raw extruder value as they
    are.  For an axis (or the extruder) given with a value other than 0 it
    sets the offset to the raw value minus the commanded value; an axis that
    is missing, or given as 0, keeps its offset. *)
Theorem set_position_spec (x y z e : option Q) (h : Heap) (m : Machine) :
  spec_machine.allocated h (state_current m) ->
  position (state_current m) <> offset_position (state_current m) ->
  exists h' m',
    machine.handle_command (G92 x y z e) (h, m) = Ok (h', m')
    /\ let old := state_current m in
       let new := state_current m' in
       let offset_after (o : option Q) (raw offset : Q) :=
         match o with
         | Some v => if Qeq_bool v 0 then offset else fsub raw v
         | None => offset
         end in
       cell h' (position new) = cell h (position old)
       /\ extruder new = extruder old
       /\ cell h' (offset_position new)
          = mkPoint3D
              (offset_after x (p_x (cell h (position old)))
                              (p_x (cell h (offset_position old))))
              (offset_after y (p_y (cell h (position old)))
                              (p_y (cell h (offset_position old))))
              (offset_after z (p_z (cell h (position old)))
                              (p_z (cell h (offset_position old))))
       /\ offset_extruder new
          = offset_after e (extruder old) (offset_extruder old).
Proof.
  intros [Hp Ho] NE.
  assert (B1 : Nat.eqb (position (state_current m))
                       (offset_position (state_current m)) = false)
    by (apply Nat.eqb_neq; exact NE).
  unfold machine.handle_command, machine._set_position. cbn.
  eexists; eexists. split; [reflexivity |]. cbn zeta.
  unfold truthy.
  destruct x as [vx |], y as [vy |], z as [vz |], e as [ve |]; cbn;
    repeat match goal with
           | |- context [Qeq_bool ?v 0] => destruct (Qeq_bool v 0) eqn:?; cbn
           end;
    unfold set_x, set_y, set_z, store; cbn [cell next_ref];
    rewrite ?Nat.eqb_refl, ?B1; cbn;
    repeat match goal with
           | |- context [Nat.eqb ?a ?b] =>
               let H := fresh "Hneq" in
               assert (H : Nat.eqb a b = false) by (apply Nat.eqb_neq; lia);
               rewrite H; clear H; cbn
           end;
    destruct (cell h (position (state_current m))) as [px py pz];
    destruct (cell h (offset_position (state_current m))) as [ox oy oz]; cbn;
    repeat split.
Qed.

(** X9 at a concrete input: after [G1 X5 Y7], the command [G92 X2 Y0]
    leaves the raw position at (5, 7, 0), sets the X offset to 5 - 2 and
    keeps the Y offset at 0. *)
Lemma set_position_spec_witness :
  match machine.handle_command (g1 (Some 5) (Some 7) None None None)
                               (process_start, Machine_init false) with
  | Ok (h, m) =>
      exists h' m',
        machine.handle_command (G92 (Some 2) (Some 0) None None) (h, m)
        = Ok (h', m')
        /\ cell h' (position (state_current m')) = mkPoint3D 5 7 0
        /\ cell h' (offset_position (state_current m'))
           = mkPoint3D (fsub 5 2) 0 0
  | Raise _ => False
  end.
Proof.
  destruct (machine.handle_command (g1 (Some 5) (Some 7) None None None)
                                   (process_start, Machine_init false))
    as [[h m] | e] eqn:E; [| vm_compute in E; discriminate E].
  assert (A : spec_machine.allocated h (state_current m))
    by (vm_compute in E; injection E as <- <-; split; vm_compute; lia).
  assert (D : position (state_current m) <> offset_position (state_current m))
    by (vm_compute in E; injection E as <- <-; discriminate).
  assert (P : cell h (position (state_current m)) = mkPoint3D 5 7 0)
    by (vm_compute in E; injection E as <- <-; reflexivity).
  assert (O : cell h (offset_position (state_current m)) = mkPoint3D 0 0 0)
    by (vm_compute in E; injection E as <- <-; reflexivity).
  destruct (set_position_spec (Some 2) (Some 0) None None h m A D)
    as (h' & m' & E' & R & _ & F & _).
  exists h', m'. split; [exact E' |]. split.
  - rewrite R, P. reflexivity.
  - rewrite F, P, O. reflexivity.
Defined.

(** X10. The scalar fields of the current state after a command: the
    feedrate is the F of a move, if it has one; the extruder value is the E
    of a move, added to the old value in relative extruder mode; the
    temperature is the S of M104 and M109; each mode flag is set by its two
    commands; the extruder offset is set by a non-zero E of G92.  Every
    other combination leaves the field as it was. *)
Theorem scalar_fields_after_command (c : Command) (h : Heap) (m : Machine) :
  match machine.handle_command c (h, m) with
  | Ok (_, m') =>
      let old := state_current m in
      let new := state_current m' in
      feedrate new
      = match move_f c with Some f => f | None => feedrate old end
      /\ extruder new
         = match move_e c with
           | Some e => if is_rel_extruder old then fadd (extruder old) e else e
           | None => extruder old
           end
      /\ temp_extruder new
         = match c with
           | M104 s _ _ | M109 s _ _ => s
           | _ => temp_extruder old
           end
      /\ is_imperial new
         = match c with G20 => true | G21 => false | _ => is_imperial old end
      /\ is_rel_positioning new
         = match c with
           | G91 => true | G90 => false | _ => is_rel_positioning old
           end
      /\ is_rel_extruder new
         = match c with
           | M83 => true | M82 => false | _ => is_rel_extruder old
           end
      /\ offset_extruder new
         = match c with
           | G92 _ _ _ (Some e) =>
               if Qeq_bool e 0 then offset_extruder old else fsub (extruder old) e
           | _ => offset_extruder old
           end
  | Raise _ => True
  end.
Proof.
  destruct m as [skip prev [pos off ex oex fr te rp re im]].
  destruct c as [p | p | p | p | bx by_ bz | x y z e | | | | | | | s r d | s r t | ];
    unfold machine.handle_command; cbn; try (repeat split; fail).
  1-4: unfold machine._handle_move; cbn;
       destruct rp, re; cbn; destruct p; cbn;
       repeat match goal with
              | |- context [match ?o with Some _ => _ | None => _ end] =>
                  is_var o; destruct o; cbn
              end; repeat split.
  - destruct bx, by_, bz; cbn; repeat split.
  - unfold machine._set_position, truthy. cbn.
    destruct e as [ve |]; cbn; [destruct (Qeq_bool ve 0); cbn |]; repeat split.
  - destruct skip; cbn; [repeat split | exact I].
Qed.

End MachineFacts.

(** ** [ModelBuilder]: what every build keeps *)

Section MoreDictFacts.
  Context {K V : Type} (eqb : K -> K -> bool).

Lemma dict_set_absent (k : K) (v : V) (d : dict K V) :
  dict_get eqb k d = None -> dict_set eqb k v d = d ++ [(k, v)].
Proof.
  induction d as [| [k' v'] d IH]; simpl; [reflexivity |].
  destruct (eqb k k'); [discriminate |].
  intros H. rewrite (IH H). reflexivity.
Qed.

Lemma dict_get_app_Some (k : K) (v : V) (d d' : dict K V) :
  dict_get eqb k d = Some v -> dict_get eqb k (d ++ d') = Some v.
Proof.
  induction d as [| [k' v'] d IH]; simpl; [discriminate |].
  destruct (eqb k k'); [trivial | exact IH].
Qed.

Lemma dict_get_app_None (k : K) (d d' : dict K V) :
  dict_get eqb k d = None -> dict_get eqb k (d ++ d') = dict_get eqb k d'.
Proof.
  induction d as [| [k' v'] d IH]; simpl; [reflexivity |].
  destruct (eqb k k'); [discriminate | exact IH].
Qed.

Lemma dict_pop_entries (k : K) (d d' : dict K V) (v : V) :
  dict_pop eqb k d = Some (v, d') ->
  (exists k', In (k', v) d /\ eqb k k' = true)
  /\ (forall e, In e d' -> In e d)
  /\ S (length d') = length d.
Proof.
  revert d'. induction d as [| [k' v'] d IH]; simpl; intros d' H;
    [discriminate |].
  destruct (eqb k k') eqn:E.
  - injection H as <- <-. split; [exists k'; split; [left; reflexivity | exact E] |].
    split; [intros e I; right; exact I | reflexivity].
  - destruct (dict_pop eqb k d) as [[w d''] |]; [| discriminate].
    injection H as <- <-.
    destruct (IH d'' eq_refl) as ((k0 & I0 & E0) & Sub & L).
    split; [exists k0; split; [right; exact I0 | exact E0] |].
    split.
    + intros e [I | I]; [left; exact I | right; apply Sub; exact I].
    + simpl. rewrite L. reflexivity.
Qed.

Lemma dict_pop_None_get (k : K) (d : dict K V) :
  dict_pop eqb k d = None -> dict_get eqb k d = None.
Proof.
  induction d as [| [k' v'] d IH]; simpl; [reflexivity |].
  destruct (eqb k k'); [discriminate |].
  destruct (dict_pop eqb k d) as [[w d''] |]; [discriminate | exact IH].
Qed.

Lemma dict_get_Some_pop (k : K) (d : dict K V) (v : V) :
  dict_get eqb k d = Some v -> exists d', dict_pop eqb k d = Some (v, d').
Proof.
  induction d as [| [k' v'] d IH]; simpl; [discriminate |].
  destruct (eqb k k').
  - intros H. injection H as <-. eexists. reflexivity.
  - intros H. destruct (IH H) as [d' ->]. eexists. reflexivity.
Qed.

Lemma dict_get_In (k : K) (d : dict K V) (v : V) :
  dict_get eqb k d = Some v -> exists k', In (k', v) d /\ eqb k k' = true.
Proof.
  induction d as [| [k' v'] d IH]; simpl; [discriminate |].
  destruct (eqb k k') eqn:E.
  - intros H. injection H as <-. exists k'. split; [left; reflexivity | exact E].
  - intros H. destruct (IH H) as (k0 & I & E0). exists k0.
    split; [right; exact I | exact E0].
Qed.
End MoreDictFacts.

Lemma dict_get_nat_set (k k' : nat) {V : Type} (v : V) (d : dict nat V) :
  dict_get Nat.eqb k (dict_set Nat.eqb k' v d)
  = if Nat.eqb k k' then Some v else dict_get Nat.eqb k d.
Proof.
  induction d as [| [k0 v0] d IH]; simpl.
  - destruct (Nat.eqb k k'); reflexivity.
  - destruct (Nat.eqb k' k0) eqn:E; simpl.
    + apply Nat.eqb_eq in E. subst k0. destruct (Nat.eqb k k'); reflexivity.
    + destruct (Nat.eqb k k0) eqn:E0.
      * apply Nat.eqb_eq in E0. subst k0.
        rewrite Nat.eqb_sym, E. reflexivity.
      * exact IH.
Qed.

Lemma dict_get_Qeq (z z' : Q) {V : Type} (d : dict Q V) :
  Qeq_bool z z' = true -> dict_get Qeq_bool z d = dict_get Qeq_bool z' d.
Proof.
  intros E. apply Qeq_bool_iff in E.
  induction d as [| [k v] d IH]; simpl; [reflexivity |].
  rewrite IH.
  assert (B : Qeq_bool z k = Qeq_bool z' k).
  { destruct (Qeq_bool z k) eqn:A, (Qeq_bool z' k) eqn:B; try reflexivity.
    - apply Qeq_bool_iff in A. apply Qeq_bool_neq in B. exfalso. apply B.
      rewrite <- E. exact A.
    - apply Qeq_bool_iff in B. apply Qeq_bool_neq in A. exfalso. apply A.
      rewrite E. exact B. }
  rewrite B. reflexivity.
Qed.

Lemma Qeq_bool_refl (z : Q) : Qeq_bool z z = true.
Proof. apply Qeq_bool_iff. reflexivity. Qed.

(** *** One segment more *)

Lemma segments_app (l : Layer) (ps qs : list Path) :
  fold_right (fun p n => (length p - 1 + n)%nat) 0%nat (ps ++ qs)
  = (fold_right (fun p n => (length p - 1 + n)%nat) 0%nat ps
     + fold_right (fun p n => (length p - 1 + n)%nat) 0%nat qs)%nat.
Proof.
  induction ps as [| p ps IH]; simpl; [reflexivity | rewrite IH; lia].
Qed.

Lemma add_segment_to_layer_spec (layer : Layer) (s d : LVector2d) :
  Forall (fun p => (2 <= length p)%nat) (paths layer) ->
  exists ps,
    model.add_segment_to_layer layer s d = Ok (with_paths layer ps)
    /\ spec_model.segments (with_paths layer ps) = S (spec_model.segments layer)
    /\ Forall (fun p => (2 <= length p)%nat) ps.
Proof.
  intros F. unfold model.add_segment_to_layer, spec_model.segments.
  assert (New : fold_right (fun p n => (length p - 1 + n)%nat) 0%nat
                  (paths layer ++ [Path_init s d])
                = S (fold_right (fun p n => (length p - 1 + n)%nat) 0%nat
                       (paths layer))).
  { rewrite (segments_app layer). simpl. lia. }
  assert (FNew : Forall (fun p => (2 <= length p)%nat)
                        (paths layer ++ [Path_init s d])).
  { apply Forall_app. split; [exact F |]. constructor; [simpl; lia | constructor]. }
  destruct (paths layer) as [| p0 ps0] eqn:E.
  - eexists. split; [reflexivity |]. cbn [paths with_paths].
    split; [exact New | exact FNew].
  - destruct (@exists_last _ (p0 :: ps0)) as (front & last_path & EL);
      [discriminate |].
    rewrite EL in *.
    rewrite getitem_last. cbn [bind].
    assert (L2 : (2 <= length last_path)%nat).
    { apply Forall_app in F. destruct F as [_ F]. inversion F; assumption. }
    destruct (@exists_last _ last_path) as (pts & last_point & EP).
    { intros ->. simpl in L2. lia. }
    subst last_path. rewrite getitem_last. cbn [bind].
    rewrite length_app in L2. simpl in L2.
    destruct (negb (vec2_eqb s last_point)).
    + eexists. split; [reflexivity |]. cbn [paths with_paths].
      split; [exact New | exact FNew].
    + rewrite setitem_last. cbn [bind].
      eexists. split; [reflexivity |]. cbn [paths with_paths]. split.
      * rewrite !(segments_app layer). simpl. rewrite !length_app. simpl. lia.
      * apply Forall_app in F. destruct F as [F1 _].
        apply Forall_app. split; [exact F1 |].
        constructor; [| constructor]. rewrite !length_app. simpl. lia.
Qed.

(** *** The machine of a builder never raises *)

Lemma machine_handle_command_skip (c : Command) (h : Heap) (m : Machine) :
  _skip_unknown m = true ->
  exists h' m',
    machine.handle_command c (h, m) = Ok (h', m') /\ _skip_unknown m' = true.
Proof.
  intros S.
  destruct c as [p | p | p | p | bx by_ bz | x y z e | | | | | | | s r d | s r t | ];
    unfold machine.handle_command; cbn;
    try (eexists; eexists; split; [reflexivity | exact S]).
  1-4: unfold machine._handle_move; cbn;
       destruct (is_rel_positioning (state_current m)); cbn;
       eexists; eexists; (split; [reflexivity | exact S]).
  - destruct bx, by_, bz; eexists; eexists; (split; [reflexivity | exact S]).
  - rewrite S. cbn. eexists; eexists; (split; [reflexivity | exact S]).
Qed.

Section BuilderFacts.
  Context {N : Numerics}.

Import model.

Local Abbreviation new_layer b z :=
  (with_layer_to_feedrates
     (with_layer_to_temperatures
        (with_z_to_layer (with_layers b (layers b ++ [Layer_init]))
           (dict_set Qeq_bool z (length (layers b)) (z_to_layer b)))
        (dict_set Nat.eqb (length (layers b)) [] (layer_to_temperatures b)))
     (dict_set Nat.eqb (length (layers b)) [] (layer_to_feedrates b))).

Lemma layer_ok_weaken (b : ModelBuilder) (l : LayerId) :
  spec_model.layer_ok b l 0 0 true -> spec_model.layer_ok b l 0 0 false.
Proof.
  intros (layer & ts & fs & H1 & H2 & H3 & H4 & H5 & H6 & H7).
  exists layer, ts, fs. repeat split; try assumption. discriminate.
Qed.

Lemma all_layers_ok_staged (b : ModelBuilder) (t : LayerId) :
  spec_model.all_layers_ok b -> spec_model.layers_ok b t 0 0 false.
Proof.
  intros A l L. destruct (Nat.eqb l t); [apply layer_ok_weaken |]; apply A; exact L.
Qed.

Lemma layers_ok_settled (b : ModelBuilder) (t : LayerId) :
  spec_model.layers_ok b t 0 0 true -> spec_model.all_layers_ok b.
Proof.
  intros A l L. specialize (A l L). destruct (Nat.eqb l t); exact A.
Qed.

Lemma new_layer_staged (b : ModelBuilder) (z : Q) :
  spec_model.reachable_inv b ->
  dict_get Qeq_bool z (z_to_layer b) = None ->
  spec_model.staged_inv (new_layer b z) (length (layers b)) 0 0 false
  /\ dict_get Qeq_bool z (z_to_layer (new_layer b z)) = Some (length (layers b)).
Proof.
  intros (Idx & Keys & (CLen & CEnt) & Skip & All & _) Abs.
  assert (Set_ : dict_set Qeq_bool z (length (layers b)) (z_to_layer b)
                 = z_to_layer b ++ [(z, length (layers b))])
    by (apply dict_set_absent; exact Abs).
  assert (Get : dict_get Qeq_bool z (z_to_layer b ++ [(z, length (layers b))])
                = Some (length (layers b))).
  { rewrite dict_get_app_None by exact Abs. simpl.
    rewrite Qeq_bool_refl. reflexivity. }
  split; [| cbn; rewrite Set_; exact Get].
  unfold spec_model.staged_inv, spec_model.cache_ok, spec_model.keys_distinct,
    spec_model.layers_ok, spec_model.layer_ok. cbn. rewrite Set_.
  split; [| split; [| split; [| split; [| split]]]].
  - unfold spec_model.index_ok in *. cbn.
    unfold dict_values in *. rewrite map_app, length_app. cbn.
    destruct (_is_after_post_priming_descent b).
    + destruct Idx as (P & PZ & Vals & L1).
      split; [exact P |]. split; [exact PZ |]. split; [| lia].
      rewrite Vals.
      replace (length (layers b) + 1 - 1)%nat with (S (length (layers b) - 1))
        by lia.
      rewrite seq_S. do 2 f_equal. lia.
    + destruct Idx as (P & PZ & Vals).
      split; [exact P |]. split; [exact PZ |].
      rewrite Vals. rewrite Nat.add_1_r, seq_S. reflexivity.
  - intros k l I. apply in_app_or in I. destruct I as [I | [I | []]].
    + apply dict_get_app_Some. apply Keys. exact I.
    + injection I as <- <-. exact Get.
  - split; [exact CLen |]. intros k l I.
    destruct (CEnt k l I) as [B T]. split.
    + rewrite length_app. simpl. lia.
    + intros F. apply dict_get_app_Some. apply T. exact F.
  - exact Skip.
  - rewrite length_app. simpl. lia.
  - intros l L. rewrite length_app in L. simpl in L.
    destruct (Nat.eqb l (length (layers b))) eqn:E.
    + apply Nat.eqb_eq in E. subst l.
      exists Layer_init, [], []. cbn.
      rewrite nth_error_app2 by lia. rewrite Nat.sub_diag.
      rewrite !dict_get_nat_set, Nat.eqb_refl.
      repeat split; try reflexivity; try discriminate; constructor.
    + apply Nat.eqb_neq in E.
      assert (L' : (l < length (layers b))%nat) by lia.
      destruct (All l L') as (layer & ts & fs & H1 & H2 & H3 & H4 & H5 & H6 & H7).
      exists layer, ts, fs. cbn.
      rewrite nth_error_app1 by exact L'.
      rewrite !dict_get_nat_set.
      apply Nat.eqb_neq in E. rewrite E.
      repeat split; assumption.
Qed.

Lemma get_layer_at_z_body_staged (b : ModelBuilder) (z : Q) :
  spec_model.reachable_inv b ->
  match get_layer_at_z_body b z with
  | Ok (b', t) =>
      spec_model.staged_inv b' t 0 0 false
      /\ dict_get Qeq_bool z (z_to_layer b') = Some t
      /\ lru_cache b' = lru_cache b
      /\ machine b' = machine b
  | Raise e => spec_model.descent_error b z e
  end.
Proof.
  intros R. pose proof R as (Idx & Keys & (CLen & CEnt) & Skip & All & Last).
  unfold get_layer_at_z_body.
  destruct (dict_get Qeq_bool z (z_to_layer b)) as [t |] eqn:G.
  - split; [| split; [exact G | split; reflexivity]].
    assert (Bound : (t < length (layers b))%nat).
    { destruct (dict_get_In _ _ _ _ G) as (k & I & _).
      assert (IV : In t (dict_values (z_to_layer b)))
        by (apply in_map_iff; exists (k, t); split; [reflexivity | exact I]).
      unfold spec_model.index_ok in Idx.
      destruct (_is_after_post_priming_descent b).
      - destruct Idx as (_ & _ & Vals & L1). rewrite Vals in IV.
        apply in_seq in IV. lia.
      - destruct Idx as (_ & _ & Vals). rewrite Vals in IV.
        apply in_seq in IV. lia. }
    split; [exact Idx |]. split; [exact Keys |].
    split; [exact (conj CLen CEnt) |]. split; [exact Skip |].
    split; [exact Bound |]. apply all_layers_ok_staged. exact All.
  - destruct (Qlt_bool z (_last_layer_z b)) eqn:Lt; cbn [bind].
    + apply Qlt_bool_true in Lt.
      destruct (_is_after_post_priming_descent b) eqn:Flag; cbn [bind].
      { split; [exact Lt |]. right. left. split; [reflexivity | exact Flag]. }
      destruct (1 <? length (z_to_layer b))%nat eqn:Many; cbn [bind].
      { apply Nat.ltb_lt in Many. split; [exact Lt |]. right. right.
        split; [reflexivity |]. split; [exact Flag | lia]. }
      apply Nat.ltb_ge in Many.
      destruct (dict_pop Qeq_bool (_last_layer_z b) (z_to_layer b))
        as [[popped rest] |] eqn:Pop; cbn [bind].
      2: { split; [exact Lt |]. left. split; [reflexivity |].
           unfold spec_model.index_ok in Idx. rewrite Flag in Idx.
           destruct Idx as (_ & _ & Vals).
           specialize (Last Flag).
           destruct (z_to_layer b) as [| e0 d0] eqn:Ed.
           - split.
             + destruct (layers b); [reflexivity | discriminate Vals].
             + rewrite Last in Lt. exact Lt.
           - destruct Last as [l0 G0]. rewrite <- Ed in Pop.
             rewrite <- Ed in G0.
             destruct (dict_get_Some_pop _ _ _ _ G0) as [d' Pop'].
             rewrite Pop' in Pop. discriminate Pop. }
      destruct (dict_pop_entries _ _ _ _ _ Pop) as ((k & I & _) & _ & Len).
      assert (Rest : rest = []) by (destruct rest; [reflexivity | simpl in Len; lia]).
      subst rest. simpl in Len.
      unfold spec_model.index_ok in Idx. rewrite Flag in Idx.
      destruct Idx as (P & PZ & Vals).
      assert (L1 : length (layers b) = 1%nat).
      { assert (LV : length (dict_values (z_to_layer b)) = length (layers b))
          by (rewrite Vals; apply length_seq).
        unfold dict_values in LV. rewrite length_map in LV. lia. }
      assert (P0 : popped = 0%nat).
      { assert (IV : In popped (dict_values (z_to_layer b)))
          by (apply in_map_iff; exists (k, popped); split; [reflexivity | exact I]).
        rewrite Vals, L1 in IV. simpl in IV. destruct IV as [E | []].
        symmetry. exact E. }
      subst popped.
      assert (R' : spec_model.reachable_inv
                     (with_priming (with_z_to_layer b []) 0%nat (_last_layer_z b))).
      { unfold spec_model.reachable_inv, spec_model.cache_ok,
          spec_model.keys_distinct, spec_model.last_ok. cbn.
        split; [| split; [| split; [| split; [| split; [| discriminate]]]]].
        - unfold spec_model.index_ok. cbn. rewrite L1.
          repeat split; try reflexivity. eexists. reflexivity.
        - intros k0 l0 [].
        - split; [exact CLen |]. intros k0 l0 I0.
          split; [exact (proj1 (CEnt k0 l0 I0)) | discriminate].
        - exact Skip.
        - exact All. }
      destruct (new_layer_staged _ z R' eq_refl) as [St Get].
      split; [exact St |]. split; [exact Get |]. split; reflexivity.
    + destruct (new_layer_staged b z R G) as [St Get].
      split; [exact St |]. split; [exact Get |]. split; reflexivity.
Qed.

Lemma firstn_incl {A : Type} (n : nat) (l : list A) (x : A) :
  In x (firstn n l) -> In x l.
Proof.
  intros I. rewrite <- (firstn_skipn n l). apply in_or_app. left. exact I.
Qed.

Lemma firstn_length_le {A : Type} (n : nat) (l : list A) :
  (length (firstn n l) <= n)%nat.
Proof. rewrite length_firstn. lia. Qed.

Lemma get_layer_at_z_staged (b : ModelBuilder) (z : Q) :
  spec_model.reachable_inv b ->
  match get_layer_at_z b z with
  | Ok (b', t) =>
      spec_model.staged_inv b' t 0 0 false
      /\ spec_model.last_ok (with_last_layer_z b' z)
      /\ machine b' = machine b
  | Raise e => spec_model.descent_error b z e
  end.
Proof.
  intros R. pose proof R as (Idx & Keys & (CLen & CEnt) & Skip & All & Last).
  unfold get_layer_at_z.
  destruct (dict_pop Qeq_bool z (lru_cache b)) as [[cached others] |] eqn:Pop.
  - destruct (dict_pop_entries _ _ _ _ _ Pop) as ((k & I & E) & Sub & Len).
    split; [| split; [| reflexivity]].
    2: { unfold spec_model.last_ok. cbn. intros F.
         destruct (CEnt k cached I) as [_ T]. specialize (T F).
         rewrite <- (dict_get_Qeq z k) in T by exact E.
         destruct (z_to_layer b); [discriminate T | exists cached; exact T]. }
    unfold spec_model.staged_inv, spec_model.cache_ok. cbn.
    split; [exact Idx |]. split; [exact Keys |].
    split; [| split; [exact Skip |]; split;
              [exact (proj1 (CEnt k cached I))
              | apply all_layers_ok_staged; exact All]].
    split; [lia |].
    intros k0 l0 [I0 | I0].
    + injection I0 as <- <-. destruct (CEnt k cached I) as [B T].
      split; [exact B |]. intros F. rewrite (dict_get_Qeq z k) by exact E.
      exact (T F).
    + apply CEnt. apply Sub. exact I0.
  - pose proof (get_layer_at_z_body_staged b z R) as Body.
    destruct (get_layer_at_z_body b z) as [[b1 t] | e]; cbn [bind];
      [| exact Body].
    destruct Body as ((Idx1 & Keys1 & (CLen1 & CEnt1) & Skip1 & Bound1 & All1)
                      & Get1 & Cache1 & Mach1).
    split; [| split; [| exact Mach1]].
    2: { unfold spec_model.last_ok. cbn. intros _.
         destruct (z_to_layer b1); [discriminate Get1 | exists t; exact Get1]. }
    unfold spec_model.staged_inv, spec_model.cache_ok. cbn.
    split; [exact Idx1 |]. split; [exact Keys1 |].
    split; [| split; [exact Skip1 |]; split; [exact Bound1 | exact All1]].
    split.
    + exact (firstn_length_le lru_maxsize ((z, t) :: lru_cache b1)).
    + intros k0 l0 I0.
      apply (firstn_incl lru_maxsize ((z, t) :: lru_cache b1)) in I0.
      destruct I0 as [I0 | I0].
      * injection I0 as <- <-. split; [exact Bound1 |]. intros _. exact Get1.
      * apply CEnt1. exact I0.
Qed.

Lemma add_segment_staged (b : ModelBuilder) (t : LayerId) (s d : LVector2d) :
  spec_model.staged_inv b t 0 0 false ->
  exists ls,
    add_segment b t s d = Ok (with_layers b ls)
    /\ spec_model.staged_inv (with_layers b ls) t 1 1 true.
Proof.
  intros (Idx & Keys & (CLen & CEnt) & Skip & Bound & All).
  unfold add_segment, deref.
  pose proof (All t Bound) as Lt. rewrite Nat.eqb_refl in Lt.
  destruct Lt as (layer & ts & fs & H1 & H2 & H3 & H4 & H5 & H6 & H7).
  rewrite H1. cbn [bind].
  destruct (add_segment_to_layer_spec layer s d H7) as (ps & E & Seg & F).
  rewrite E. cbn [bind]. eexists. split; [reflexivity |].
  unfold spec_model.staged_inv, spec_model.cache_ok, spec_model.index_ok,
    spec_model.layers_ok, spec_model.layer_ok in *.
  cbn. rewrite update_nth_length.
  split; [exact Idx |]. split; [exact Keys |].
  split; [exact (conj CLen CEnt) |]. split; [exact Skip |].
  split; [exact Bound |].
  intros l L. destruct (Nat.eqb l t) eqn:El.
  - apply Nat.eqb_eq in El. subst l.
    exists (with_paths layer ps), ts, fs.
    rewrite update_nth_same, H1. cbn [option_map].
    split; [reflexivity |]. split; [exact H2 |]. split; [exact H3 |].
    rewrite Seg. split; [lia |]. split; [lia |]. split; [intros _; lia | exact F].
  - apply Nat.eqb_neq in El.
    specialize (All l L). apply Nat.eqb_neq in El. rewrite El in All.
    apply Nat.eqb_neq in El.
    rewrite update_nth_other by exact El. exact All.
Qed.

Lemma append_temperature_staged (b : ModelBuilder) (t : LayerId) (x : Q)
      (owed_f : nat) :
  spec_model.staged_inv b t 1 owed_f true ->
  exists temps,
    append_sample (layer_to_temperatures b) t x = Ok temps
    /\ spec_model.staged_inv (with_layer_to_temperatures b temps) t 0 owed_f true.
Proof.
  intros (Idx & Keys & (CLen & CEnt) & Skip & Bound & All).
  unfold append_sample, dict_item.
  pose proof (All t Bound) as Lt. rewrite Nat.eqb_refl in Lt.
  destruct Lt as (layer & ts & fs & H1 & H2 & H3 & H4 & H5 & H6 & H7).
  rewrite H2. cbn [bind]. eexists. split; [reflexivity |].
  unfold spec_model.staged_inv, spec_model.cache_ok, spec_model.index_ok,
    spec_model.layers_ok, spec_model.layer_ok in *.
  cbn.
  split; [exact Idx |]. split; [exact Keys |].
  split; [exact (conj CLen CEnt) |]. split; [exact Skip |].
  split; [exact Bound |].
  intros l L. rewrite dict_get_nat_set. destruct (Nat.eqb l t) eqn:El.
  - apply Nat.eqb_eq in El. subst l.
    exists layer, (ts ++ [x]), fs. rewrite length_app. simpl.
    repeat split; try assumption; lia.
  - specialize (All l L). rewrite El in All. exact All.
Qed.

Lemma append_feedrate_staged (b : ModelBuilder) (t : LayerId) (x : Q) :
  spec_model.staged_inv b t 0 1 true ->
  spec_model.last_ok b ->
  exists feeds,
    append_sample (layer_to_feedrates b) t x = Ok feeds
    /\ spec_model.reachable_inv (with_layer_to_feedrates b feeds).
Proof.
  intros (Idx & Keys & (CLen & CEnt) & Skip & Bound & All) Last.
  unfold append_sample, dict_item.
  pose proof (All t Bound) as Lt. rewrite Nat.eqb_refl in Lt.
  destruct Lt as (layer & ts & fs & H1 & H2 & H3 & H4 & H5 & H6 & H7).
  rewrite H3. cbn [bind]. eexists. split; [reflexivity |].
  unfold spec_model.reachable_inv, spec_model.cache_ok, spec_model.index_ok,
    spec_model.all_layers_ok, spec_model.layers_ok, spec_model.layer_ok in *.
  cbn.
  split; [exact Idx |]. split; [exact Keys |].
  split; [exact (conj CLen CEnt) |]. split; [exact Skip |].
  split; [| exact Last].
  intros l L. rewrite dict_get_nat_set. destruct (Nat.eqb l t) eqn:El.
  - apply Nat.eqb_eq in El. subst l.
    exists layer, ts, (fs ++ [x]). rewrite length_app. simpl.
    repeat split; try assumption; lia.
  - specialize (All l L). rewrite El in All. exact All.
Qed.

Lemma model_handle_move_reachable (h : Heap) (b : ModelBuilder) (c : Command) :
  spec_model.reachable_inv b ->
  isinstance_Move c = true ->
  match _handle_move h b c with
  | Ok b' => spec_model.reachable_inv b'
  | Raise e =>
      (e = TypeError /\ spec_model.is_arc c = true)
      \/ spec_model.descent_error
           b (p_z (position_abs h (state_current (machine b)))) e
  end.
Proof.
  intros R Mv. unfold _handle_move. rewrite Mv. cbn [negb].
  destruct (is_layer_printing_move h (machine b) c); [| exact R].
  pose proof (get_layer_at_z_staged b
                (p_z (position_abs h (state_current (machine b)))) R) as G.
  destruct (get_layer_at_z b (p_z (position_abs h (state_current (machine b)))))
    as [[b1 t] | e]; cbn [bind]; [| right; exact G].
  destruct G as (St & Last & Mach).
  destruct c as [p | p | p | p | | | | | | | | | | | ]; try discriminate Mv.
  3, 4: destruct (am_i p), (am_j p); cbn; left; split; reflexivity.
  all: destruct (add_segment_staged
                (with_last_layer_z b1
                   (p_z (position_abs h (state_current (machine b))))) t
                (point_xy (position_abs h (state_previous (machine b))))
                (point_xy (position_abs h (state_current (machine b)))) St)
      as (ls & E2 & St2);
    rewrite E2; cbn [bind];
    match goal with
    | |- context [append_sample (layer_to_temperatures ?b2) ?t0 ?x] =>
        destruct (append_temperature_staged b2 t0 x 1 St2) as (temps & E3 & St3)
    end;
    rewrite E3; cbn [bind];
    match goal with
    | |- context [append_sample (layer_to_feedrates ?b3) ?t0 ?x] =>
        destruct (append_feedrate_staged b3 t0 x St3 Last) as (feeds & E4 & R4)
    end;
    rewrite E4; cbn [bind]; exact R4.
Qed.

Lemma model_handle_command_reachable (h : Heap) (b : ModelBuilder) (c : Command) :
  spec_model.reachable_inv b ->
  exists h' m',
    machine.handle_command c (h, machine b) = Ok (h', m')
    /\ match handle_command (h, b) c with
       | Ok w' => spec_model.reachable_inv (snd w')
       | Raise e =>
           (e = TypeError /\ spec_model.is_arc c = true)
           \/ spec_model.descent_error
                b (p_z (position_abs h' (state_current m'))) e
       end.
Proof.
  intros R. pose proof R as (Idx & Keys & C & Skip & All & Last).
  unfold handle_command.
  destruct (machine_handle_command_skip c h (machine b) Skip)
    as (h' & m' & E & Skip').
  exists h', m'. split; [exact E |].
  rewrite E. cbn [bind].
  assert (R' : spec_model.reachable_inv (with_machine b m')).
  { split; [exact Idx |]. split; [exact Keys |]. split; [exact C |].
    split; [exact Skip' |]. split; [exact All | exact Last]. }
  destruct (isinstance_Move c) eqn:Mv; [| exact R'].
  pose proof (model_handle_move_reachable h' (with_machine b m') c R' Mv) as M.
  destruct (_handle_move h' (with_machine b m') c); cbn [bind snd]; exact M.
Qed.

Lemma step_error_is_build_error (b : ModelBuilder) (c : Command) (z : Q) (e : exn) :
  (e = TypeError /\ spec_model.is_arc c = true) \/ spec_model.descent_error b z e ->
  spec_model.is_build_error e.
Proof.
  intros [[-> _] | [_ [(-> & _) | [(-> & _) | (-> & _)]]]].
  - left. reflexivity.
  - right. left. reflexivity.
  - right. right. left. eexists. eexists. reflexivity.
  - right. right. right. eexists. eexists. eexists. reflexivity.
Qed.

Lemma foldM_handle_command_reachable (gcode : list Command)
      (w : Heap * ModelBuilder) :
  spec_model.reachable_inv (snd w) ->
  match foldM handle_command gcode w with
  | Ok w' => spec_model.reachable_inv (snd w')
  | Raise e => spec_model.is_build_error e
  end.
Proof.
  revert w. induction gcode as [| c rest IH]; intros w R; cbn [foldM].
  - exact R.
  - destruct w as [h b]. cbn [snd] in R.
    destruct (model_handle_command_reachable h b c R) as (h' & m' & _ & H).
    destruct (handle_command (h, b) c) as [w1 | e]; cbn [bind].
    + apply IH. exact H.
    + apply (step_error_is_build_error _ _ _ _ H).
Qed.

Lemma reachable_inv_init : spec_model.reachable_inv ModelBuilder_init.
Proof.
  split; [repeat split |]. split; [intros z l [] |].
  split; [split; [cbn; unfold lru_maxsize; lia | intros z l []] |].
  split; [reflexivity |]. split; [intros l L; cbn in L; lia |].
  intros _. reflexivity.
Qed.

Lemma run_commands_reachable (h : Heap) (gcode : list Command) :
  match run_commands h gcode with
  | Ok (_, b) => spec_model.reachable_inv b
  | Raise e => spec_model.is_build_error e
  end.
Proof.
  pose proof (foldM_handle_command_reachable gcode (h, ModelBuilder_init)
                reachable_inv_init) as H.
  unfold run_commands.
  destruct (foldM handle_command gcode (h, ModelBuilder_init)) as [[h' b] | e];
    exact H.
Qed.

(** *** The last two loops of [build_model] never raise *)

Lemma foldM_total {A S : Type} (f : S -> A -> result S) (P : S -> Prop)
      (Q : A -> Prop) :
  (forall s a, P s -> Q a -> exists s', f s a = Ok s' /\ P s') ->
  forall xs s, Forall Q xs -> P s -> exists s', foldM f xs s = Ok s' /\ P s'.
Proof.
  intros Step xs. induction xs as [| x xs IH]; intros s F H; cbn [foldM].
  - exists s. split; [reflexivity | exact H].
  - inversion F as [| ? ? Qx Qxs]; subst.
    destruct (Step s x H Qx) as (s' & E & H'). rewrite E. cbn [bind].
    apply IH; assumption.
Qed.

Lemma add_padding_total (p : Path) (len : Q) :
  (2 <= length p)%nat ->
  exists p', add_padding p len = Ok p' /\ length p' = length p.
Proof.
  destruct p as [| a [| b rest]]; cbn [length]; try lia. intros _.
  destruct (@exists_last _ (b :: rest)) as (mid & c & E); [discriminate |].
  unfold add_padding.
  rewrite getitem_0, getitem_1. cbn [bind]. rewrite setitem_0. cbn [bind].
  rewrite E.
  destruct (@exists_last _ (shifted a b len :: mid)) as (pre & d & E');
    [discriminate |].
  change (shifted a b len :: mid ++ [c]) with ((shifted a b len :: mid) ++ [c]).
  rewrite E'. rewrite getitem_last. cbn [bind].
  rewrite <- app_assoc. cbn [app]. rewrite getitem_second_last. cbn [bind].
  change (pre ++ [d; c]) with (pre ++ [d] ++ [c]). rewrite app_assoc.
  rewrite setitem_last. eexists. split; [reflexivity |].
  apply (f_equal (@length _)) in E, E'. cbn [length] in E, E'.
  rewrite !length_app in *. cbn [length] in *. lia.
Qed.

Lemma mapM_add_padding_total (len : Q) (ps : list Path) :
  Forall (fun p => (2 <= length p)%nat) ps ->
  exists ps', mapM (fun p => add_padding p len) ps = Ok ps'
              /\ Forall (fun p => (2 <= length p)%nat) ps'.
Proof.
  induction 1 as [| p ps Hp _ IH]; cbn [mapM].
  - exists []. split; [reflexivity | constructor].
  - destruct (add_padding_total p len Hp) as (p' & E & L).
    destruct IH as (ps' & E' & F').
    rewrite E. cbn [bind]. rewrite E'. cbn [bind].
    eexists. split; [reflexivity |]. constructor; [lia | exact F'].
Qed.

Local Abbreviation paths_ok ls :=
  (Forall (fun layer => Forall (fun p : Path => (2 <= length p)%nat) (paths layer)) ls).

Lemma pad_layer_total (nozzle_diam : Q) (n : nat) (ls : list Layer) (l : LayerId) :
  length ls = n /\ paths_ok ls -> (l < n)%nat ->
  exists ls', pad_layer nozzle_diam ls l = Ok ls'
              /\ length ls' = n /\ paths_ok ls'.
Proof.
  intros [Len F] L. unfold pad_layer, deref.
  destruct (nth_error ls l) as [layer |] eqn:E.
  2: { apply nth_error_None in E. lia. }
  cbn [bind].
  assert (Fl : Forall (fun p : Path => (2 <= length p)%nat) (paths layer)).
  { rewrite Forall_forall in F. apply F. apply nth_error_In with l. exact E. }
  destruct (mapM_add_padding_total (nozzle_diam / 2) (paths layer) Fl)
    as (padded & EP & FP).
  rewrite EP. cbn [bind]. eexists. split; [reflexivity |].
  split; [rewrite update_nth_length; exact Len |].
  apply update_nth_Forall; [exact F |]. intros x _. exact FP.
Qed.

Lemma set_statistics_total (b : ModelBuilder) (n : nat) (ls : list Layer)
      (l : LayerId) :
  length ls = n ->
  (l < n)%nat /\ (exists ts fs,
                    dict_get Nat.eqb l (layer_to_temperatures b) = Some ts
                    /\ dict_get Nat.eqb l (layer_to_feedrates b) = Some fs
                    /\ ts <> [] /\ fs <> []) ->
  exists ls', set_statistics b ls l = Ok ls' /\ length ls' = n.
Proof.
  intros Len (L & ts & fs & Et & Ef & Nt & Nf). unfold set_statistics, deref.
  destruct (nth_error ls l) as [layer |] eqn:E.
  2: { apply nth_error_None in E. lia. }
  cbn [bind]. unfold dict_item. rewrite Et, Ef.
  destruct ts as [| t0 ts]; [contradiction |].
  destruct fs as [| f0 fs]; [contradiction |].
  cbn [bind py_min py_max mean].
  eexists. split; [reflexivity |]. rewrite update_nth_length. exact Len.
Qed.

Lemma finish_total (b : ModelBuilder) (nozzle_diam : Q) :
  spec_model.reachable_inv b -> exists m, finish b nozzle_diam = Ok m.
Proof.
  intros (Idx & Keys & C & Skip & All & Last).
  assert (Bound : Forall (fun l => (l < length (layers b))%nat)
                         (dict_values (z_to_layer b))).
  { apply Forall_forall. intros l I. unfold spec_model.index_ok in Idx.
    destruct (_is_after_post_priming_descent b).
    - destruct Idx as (_ & _ & Vals & L1). rewrite Vals in I.
      apply in_seq in I. lia.
    - destruct Idx as (_ & _ & Vals). rewrite Vals in I.
      apply in_seq in I. lia. }
  assert (Paths : paths_ok (layers b)).
  { apply Forall_forall. intros layer I.
    apply In_nth_error in I. destruct I as [l E].
    assert (L : (l < length (layers b))%nat)
      by (apply nth_error_Some; congruence).
    destruct (All l L) as (layer' & ts & fs & H1 & _ & _ & _ & _ & _ & H7).
    rewrite E in H1. injection H1 as <-. exact H7. }
  unfold finish.
  destruct (foldM_total (pad_layer nozzle_diam)
              (fun ls => length ls = length (layers b) /\ paths_ok ls)
              (fun l => (l < length (layers b))%nat)
              (fun s a => pad_layer_total nozzle_diam (length (layers b)) s a)
              (dict_values (z_to_layer b)) (layers b) Bound
              (conj eq_refl Paths))
    as (ls1 & E1 & Len1 & _).
  rewrite E1. cbn [bind].
  assert (Samples :
    Forall (fun l => (l < length (layers b))%nat
                     /\ exists ts fs,
                          dict_get Nat.eqb l (layer_to_temperatures b) = Some ts
                          /\ dict_get Nat.eqb l (layer_to_feedrates b) = Some fs
                          /\ ts <> [] /\ fs <> [])
           (dict_values (z_to_layer b))).
  { rewrite Forall_forall in *. intros l I. split; [apply Bound; exact I |].
    destruct (All l (Bound l I))
      as (layer & ts & fs & _ & H2 & H3 & H4 & H5 & H6 & _).
    exists ts, fs. split; [exact H2 |]. split; [exact H3 |].
    specialize (H6 eq_refl).
    split; intros ->; simpl in *; lia. }
  destruct (foldM_total (set_statistics b)
              (fun ls => length ls = length (layers b)) _
              (fun s a => set_statistics_total b (length (layers b)) s a)
              (dict_values (z_to_layer b)) ls1 Samples Len1)
    as (ls2 & E2 & _).
  rewrite E2. cbn [bind]. eexists. reflexivity.
Qed.

(** X11. [build_model] fails only while it handles the commands: once the
    last command is handled, padding and statistics never raise and a model
    is returned.  A failing command fails with TypeError, KeyError,
    PostPrimingDescentError or LateEffectorDescentError, and with nothing
    else. *)
Theorem build_model_fails_only_in_commands
        (h : Heap) (gcode : list Command) (nozzle_diam : Q) :
  match run_commands h gcode with
  | Ok (h', b) => exists m, build_model h gcode nozzle_diam = Ok (h', m)
  | Raise e =>
      build_model h gcode nozzle_diam = Raise e /\ spec_model.is_build_error e
  end.
Proof.
  pose proof (run_commands_reachable h gcode) as R. unfold build_model.
  destruct (run_commands h gcode) as [[h' b] | e]; cbn [bind].
  - destruct (finish_total b nozzle_diam R) as [m E]. rewrite E. cbn [bind].
    exists m. reflexivity.
  - split; [reflexivity | exact R].
Qed.

(** X12. After any commands the builder handled without error, every layer
    object it created (the priming layer included) has exactly one
    temperature sample and one feedrate sample per segment and at least one
    segment, and each of its paths has two points or more. *)
Theorem samples_match_segments (h : Heap) (gcode : list Command) :
  match run_commands h gcode with
  | Ok (_, b) =>
      forall l layer,
        nth_error (layers b) l = Some layer ->
        exists ts fs,
          dict_get Nat.eqb l (layer_to_temperatures b) = Some ts
          /\ dict_get Nat.eqb l (layer_to_feedrates b) = Some fs
          /\ length ts = spec_model.segments layer
          /\ length fs = spec_model.segments layer
          /\ (1 <= spec_model.segments layer)%nat
          /\ Forall (fun p => (2 <= length p)%nat) (paths layer)
  | Raise _ => True
  end.
Proof.
  pose proof (run_commands_reachable h gcode) as R.
  destruct (run_commands h gcode) as [[h' b] | e]; [| exact I].
  destruct R as (_ & _ & _ & _ & All & _).
  intros l layer E.
  assert (L : (l < length (layers b))%nat) by (apply nth_error_Some; congruence).
  destruct (All l L) as (layer' & ts & fs & H1 & H2 & H3 & H4 & H5 & H6 & H7).
  rewrite E in H1. injection H1 as <-.
  specialize (H6 eq_refl).
  exists ts, fs. repeat split; try assumption; lia.
Qed.

(** X13. The errors of one more command, for a builder that has handled
    any commands without error.  The machine accepts the command.  The
    builder raises TypeError only for an arc move (G2, G3); KeyError only
    when it has no layer yet and the move prints below Z = 0;
    PostPrimingDescentError only after a priming layer was detected, and
    LateEffectorDescentError only before that and with two layers or more,
    both only for a move that prints below the Z of the last printing
    move. *)
Theorem handle_command_errors
        (h : Heap) (gcode : list Command) (h1 : Heap) (b : ModelBuilder)
        (c : Command) :
  run_commands h gcode = Ok (h1, b) ->
  exists h' m',
    machine.handle_command c (h1, machine b) = Ok (h', m')
    /\ match handle_command (h1, b) c with
       | Ok _ => True
       | Raise e =>
           (e = TypeError /\ spec_model.is_arc c = true)
           \/ spec_model.descent_error
                b (p_z (position_abs h' (state_current m'))) e
       end.
Proof.
  intros Run. pose proof (run_commands_reachable h gcode) as R.
  rewrite Run in R.
  destruct (model_handle_command_reachable h1 b c R) as (h' & m' & E & H).
  exists h', m'. split; [exact E |].
  destruct (handle_command (h1, b) c); [exact I | exact H].
Qed.

(** X14. Until a priming layer is detected, the cache of [get_layer_at_z]
    changes no result: the decorated method and its body return the same
    layer and builders that differ in the cache only, or raise the same
    error. *)
Theorem cache_is_transparent_before_priming
        (h : Heap) (gcode : list Command) (h1 : Heap) (b : ModelBuilder) (z : Q) :
  run_commands h gcode = Ok (h1, b) ->
  _is_after_post_priming_descent b = false ->
  match get_layer_at_z_body b z, get_layer_at_z b z with
  | Ok (b1, l1), Ok (b2, l2) => l1 = l2 /\ spec_model.same_but_cache b1 b2
  | Raise e1, Raise e2 => e1 = e2
  | _, _ => False
  end.
Proof.
  intros Run Flag. pose proof (run_commands_reachable h gcode) as R.
  rewrite Run in R. destruct R as (_ & _ & (_ & CEnt) & _).
  unfold get_layer_at_z.
  destruct (dict_pop Qeq_bool z (lru_cache b)) as [[cached others] |] eqn:Pop.
  - destruct (dict_pop_entries _ _ _ _ _ Pop) as ((k & I & E) & _ & _).
    destruct (CEnt k cached I) as [_ T]. specialize (T Flag).
    rewrite <- (dict_get_Qeq z k) in T by exact E.
    unfold get_layer_at_z_body. rewrite T. split; reflexivity.
  - destruct (get_layer_at_z_body b z) as [[b1 t] | e]; cbn [bind].
    + split; reflexivity.
    + reflexivity.
Qed.

End BuilderFacts.

(** X13 at a concrete input: after a travel move to Z = -1 on a new
    builder, an extruding move is refused for one of the reasons listed. *)
Lemma handle_command_errors_witness :
  match model.run_commands (N := rational_numerics.numerics)
          process_start [travel_z (-1)] with
  | Ok (h1, b) =>
      exists h' m',
        machine.handle_command (extrude_x 1 1) (h1, model.machine b) = Ok (h', m')
        /\ match model.handle_command (N := rational_numerics.numerics)
                   (h1, b) (extrude_x 1 1) with
           | Ok _ => True
           | Raise e =>
               (e = TypeError /\ spec_model.is_arc (extrude_x 1 1) = true)
               \/ spec_model.descent_error
                    b (p_z (position_abs h' (state_current m'))) e
           end
  | Raise _ => False
  end.
Proof.
  destruct (model.run_commands (N := rational_numerics.numerics)
              process_start [travel_z (-1)]) as [[h1 b] | e] eqn:Run.
  - exact (@handle_command_errors rational_numerics.numerics process_start
             [travel_z (-1)] h1 b (extrude_x 1 1) Run).
  - vm_compute in Run. discriminate Run.
Defined.

(** X14 at a concrete input: after the first layer of [two_layers], asking
    for the layer at Z = 0.2 again. *)
Lemma cache_is_transparent_before_priming_witness :
  match model.run_commands (N := rational_numerics.numerics)
          process_start [travel_z (1 # 5); extrude_x 1 1] with
  | Ok (h1, b) =>
      match model.get_layer_at_z_body b (to_double (1 # 5)),
            model.get_layer_at_z b (to_double (1 # 5)) with
      | Ok (b1, l1), Ok (b2, l2) => l1 = l2 /\ spec_model.same_but_cache b1 b2
      | Raise e1, Raise e2 => e1 = e2
      | _, _ => False
      end
  | Raise _ => False
  end.
Proof.
  destruct (model.run_commands (N := rational_numerics.numerics)
              process_start [travel_z (1 # 5); extrude_x 1 1])
    as [[h1 b] | e] eqn:Run.
  - apply (@cache_is_transparent_before_priming rational_numerics.numerics
             process_start [travel_z (1 # 5); extrude_x 1 1] h1 b
             (to_double (1 # 5)) Run).
    vm_compute in Run. injection Run as _ <-. reflexivity.
  - vm_compute in Run. discriminate Run.
Defined.

(** ** [Model]: the index of the layers *)

Lemma insert_by_z_perm (item : nat * Q) (sorted : list (nat * Q)) :
  Permutation (model.insert_by_z item sorted) (item :: sorted).
Proof.
  induction sorted as [| head rest IH]; cbn [model.insert_by_z].
  - apply Permutation_refl.
  - match goal with |- context [if ?c then _ else _] => destruct c end.
    + apply Permutation_refl.
    + apply perm_trans with (head :: item :: rest);
        [apply perm_skip; exact IH | apply perm_swap].
Qed.

Lemma sorted_by_z_perm (items : list (nat * Q)) :
  Permutation (model.sorted_by_z items) items.
Proof.
  unfold model.sorted_by_z.
  assert (G : forall acc,
             Permutation
               (fold_left (fun acc item => model.insert_by_z item acc) items acc)
               (items ++ acc)).
  { induction items as [| item items IH]; intros acc; cbn [fold_left app].
    - apply Permutation_refl.
    - apply perm_trans with (items ++ model.insert_by_z item acc); [apply IH |].
      apply perm_trans with (items ++ item :: acc).
      + apply Permutation_app_head. apply insert_by_z_perm.
      + apply Permutation_sym. apply Permutation_middle. }
  specialize (G []). rewrite app_nil_r in G. exact G.
Qed.

Lemma insert_by_z_ascending (item : nat * Q) (sorted : list (nat * Q)) :
  spec_model.ascending (map snd sorted) ->
  spec_model.ascending (map snd (model.insert_by_z item sorted)).
Proof.
  induction sorted as [| head rest IH]; cbn [model.insert_by_z].
  - intros _. cbn. split; [constructor | exact I].
  - intros [Hd Tl].
    match goal with |- context [if ?c then _ else _] => destruct c eqn:B end.
    + apply Qlt_bool_true in B.
      cbn [map spec_model.ascending]. split; [| split; assumption].
      constructor; [apply Qlt_le_weak; exact B |].
      rewrite Forall_forall in *. intros z Hz.
      apply Qle_trans with (snd head);
        [apply Qlt_le_weak; exact B | apply Hd; exact Hz].
    + apply Qlt_bool_false in B.
      cbn [map spec_model.ascending]. split; [| apply IH; exact Tl].
      rewrite Forall_forall in *. intros z Hz.
      apply in_map_iff in Hz. destruct Hz as (x & <- & Hx).
      apply insert_by_z_in in Hx. destruct Hx as [-> | Hx]; [exact B |].
      apply Hd. apply in_map. exact Hx.
Qed.

Lemma sorted_by_z_ascending (items : list (nat * Q)) :
  spec_model.ascending (map snd (model.sorted_by_z items)).
Proof.
  unfold model.sorted_by_z.
  assert (G : forall acc,
             spec_model.ascending (map snd acc) ->
             spec_model.ascending
               (map snd (fold_left (fun acc item => model.insert_by_z item acc)
                                   items acc))).
  { induction items as [| item items IH]; intros acc A; cbn [fold_left].
    - exact A.
    - apply IH. apply insert_by_z_ascending. exact A. }
  apply G. exact I.
Qed.

Lemma ascending_nth (zs : list Q) (i j : nat) (a b : Q) :
  spec_model.ascending zs -> (i <= j)%nat ->
  nth_error zs i = Some a -> nth_error zs j = Some b -> a <= b.
Proof.
  revert i j. induction zs as [| z rest IH]; intros i j A L Ei Ej.
  - destruct i; discriminate Ei.
  - destruct A as [Hd Tl]. destruct i as [| i], j as [| j]; cbn in Ei, Ej.
    + injection Ei as <-. injection Ej as <-. apply Qle_refl.
    + injection Ei as <-. rewrite Forall_forall in Hd. apply Hd.
      apply nth_error_In with j. exact Ej.
    + lia.
    + apply (IH i j Tl); [lia | exact Ei | exact Ej].
Qed.

Lemma dict_get_enumerate {A : Type} (l : list A) (s i : nat) :
  dict_get Nat.eqb i (combine (seq s (length l)) l)
  = if (s <=? i)%nat then nth_error l (i - s) else None.
Proof.
  revert s. induction l as [| x l IH]; intros s; cbn [length seq combine dict_get].
  - destruct (s <=? i)%nat; [destruct (i - s)%nat |]; reflexivity.
  - destruct (Nat.eqb i s) eqn:E.
    + apply Nat.eqb_eq in E. subst i. rewrite Nat.leb_refl, Nat.sub_diag.
      reflexivity.
    + apply Nat.eqb_neq in E. rewrite IH.
      destruct (Nat.leb_spec s i) as [L1 | L1],
               (Nat.leb_spec (S s) i) as [L2 | L2]; try lia.
      * replace (i - s)%nat with (S (i - S s)) by lia. reflexivity.
      * reflexivity.
Qed.

Lemma dict_get_NoDup {V : Type} (d : dict nat V) (k : nat) (v : V) :
  NoDup (map fst d) -> In (k, v) d -> dict_get Nat.eqb k d = Some v.
Proof.
  induction d as [| [k0 v0] d IH]; intros ND I; [destruct I |].
  cbn [map fst] in ND. inversion ND as [| ? ? NI ND']; subst.
  cbn [dict_get]. destruct I as [E | I].
  - injection E as -> ->. rewrite Nat.eqb_refl. reflexivity.
  - destruct (Nat.eqb k k0) eqn:E.
    + apply Nat.eqb_eq in E. subst k0. exfalso. apply NI.
      apply in_map_iff. exists (k, v). split; [reflexivity | exact I].
    + apply IH; assumption.
Qed.

(** [get_layer_z] reads the Z of the entry the sorted items have at the
    position of the index. *)
Lemma get_layer_z_nth (d : dict model.LayerId Q) (nozzle_diam : Q)
      (p : option model.LayerId) (pz : option Q) (objects : list Layer) (i : nat) :
  NoDup (map fst d) ->
  model.get_layer_z (model.Model_init d nozzle_diam p pz objects) i
  = match (if (1 <=? i)%nat
           then nth_error (map snd (model.sorted_by_z d)) (i - 1) else None) with
    | Some z => Ok z
    | None => Raise KeyError
    end.
Proof.
  intros ND. unfold model.get_layer_z, model.Model_init, dict_item.
  cbn [model.index_to_layer model._layer_to_z].
  rewrite dict_get_enumerate.
  destruct (1 <=? i)%nat; [| reflexivity].
  rewrite !nth_error_map.
  destruct (nth_error (model.sorted_by_z d) (i - 1)) as [[l z] |] eqn:E;
    cbn [option_map bind fst snd]; [| reflexivity].
  rewrite (dict_get_NoDup d l z ND); [reflexivity |].
  apply (Permutation_in _ (sorted_by_z_perm d)).
  apply nth_error_In with (i - 1)%nat. exact E.
Qed.

(** X15. [Model] numbers its layers from 1 in the order of their Z: for a
    dictionary of n layers, [get_layer_z] returns for exactly the indices
    1..n and raises KeyError for every other index, index 0 included; the Z
    it returns never decreases as the index grows; and every layer of the
    dictionary has an index that returns its Z. *)
Theorem model_index_is_sorted
        (d : dict model.LayerId Q) (nozzle_diam : Q)
        (p : option model.LayerId) (pz : option Q) (objects : list Layer) :
  NoDup (map fst d) ->
  let m := model.Model_init d nozzle_diam p pz objects in
  (forall i, (1 <= i <= length d)%nat -> exists z, model.get_layer_z m i = Ok z)
  /\ (forall i, (i = 0 \/ length d < i)%nat ->
                model.get_layer_z m i = Raise KeyError)
  /\ (forall i j zi zj,
        (i <= j)%nat ->
        model.get_layer_z m i = Ok zi -> model.get_layer_z m j = Ok zj ->
        zi <= zj)
  /\ (forall l z, In (l, z) d ->
                  exists i, (1 <= i <= length d)%nat
                            /\ dict_get Nat.eqb i (model.index_to_layer m) = Some l
                            /\ model.get_layer_z m i = Ok z).
Proof.
  intros ND m.
  assert (Len : length (map snd (model.sorted_by_z d)) = length d).
  { rewrite length_map. apply Permutation_length. apply sorted_by_z_perm. }
  assert (Get := fun i => get_layer_z_nth d nozzle_diam p pz objects i ND).
  fold m in Get.
  split; [| split; [| split]].
  - intros i L. rewrite Get.
    destruct (1 <=? i)%nat eqn:B; [| apply Nat.leb_gt in B; lia].
    destruct (nth_error (map snd (model.sorted_by_z d)) (i - 1)) as [z |] eqn:E.
    + exists z. reflexivity.
    + apply nth_error_None in E. lia.
  - intros i L. rewrite Get.
    destruct (1 <=? i)%nat eqn:B; [| reflexivity].
    apply Nat.leb_le in B.
    destruct (nth_error (map snd (model.sorted_by_z d)) (i - 1)) as [z |] eqn:E;
      [| reflexivity].
    assert (i - 1 < length (map snd (model.sorted_by_z d)))%nat
      by (apply nth_error_Some; congruence).
    lia.
  - intros i j zi zj L. rewrite !Get.
    destruct (1 <=? i)%nat eqn:Bi; [| discriminate].
    destruct (1 <=? j)%nat eqn:Bj; [| discriminate].
    destruct (nth_error (map snd (model.sorted_by_z d)) (i - 1)) as [a |] eqn:Ei;
      [| discriminate].
    destruct (nth_error (map snd (model.sorted_by_z d)) (j - 1)) as [b |] eqn:Ej;
      [| discriminate].
    intros Hi Hj. injection Hi as <-. injection Hj as <-.
    apply (ascending_nth _ (i - 1) (j - 1) a b (sorted_by_z_ascending d));
      [lia | exact Ei | exact Ej].
  - intros l z I.
    apply (Permutation_in _ (Permutation_sym (sorted_by_z_perm d))) in I.
    apply In_nth_error in I. destruct I as [k E].
    assert (K : (k < length (model.sorted_by_z d))%nat)
      by (apply nth_error_Some; congruence).
    rewrite length_map in Len.
    exists (S k). split; [lia |]. split.
    + unfold m, model.Model_init. cbn [model.index_to_layer].
      rewrite dict_get_enumerate. cbn [Nat.leb].
      replace (S k - 1)%nat with k by lia.
      rewrite nth_error_map, E. reflexivity.
    + rewrite Get. cbn [Nat.leb]. replace (S k - 1)%nat with k by lia.
      rewrite nth_error_map, E. reflexivity.
Qed.

(** X15 at a concrete input: two layers given in descending order of Z. *)
Lemma model_index_is_sorted_witness :
  let m := model.Model_init [(0%nat, 2 # 5); (1%nat, 1 # 5)] (2 # 5) None None
                            [Layer_init; Layer_init] in
  (forall i, (1 <= i <= 2)%nat -> exists z, model.get_layer_z m i = Ok z)
  /\ (forall i, (i = 0 \/ 2 < i)%nat -> model.get_layer_z m i = Raise KeyError)
  /\ (forall i j zi zj,
        (i <= j)%nat ->
        model.get_layer_z m i = Ok zi -> model.get_layer_z m j = Ok zj ->
        zi <= zj)
  /\ (forall l z, In (l, z) [(0%nat, 2 # 5); (1%nat, 1 # 5)] ->
                  exists i, (1 <= i <= 2)%nat
                            /\ dict_get Nat.eqb i (model.index_to_layer m) = Some l
                            /\ model.get_layer_z m i = Ok z).
Proof.
  apply (model_index_is_sorted [(0%nat, 2 # 5); (1%nat, 1 # 5)] (2 # 5) None None
           [Layer_init; Layer_init]).
  repeat constructor; simpl; intuition discriminate.
Defined.

Lemma dict_get_absent {V : Type} (d : dict nat V) (k : nat) :
  ~ In k (map fst d) -> dict_get Nat.eqb k d = None.
Proof.
  induction d as [| [k0 v0] d IH]; intros NI; [reflexivity |].
  cbn [dict_get]. destruct (Nat.eqb k k0) eqn:E.
  - apply Nat.eqb_eq in E. subst k0. exfalso. apply NI. left. reflexivity.
  - apply IH. intros I. apply NI. right. exact I.
Qed.

(** The dictionary [{layer: z for z, layer in z_to_layer.items()}]. *)
Lemma layer_to_z_swap (items : dict Q nat) (acc : dict nat Q) :
  NoDup (map fst acc ++ dict_values items) ->
  fold_left (fun d item => dict_set Nat.eqb (snd item) (fst item) d) items acc
  = acc ++ map (fun item => (snd item, fst item)) items.
Proof.
  revert acc. induction items as [| [z l] items IH]; intros acc ND;
    cbn [fold_left map fst snd].
  - rewrite app_nil_r. reflexivity.
  - cbn [dict_values map snd] in ND.
    rewrite dict_set_absent.
    2: { apply dict_get_absent. intros I.
         apply NoDup_remove_2 in ND. apply ND. apply in_or_app. left. exact I. }
    rewrite IH.
    + rewrite <- app_assoc. reflexivity.
    + rewrite map_app, <- app_assoc. exact ND.
Qed.

Section BuiltModel.
  Context {N : Numerics}.

(** X16. The model of a build indexes exactly the layers the builder holds
    in [z_to_layer] (all its layers but the priming layer), each under the
    Z the builder recorded for it, and in strictly increasing order of Z:
    of two indices, the larger one has the larger Z. *)
Theorem built_layers_strictly_ascend
        (h : Heap) (gcode : list Command) (nozzle_diam : Q) :
  match model.run_commands h gcode with
  | Ok (h', b) =>
      exists m,
        model.build_model h gcode nozzle_diam = Ok (h', m)
        /\ length (model.index_to_layer m) = length (model.z_to_layer b)
        /\ (forall i l,
              dict_get Nat.eqb i (model.index_to_layer m) = Some l ->
              exists z, In (z, l) (model.z_to_layer b)
                        /\ model.get_layer_z m i = Ok z)
        /\ (forall i j zi zj,
              (i < j)%nat ->
              model.get_layer_z m i = Ok zi -> model.get_layer_z m j = Ok zj ->
              zi < zj)
  | Raise _ => True
  end.
Proof.
  pose proof (run_commands_reachable h gcode) as R. unfold model.build_model.
  destruct (model.run_commands h gcode) as [[h' b] | e]; [| exact I].
  cbn [bind].
  destruct (finish_total b nozzle_diam R) as [m E]. rewrite E. cbn [bind].
  exists m. split; [reflexivity |].
  destruct R as (Idx & Keys & _ & _ & _ & _).
  assert (NDv : NoDup (dict_values (model.z_to_layer b))).
  { unfold spec_model.index_ok in Idx.
    destruct (model._is_after_post_priming_descent b).
    - destruct Idx as (_ & _ & -> & _). apply seq_NoDup.
    - destruct Idx as (_ & _ & ->). apply seq_NoDup. }
  unfold model.finish in E.
  apply bind_Ok_inv in E. destruct E as (ls1 & _ & E).
  apply bind_Ok_inv in E. destruct E as (ls2 & _ & E).
  rewrite (layer_to_z_swap (model.z_to_layer b) []) in E by exact NDv.
  cbn [app] in E. injection E as <-.
  set (d := map (fun item : Q * nat => (snd item, fst item)) (model.z_to_layer b)).
  assert (NDd : NoDup (map fst d)).
  { unfold d. rewrite map_map. cbn [fst]. exact NDv. }
  assert (Ind : forall l z, In (l, z) d -> In (z, l) (model.z_to_layer b)).
  { intros l z I. unfold d in I. apply in_map_iff in I.
    destruct I as ([z' l'] & E & I). cbn in E. injection E as -> ->. exact I. }
  assert (Get := fun i => get_layer_z_nth d nozzle_diam (model.priming_layer b)
                            (model.priming_layer_z b) ls2 i NDd).
  assert (P := sorted_by_z_perm d).
  split; [| split].
  - unfold model.Model_init. cbn [model.index_to_layer].
    rewrite length_combine, length_seq, Nat.min_id, length_map.
    rewrite (Permutation_length P). unfold d. apply length_map.
  - intros i l Gi. unfold model.Model_init in Gi. cbn [model.index_to_layer] in Gi.
    rewrite dict_get_enumerate in Gi.
    destruct (1 <=? i)%nat eqn:B; [| discriminate].
    rewrite nth_error_map in Gi.
    destruct (nth_error (model.sorted_by_z d) (i - 1)) as [[l' z] |] eqn:En;
      [| discriminate].
    cbn in Gi. injection Gi as ->.
    exists z. split.
    + apply Ind. apply (Permutation_in _ P).
      apply nth_error_In with (i - 1)%nat. exact En.
    + rewrite Get, B, nth_error_map, En. reflexivity.
  - intros i j zi zj L. rewrite !Get.
    destruct (1 <=? i)%nat eqn:Bi; [| discriminate].
    destruct (1 <=? j)%nat eqn:Bj; [| discriminate].
    apply Nat.leb_le in Bi, Bj.
    rewrite !nth_error_map.
    destruct (nth_error (model.sorted_by_z d) (i - 1)) as [[li a] |] eqn:Ei;
      [| discriminate].
    destruct (nth_error (model.sorted_by_z d) (j - 1)) as [[lj b0] |] eqn:Ej;
      [| discriminate].
    cbn [option_map snd]. intros Hi Hj. injection Hi as <-. injection Hj as <-.
    assert (Le : a <= b0).
    { apply (ascending_nth _ (i - 1) (j - 1) a b0 (sorted_by_z_ascending d));
        [lia | rewrite nth_error_map, Ei; reflexivity
         | rewrite nth_error_map, Ej; reflexivity]. }
    apply Qle_lt_or_eq in Le. destruct Le as [Lt | Eq]; [exact Lt |].
    exfalso.
    assert (NDs : NoDup (map fst (model.sorted_by_z d))).
    { apply (Permutation_NoDup (Permutation_sym (Permutation_map fst P))).
      exact NDd. }
    assert (Neq : li <> lj).
    { intros ->.
      assert (K : (i - 1 < length (map fst (model.sorted_by_z d)))%nat).
      { rewrite length_map. apply nth_error_Some. congruence. }
      pose proof (proj1 (NoDup_nth_error _) NDs (i - 1)%nat (j - 1)%nat K) as U.
      rewrite !nth_error_map, Ei, Ej in U. specialize (U eq_refl). lia. }
    apply Neq.
    assert (Ii : In (a, li) (model.z_to_layer b)).
    { apply Ind. apply (Permutation_in _ P).
      apply nth_error_In with (i - 1)%nat. exact Ei. }
    assert (Ij : In (b0, lj) (model.z_to_layer b)).
    { apply Ind. apply (Permutation_in _ P).
      apply nth_error_In with (j - 1)%nat. exact Ej. }
    apply Keys in Ii. apply Keys in Ij.
    rewrite (dict_get_Qeq a b0) in Ii by (apply Qeq_bool_iff; exact Eq).
    congruence.
Qed.

End BuiltModel.

(** ** The priming layer *)

Lemma foldM_app {A S : Type} (f : S -> A -> result S) (xs ys : list A) (s : S) :
  foldM f (xs ++ ys) s = (s' <- foldM f xs s ;; foldM f ys s').
Proof.
  revert s. induction xs as [| x xs IH]; intros s; cbn [app foldM bind].
  - reflexivity.
  - destruct (f s x) as [s1 | e]; cbn [bind]; [apply IH | reflexivity].
Qed.

Section Priming.
  Context {N : Numerics}.

Import model.

Local Abbreviation keeps_priming b b' :=
  (_is_after_post_priming_descent b = true ->
   _is_after_post_priming_descent b' = true
   /\ priming_layer b' = priming_layer b
   /\ priming_layer_z b' = priming_layer_z b).

Lemma get_layer_at_z_keeps_priming (b b' : ModelBuilder) (z : Q) (l : LayerId) :
  get_layer_at_z b z = Ok (b', l) -> keeps_priming b b'.
Proof.
  unfold get_layer_at_z. intros H F.
  destruct (dict_pop Qeq_bool z (lru_cache b)) as [[cached others] |].
  - injection H as <- _. cbn. repeat split. exact F.
  - apply bind_Ok_inv in H. destruct H as ([b1 t] & H1 & H).
    injection H as <- _. cbn.
    unfold get_layer_at_z_body in H1.
    destruct (dict_get Qeq_bool z (z_to_layer b)) as [t' |].
    + injection H1 as <- _. repeat split. exact F.
    + apply bind_Ok_inv in H1. destruct H1 as (b2 & H2 & H1).
      injection H1 as <- _. cbn.
      destruct (Qlt_bool z (_last_layer_z b)).
      * rewrite F in H2. discriminate H2.
      * injection H2 as <-. repeat split. exact F.
Qed.

Lemma model_handle_move_keeps_priming (h : Heap) (b b' : ModelBuilder)
      (c : Command) :
  _handle_move h b c = Ok b' -> keeps_priming b b'.
Proof.
  unfold _handle_move. intros H F.
  destruct (negb (isinstance_Move c)); [discriminate |].
  destruct (is_layer_printing_move h (machine b) c);
    [| injection H as <-; repeat split; exact F].
  apply bind_Ok_inv in H. destruct H as ([b1 t] & H1 & H).
  destruct (get_layer_at_z_keeps_priming _ _ _ _ H1 F) as (F1 & P1 & Z1).
  apply bind_Ok_inv in H. destruct H as (b2 & H2 & H).
  apply bind_Ok_inv in H. destruct H as (temps & _ & H).
  apply bind_Ok_inv in H. destruct H as (feeds & _ & H).
  injection H as <-. cbn.
  assert (K : _is_after_post_priming_descent b2 = _is_after_post_priming_descent b1
              /\ priming_layer b2 = priming_layer b1
              /\ priming_layer_z b2 = priming_layer_z b1).
  { destruct c; try (injection H2 as <-; repeat split);
      try (unfold add_segment in H2;
           apply bind_Ok_inv in H2; destruct H2 as (layer & _ & H2);
           apply bind_Ok_inv in H2; destruct H2 as (layer' & _ & H2);
           injection H2 as <-; repeat split);
      destruct (am_i p), (am_j p); discriminate. }
  destruct K as (-> & -> & ->). repeat split; assumption.
Qed.

Lemma model_handle_command_keeps_priming (w w' : Heap * ModelBuilder)
      (c : Command) :
  handle_command w c = Ok w' -> keeps_priming (snd w) (snd w').
Proof.
  destruct w as [h b]. unfold handle_command. intros H F. cbn [snd] in *.
  apply bind_Ok_inv in H. destruct H as ([h1 m1] & _ & H).
  destruct (isinstance_Move c).
  - apply bind_Ok_inv in H. destruct H as (b1 & H1 & H).
    injection H as <-. cbn [snd].
    apply (model_handle_move_keeps_priming _ _ _ _ H1). exact F.
  - injection H as <-. repeat split. exact F.
Qed.

Lemma foldM_handle_command_keeps_priming (gcode : list Command)
      (w w' : Heap * ModelBuilder) :
  foldM handle_command gcode w = Ok w' -> keeps_priming (snd w) (snd w').
Proof.
  revert w. induction gcode as [| c rest IH]; intros w H F.
  - injection H as <-. repeat split. exact F.
  - cbn [foldM] in H. apply bind_Ok_inv in H. destruct H as (w1 & H1 & H).
    destruct (model_handle_command_keeps_priming _ _ _ H1 F) as (F1 & P1 & Z1).
    destruct (IH w1 H F1) as (F2 & P2 & Z2).
    split; [exact F2 |]. split; congruence.
Qed.

(** X17. There is at most one priming layer per build, and it is the first
    layer object that was created: once a priming layer is detected, the
    commands that follow (as long as none fails) leave the priming layer and
    its Z as they are, whatever descents they contain. *)
Theorem priming_layer_is_permanent
        (h : Heap) (before after : list Command)
        (h1 h2 : Heap) (b1 b2 : ModelBuilder) :
  run_commands h before = Ok (h1, b1) ->
  run_commands h (before ++ after) = Ok (h2, b2) ->
  _is_after_post_priming_descent b1 = true ->
  priming_layer b1 = Some 0%nat
  /\ _is_after_post_priming_descent b2 = true
  /\ priming_layer b2 = priming_layer b1
  /\ priming_layer_z b2 = priming_layer_z b1.
Proof.
  intros Run1 Run2 F.
  pose proof (run_commands_reachable h before) as R. rewrite Run1 in R.
  destruct R as (Idx & _). unfold spec_model.index_ok in Idx. rewrite F in Idx.
  split; [exact (proj1 Idx) |].
  unfold run_commands in *. rewrite foldM_app, Run1 in Run2. cbn [bind] in Run2.
  exact (foldM_handle_command_keeps_priming after (h1, b1) (h2, b2) Run2 F).
Qed.

End Priming.

(** X17 at a concrete input: [priming], then a layer at Z = 0.2 and the
    return to the Z of the priming layer. *)
Lemma priming_layer_is_permanent_witness :
  match model.run_commands (N := rational_numerics.numerics) process_start priming,
        model.run_commands (N := rational_numerics.numerics) process_start
                           back_to_priming_z with
  | Ok (_, b1), Ok (_, b2) =>
      model.priming_layer b1 = Some 0%nat
      /\ model._is_after_post_priming_descent b2 = true
      /\ model.priming_layer b2 = model.priming_layer b1
      /\ model.priming_layer_z b2 = model.priming_layer_z b1
  | _, _ => False
  end.
Proof.
  destruct (model.run_commands (N := rational_numerics.numerics)
              process_start priming) as [[h1 b1] | e1] eqn:Run1.
  - destruct (model.run_commands (N := rational_numerics.numerics)
                process_start back_to_priming_z) as [[h2 b2] | e2] eqn:Run2.
    + apply (@priming_layer_is_permanent rational_numerics.numerics
               process_start priming
               [travel_z (1 # 5); extrude_x 3 3; travel_z (1 # 10)]
               h1 h2 b1 b2 Run1 Run2).
      vm_compute in Run1. injection Run1 as _ <-. reflexivity.
    + vm_compute in Run2. discriminate Run2.
  - vm_compute in Run1. discriminate Run1.
Defined.

(** ** Bounding boxes *)

Import boundaries.

Lemma py_min_map {A : Type} (f : A -> Q) (x : A) (xs : list A) :
  exists m, model.py_min (map f (x :: xs)) = Ok m
            /\ (forall a, In a (x :: xs) -> m <= f a)
            /\ exists a, In a (x :: xs) /\ f a = m.
Proof.
  destruct (model.py_min (map f (x :: xs))) as [m | e] eqn:E; [| discriminate E].
  exists m. split; [reflexivity |].
  destruct (py_min_is_min _ _ E) as (m' & Em & I & L). injection Em as <-.
  split.
  - intros a Ia. apply L. apply in_map. exact Ia.
  - apply in_map_iff in I. destruct I as (a & Ea & Ia). exists a.
    split; assumption.
Qed.

Lemma py_max_map {A : Type} (f : A -> Q) (x : A) (xs : list A) :
  exists m, model.py_max (map f (x :: xs)) = Ok m
            /\ (forall a, In a (x :: xs) -> f a <= m)
            /\ exists a, In a (x :: xs) /\ f a = m.
Proof.
  destruct (model.py_max (map f (x :: xs))) as [m | e] eqn:E; [| discriminate E].
  exists m. split; [reflexivity |].
  destruct (py_max_is_max _ _ E) as (m' & Em & I & L). injection Em as <-.
  split.
  - intros a Ia. apply L. apply in_map. exact Ia.
  - apply in_map_iff in I. destruct I as (a & Ea & Ia). exists a.
    split; assumption.
Qed.

Lemma layer_boundaries_facts (l : Layer) :
  match layer_boundaries.boundaries l with
  | Ok box =>
      spec_boundaries.vertices l <> []
      /\ (forall v, In v (spec_boundaries.vertices l) -> spec_boundaries.inside box v)
      /\ (exists v, In v (spec_boundaries.vertices l)
                    /\ v_x v = v_x (BoundingBox2D.point_min box))
      /\ (exists v, In v (spec_boundaries.vertices l)
                    /\ v_y v = v_y (BoundingBox2D.point_min box))
      /\ (exists v, In v (spec_boundaries.vertices l)
                    /\ v_x v = v_x (BoundingBox2D.point_max box))
      /\ (exists v, In v (spec_boundaries.vertices l)
                    /\ v_y v = v_y (BoundingBox2D.point_max box))
  | Raise e => e = ValueError /\ spec_boundaries.vertices l = []
  end.
Proof.
  unfold layer_boundaries.boundaries, spec_boundaries.vertices.
  destruct (paths l) as [| p ps]; [split; reflexivity |].
  destruct (concat (p :: ps)) as [| v0 vs]; [split; reflexivity |].
  destruct (py_min_map v_x v0 vs) as (x_min & -> & Lx & Ax).
  destruct (py_min_map v_y v0 vs) as (y_min & -> & Ly & Ay).
  destruct (py_max_map v_x v0 vs) as (x_max & -> & Ux & Bx).
  destruct (py_max_map v_y v0 vs) as (y_max & -> & Uy & By).
  cbn [bind]. split; [discriminate |]. split.
  - intros v I. unfold spec_boundaries.inside. cbn.
    repeat split; [apply Lx | apply Ux | apply Ly | apply Uy]; exact I.
  - cbn. repeat split; assumption.
Qed.

(** X18. [Layer.boundaries] raises ValueError exactly when the layer has no
    point (no path, or only empty paths).  Otherwise every point of the
    layer lies in the box it returns, and each of the four sides of the box
    passes through a point of the layer. *)
Theorem layer_boundaries_spec (l : Layer) :
  match layer_boundaries.boundaries l with
  | Ok box =>
      spec_boundaries.vertices l <> []
      /\ (forall v, In v (spec_boundaries.vertices l) -> spec_boundaries.inside box v)
      /\ (exists v, In v (spec_boundaries.vertices l)
                    /\ v_x v = v_x (BoundingBox2D.point_min box))
      /\ (exists v, In v (spec_boundaries.vertices l)
                    /\ v_y v = v_y (BoundingBox2D.point_min box))
      /\ (exists v, In v (spec_boundaries.vertices l)
                    /\ v_x v = v_x (BoundingBox2D.point_max box))
      /\ (exists v, In v (spec_boundaries.vertices l)
                    /\ v_y v = v_y (BoundingBox2D.point_max box))
  | Raise e => e = ValueError /\ spec_boundaries.vertices l = []
  end.
Proof. exact (layer_boundaries_facts l). Qed.

Lemma mapM_Ok_Forall2 {A B : Type} (f : A -> result B) (xs : list A) (ys : list B) :
  mapM f xs = Ok ys -> Forall2 (fun x y => f x = Ok y) xs ys.
Proof.
  revert ys. induction xs as [| x xs IH]; intros ys H; cbn [mapM] in H.
  - injection H as <-. constructor.
  - apply bind_Ok_inv in H. destruct H as (y & Hy & H).
    apply bind_Ok_inv in H. destruct H as (ys' & Hys & H).
    injection H as <-. constructor; [exact Hy | apply IH; exact Hys].
Qed.

Lemma mapM_Raise {A B : Type} (f : A -> result B) (xs : list A) (e : exn) :
  mapM f xs = Raise e -> exists x, In x xs /\ f x = Raise e.
Proof.
  induction xs as [| x xs IH]; cbn [mapM]; [discriminate |].
  destruct (f x) as [y | e'] eqn:E; cbn [bind].
  - destruct (mapM f xs) as [ys | e'']; cbn [bind]; [discriminate |].
    intros H. injection H as ->. destruct (IH eq_refl) as (x' & I & E').
    exists x'. split; [right; exact I | exact E'].
  - intros H. injection H as ->. exists x. split; [left; reflexivity | exact E].
Qed.

Lemma mapM_total {A B : Type} (f : A -> result B) (xs : list A) :
  (forall x, In x xs -> exists y, f x = Ok y) -> exists ys, mapM f xs = Ok ys.
Proof.
  intros H. destruct (mapM f xs) as [ys | e] eqn:E; [exists ys; reflexivity |].
  apply mapM_Raise in E. destruct E as (x & I & E).
  destruct (H x I) as [y Ey]. congruence.
Qed.

Lemma smaller_le (a b : Q) : smaller a b <= a /\ smaller a b <= b.
Proof.
  unfold smaller. destruct (Qlt_bool a b) eqn:B.
  - split; [apply Qle_refl | apply Qlt_le_weak, Qlt_bool_true, B].
  - split; [apply Qlt_bool_false, B | apply Qle_refl].
Qed.

Lemma larger_ge (a b : Q) : a <= larger a b /\ b <= larger a b.
Proof.
  unfold larger. destruct (Qlt_bool b a) eqn:B.
  - split; [apply Qle_refl | apply Qlt_le_weak, Qlt_bool_true, B].
  - split; [apply Qlt_bool_false, B | apply Qle_refl].
Qed.

Lemma fold_fmin_le (rest : list LVector2d) (x p : LVector2d) :
  In p (x :: rest) ->
  v_x (fold_left vec2_fmin rest x) <= v_x p
  /\ v_y (fold_left vec2_fmin rest x) <= v_y p.
Proof.
  revert x p. induction rest as [| y rest IH]; intros x p I; cbn [fold_left].
  - destruct I as [<- | []]. split; apply Qle_refl.
  - destruct (IH (vec2_fmin x y) (vec2_fmin x y) (or_introl eq_refl)) as [Hx Hy].
    cbn [vec2_fmin v_x v_y] in Hx, Hy.
    destruct I as [<- | [<- | I]].
    + split; (eapply Qle_trans; [eassumption |]); apply smaller_le.
    + split; (eapply Qle_trans; [eassumption |]); apply smaller_le.
    + apply IH. right. exact I.
Qed.

Lemma fold_fmax_ge (rest : list LVector2d) (x p : LVector2d) :
  In p (x :: rest) ->
  v_x p <= v_x (fold_left vec2_fmax rest x)
  /\ v_y p <= v_y (fold_left vec2_fmax rest x).
Proof.
  revert x p. induction rest as [| y rest IH]; intros x p I; cbn [fold_left].
  - destruct I as [<- | []]. split; apply Qle_refl.
  - destruct (IH (vec2_fmax x y) (vec2_fmax x y) (or_introl eq_refl)) as [Hx Hy].
    cbn [vec2_fmax v_x v_y] in Hx, Hy.
    destruct I as [<- | [<- | I]].
    + split; (eapply Qle_trans; [| eassumption]); apply larger_ge.
    + split; (eapply Qle_trans; [| eassumption]); apply larger_ge.
    + apply IH. right. exact I.
Qed.

Local Abbreviation layer_box objects :=
  (fun l => layer <- model.deref objects l ;;
            box_min <- layer_boundaries.boundaries layer ;;
            box_max <- layer_boundaries.boundaries layer ;;
            Ok (BoundingBox2D.point_min box_min, BoundingBox2D.point_max box_max)).

Lemma layer_box_spec (objects : list Layer) (l : model.LayerId) :
  match layer_box objects l with
  | Ok corners =>
      exists layer box,
        nth_error objects l = Some layer
        /\ layer_boundaries.boundaries layer = Ok box
        /\ corners = (BoundingBox2D.point_min box, BoundingBox2D.point_max box)
  | Raise e =>
      match nth_error objects l with
      | Some layer => e = ValueError /\ spec_boundaries.vertices layer = []
      | None => e = KeyError
      end
  end.
Proof.
  unfold model.deref. destruct (nth_error objects l) as [layer |]; cbn [bind];
    [| reflexivity].
  pose proof (layer_boundaries_facts layer) as S.
  destruct (layer_boundaries.boundaries layer) as [box | e] eqn:EB; cbn [bind].
  - exists layer, box. repeat split. exact EB.
  - exact S.
Qed.

Lemma index_to_layer_nil (d : dict model.LayerId Q) (nozzle_diam : Q)
      (p : option model.LayerId) (pz : option Q) (objects : list Layer) :
  model.index_to_layer (model.Model_init d nozzle_diam p pz objects) = []
  <-> d = [].
Proof.
  unfold model.Model_init. cbn [model.index_to_layer].
  split.
  - intros H. apply (f_equal (@length _)) in H.
    rewrite length_combine, length_seq, Nat.min_id, length_map in H.
    rewrite (Permutation_length (sorted_by_z_perm d)) in H.
    destruct d; [reflexivity | discriminate H].
  - intros ->. reflexivity.
Qed.

Lemma boundaries_without_priming_facts
        (d : dict model.LayerId Q) (nozzle_diam : Q)
        (p : option model.LayerId) (pz : option Q) (objects : list Layer) :
  let m := model.Model_init d nozzle_diam p pz objects in
  match model_boundaries.get_boundaries m false with
  | Ok box =>
      (d = [] -> box = BoundingBox3D.null_object)
      /\ (forall l z layer v,
            In (l, z) d -> nth_error objects l = Some layer ->
            In v (spec_boundaries.vertices layer) ->
            spec_boundaries.inside_xy box v
            /\ z <= v3_z (BoundingBox3D.point_max box))
      /\ v3_z (BoundingBox3D.point_min box) = 0
      /\ (d <> [] ->
          exists l, In (l, v3_z (BoundingBox3D.point_max box)) d)
  | Raise e =>
      exists l z, In (l, z) d
                  /\ match nth_error objects l with
                     | Some layer =>
                         e = ValueError /\ spec_boundaries.vertices layer = []
                     | None => e = KeyError
                     end
  end.
Proof.
  intros m. unfold model_boundaries.get_boundaries,
              model_boundaries._boundaries_without_priming.
  pose proof (index_to_layer_nil d nozzle_diam p pz objects) as Nil. fold m in Nil.
  destruct (model.index_to_layer m) as [| i0 idx].
  - assert (E : d = []) by (apply Nil; reflexivity). subst d.
    split; [reflexivity |]. split; [intros l z layer v [] |].
    split; [reflexivity | intros C; contradiction].
  - assert (NE : d <> []) by (intros E; apply Nil in E; discriminate E).
    unfold m at 1 2 3. cbn [model.layer_objects model._layer_to_z model.Model_init].
    destruct (mapM (layer_box objects) (map fst d)) as [boxes | e] eqn:EM;
      cbn [bind].
    2: { apply mapM_Raise in EM. destruct EM as (l & I & E).
         apply in_map_iff in I. destruct I as ([l' z] & <- & I).
         exists l', z. split; [exact I |].
         pose proof (layer_box_spec objects l') as S. cbn [fst] in E.
         cbv beta in S, E. rewrite E in S. exact S. }
    apply mapM_Ok_Forall2 in EM.
    destruct d as [| [l0 z0] d']; [contradiction |].
    cbn [map fst] in EM. inversion EM as [| ? b0 ? boxes' E0 EM']; subst.
    cbn [model_boundaries.reduce map bind].
    destruct (py_max_map snd (l0, z0) d') as (z_max & EZ & UZ & AZ).
    unfold dict_values. rewrite EZ. cbn [bind].
    split; [discriminate |]. split; [| split; [reflexivity |]].
    + intros l z layer v I EL IV.
      split; [| apply (UZ (l, z)); exact I].
      assert (IB : exists b, In b (b0 :: boxes') /\ layer_box objects l = Ok b).
      { assert (G : Forall2 (fun x y => layer_box objects x = Ok y)
                            (map fst ((l0, z0) :: d')) (b0 :: boxes'))
          by (constructor; assumption).
        assert (IL : In l (map fst ((l0, z0) :: d')))
          by (apply in_map_iff; exists (l, z); split; [reflexivity | exact I]).
        clear - G IL. induction G as [| x y xs ys Hxy G IH]; [destruct IL |].
        destruct IL as [-> | IL].
        - exists y. split; [left; reflexivity | exact Hxy].
        - destruct (IH IL) as (b & Ib & Eb). exists b.
          split; [right; exact Ib | exact Eb]. }
      destruct IB as (b & Ib & Eb).
      pose proof (layer_box_spec objects l) as S. cbv beta in S, Eb.
      rewrite Eb in S.
      destruct S as (layer' & box & EL' & EB & ->).
      rewrite EL in EL'. injection EL' as <-.
      pose proof (layer_boundaries_facts layer) as SB. rewrite EB in SB.
      destruct SB as (_ & In_ & _). destruct (In_ v IV) as (X1 & X2 & Y1 & Y2).
      destruct (fold_fmin_le (map fst boxes') (fst b0)
                  (BoundingBox2D.point_min box)) as [MX MY].
      { change (fst b0 :: map fst boxes') with (map fst (b0 :: boxes')).
        apply in_map_iff. eexists. split; [| exact Ib]. reflexivity. }
      destruct (fold_fmax_ge (map snd boxes') (snd b0)
                  (BoundingBox2D.point_max box)) as [NX NY].
      { change (snd b0 :: map snd boxes') with (map snd (b0 :: boxes')).
        apply in_map_iff. eexists. split; [| exact Ib]. reflexivity. }
      unfold spec_boundaries.inside_xy. cbn.
      repeat split; eapply Qle_trans; eassumption.
    + intros _. destruct AZ as ([l z] & I & E). cbn in E. subst z_max.
      exists l. exact I.
Qed.

(** X19. The box of a model without its priming layer.  For a model
    without layers it is the null box.  Otherwise, when it is returned, it
    contains in X and Y every point of every layer of the model, and in Z
    it reaches from 0 up to the largest layer Z, which is the Z of some
    layer.  It is refused with ValueError when a layer has no point. *)
Theorem boundaries_without_priming_spec
        (d : dict model.LayerId Q) (nozzle_diam : Q)
        (p : option model.LayerId) (pz : option Q) (objects : list Layer) :
  let m := model.Model_init d nozzle_diam p pz objects in
  match model_boundaries.get_boundaries m false with
  | Ok box =>
      (d = [] -> box = BoundingBox3D.null_object)
      /\ (forall l z layer v,
            In (l, z) d -> nth_error objects l = Some layer ->
            In v (spec_boundaries.vertices layer) ->
            spec_boundaries.inside_xy box v
            /\ z <= v3_z (BoundingBox3D.point_max box))
      /\ v3_z (BoundingBox3D.point_min box) = 0
      /\ (d <> [] ->
          exists l, In (l, v3_z (BoundingBox3D.point_max box)) d)
  | Raise e =>
      exists l z, In (l, z) d
                  /\ match nth_error objects l with
                     | Some layer =>
                         e = ValueError /\ spec_boundaries.vertices layer = []
                     | None => e = KeyError
                     end
  end.
Proof. exact (boundaries_without_priming_facts d nozzle_diam p pz objects). Qed.

Lemma boundaries_with_priming_facts
        (d : dict model.LayerId Q) (nozzle_diam : Q)
        (p : option model.LayerId) (pz : option Q) (objects : list Layer) :
  let m := model.Model_init d nozzle_diam p pz objects in
  match model_boundaries.get_boundaries m true,
        model_boundaries.get_boundaries m false with
  | Ok with_priming, Ok without =>
      match p with
      | None => with_priming = without
      | Some l =>
          exists layer box,
            nth_error objects l = Some layer
            /\ layer_boundaries.boundaries layer = Ok box
            /\ BoundingBox3D.point_min with_priming
               = vec3_fmin (BoundingBox3D.point_min without)
                           (vec3_of_vec2 (BoundingBox2D.point_min box) 0)
            /\ BoundingBox3D.point_max with_priming
               = vec3_fmax (BoundingBox3D.point_max without)
                           (vec3_of_vec2 (BoundingBox2D.point_max box) 0)
      end
  | Raise e, Ok _ =>
      exists l, p = Some l
                /\ match nth_error objects l with
                   | Some layer =>
                       e = ValueError /\ spec_boundaries.vertices layer = []
                   | None => e = KeyError
                   end
  | Raise e, Raise e' => e = e'
  | Ok _, Raise _ => False
  end.
Proof.
  intros m. unfold model_boundaries.get_boundaries,
              model_boundaries._boundaries_with_priming.
  unfold m at 1. cbn [model._priming_layer model.Model_init].
  destruct p as [l |].
  2: { destruct (model_boundaries._boundaries_without_priming m); reflexivity. }
  destruct (model_boundaries._boundaries_without_priming m) as [without | e];
    cbn [bind]; [| reflexivity].
  unfold m. cbn [model.layer_objects model.Model_init]. unfold model.deref.
  destruct (nth_error objects l) as [layer |] eqn:EL; cbn [bind].
  2: { exists l. split; [reflexivity |]. rewrite EL. reflexivity. }
  pose proof (layer_boundaries_facts layer) as S.
  destruct (layer_boundaries.boundaries layer) as [box | e] eqn:EB; cbn [bind].
  - exists layer, box. repeat split. exact EB.
  - exists l. split; [reflexivity |]. rewrite EL. exact S.
Qed.

(** X20. The box of a model with its priming layer.  Without priming layer
    it is the box without priming.  With one, it is refused when the box
    without priming is refused or the priming layer has no point;
    otherwise it contains the box without priming and, in X and Y, every
    point of the priming layer, and in Z it reaches from 0 or below up to
    the top of the box without priming or 0, whichever is larger: the Z of
    the priming layer is counted as 0. *)
Theorem boundaries_with_priming_spec
        (d : dict model.LayerId Q) (nozzle_diam : Q)
        (p : option model.LayerId) (pz : option Q) (objects : list Layer) :
  let m := model.Model_init d nozzle_diam p pz objects in
  match model_boundaries.get_boundaries m true,
        model_boundaries.get_boundaries m false with
  | Ok with_priming, Ok without =>
      match p with
      | None => with_priming = without
      | Some l =>
          let lo := BoundingBox3D.point_min with_priming in
          let hi := BoundingBox3D.point_max with_priming in
          (v3_x lo <= v3_x (BoundingBox3D.point_min without)
           /\ v3_y lo <= v3_y (BoundingBox3D.point_min without)
           /\ v3_x (BoundingBox3D.point_max without) <= v3_x hi
           /\ v3_y (BoundingBox3D.point_max without) <= v3_y hi)
          /\ v3_z lo = smaller (v3_z (BoundingBox3D.point_min without)) 0
          /\ v3_z hi = larger (v3_z (BoundingBox3D.point_max without)) 0
          /\ exists layer,
               nth_error objects l = Some layer
               /\ forall v, In v (spec_boundaries.vertices layer) ->
                            spec_boundaries.inside_xy with_priming v
      end
  | Raise e, Ok _ =>
      exists l, p = Some l
                /\ match nth_error objects l with
                   | Some layer =>
                       e = ValueError /\ spec_boundaries.vertices layer = []
                   | None => e = KeyError
                   end
  | Raise e, Raise e' => e = e'
  | Ok _, Raise _ => False
  end.
Proof.
  intros m.
  pose proof (boundaries_with_priming_facts d nozzle_diam p pz objects) as F.
  cbv zeta in F. fold m in F.
  destruct (model_boundaries.get_boundaries m true) as [wp | e],
           (model_boundaries.get_boundaries m false) as [wo | e']; try exact F.
  destruct p as [l |]; [| exact F].
  destruct F as (layer & box & EL & EB & Emin & Emax).
  pose proof (layer_boundaries_facts layer) as S. rewrite EB in S.
  destruct S as (_ & In_ & _).
  cbv zeta. rewrite Emin, Emax. cbn [vec3_fmin vec3_fmax vec3_of_vec2 v3_x v3_y v3_z].
  split; [| split; [reflexivity |]; split; [reflexivity |]].
  - repeat split; first [apply smaller_le | apply larger_ge].
  - exists layer. split; [exact EL |]. intros v I.
    destruct (In_ v I) as (X1 & X2 & Y1 & Y2).
    unfold spec_boundaries.inside_xy. rewrite Emin, Emax.
    cbn [vec3_fmin vec3_fmax vec3_of_vec2 v3_x v3_y v3_z].
    repeat split.
    + eapply Qle_trans; [apply smaller_le | exact X1].
    + eapply Qle_trans; [exact X2 | apply larger_ge].
    + eapply Qle_trans; [apply smaller_le | exact Y1].
    + eapply Qle_trans; [exact Y2 | apply larger_ge].
Qed.

Section BuiltBoundaries.
  Context {N : Numerics}.

Local Abbreviation has_points ls :=
  (Forall (fun layer : Layer =>
             paths layer <> []
             /\ Forall (fun p : Path => (2 <= length p)%nat) (paths layer)) ls).

Lemma mapM_add_padding_length (len : Q) (ps : list Path) :
  Forall (fun p => (2 <= length p)%nat) ps ->
  exists ps', mapM (fun p => add_padding p len) ps = Ok ps'
              /\ length ps' = length ps
              /\ Forall (fun p => (2 <= length p)%nat) ps'.
Proof.
  induction 1 as [| p ps Hp _ IH]; cbn [mapM].
  - exists []. split; [reflexivity |]. split; [reflexivity | constructor].
  - destruct (add_padding_total p len Hp) as (p' & E & L).
    destruct IH as (ps' & E' & L' & F').
    rewrite E. cbn [bind]. rewrite E'. cbn [bind].
    eexists. split; [reflexivity |]. cbn [length]. split; [lia |].
    constructor; [lia | exact F'].
Qed.

Lemma pad_layer_keeps_points (nozzle_diam : Q) (n : nat) (ls : list Layer)
      (l : model.LayerId) :
  length ls = n /\ has_points ls -> (l < n)%nat ->
  exists ls', model.pad_layer nozzle_diam ls l = Ok ls'
              /\ length ls' = n /\ has_points ls'.
Proof.
  intros [Len F] L. unfold model.pad_layer, model.deref.
  destruct (nth_error ls l) as [layer |] eqn:E.
  2: { apply nth_error_None in E. lia. }
  cbn [bind].
  assert (Fl : paths layer <> []
               /\ Forall (fun p : Path => (2 <= length p)%nat) (paths layer)).
  { rewrite Forall_forall in F. apply F. apply nth_error_In with l. exact E. }
  destruct Fl as [NE Fl].
  destruct (mapM_add_padding_length (nozzle_diam / 2) (paths layer) Fl)
    as (padded & EP & LP & FP).
  rewrite EP. cbn [bind]. eexists. split; [reflexivity |].
  split; [rewrite update_nth_length; exact Len |].
  apply update_nth_Forall; [exact F |]. intros x _. cbn [paths with_paths].
  split; [| exact FP]. intros ->. destruct (paths layer); [contradiction |].
  discriminate LP.
Qed.

Lemma set_statistics_keeps_points (b : model.ModelBuilder) (n : nat)
      (ls : list Layer) (l : model.LayerId) :
  length ls = n /\ has_points ls ->
  (l < n)%nat /\ (exists ts fs,
                    dict_get Nat.eqb l (model.layer_to_temperatures b) = Some ts
                    /\ dict_get Nat.eqb l (model.layer_to_feedrates b) = Some fs
                    /\ ts <> [] /\ fs <> []) ->
  exists ls', model.set_statistics b ls l = Ok ls'
              /\ length ls' = n /\ has_points ls'.
Proof.
  intros [Len F] (L & ts & fs & Et & Ef & Nt & Nf).
  unfold model.set_statistics, model.deref.
  destruct (nth_error ls l) as [layer |] eqn:E.
  2: { apply nth_error_None in E. lia. }
  cbn [bind]. unfold dict_item. rewrite Et, Ef.
  destruct ts as [| t0 ts]; [contradiction |].
  destruct fs as [| f0 fs]; [contradiction |].
  cbn [bind model.py_min model.py_max model.mean].
  eexists. split; [reflexivity |].
  split; [rewrite update_nth_length; exact Len |].
  apply update_nth_Forall; [exact F |]. intros x Ex. cbn [paths].
  rewrite Forall_forall in F. apply F. apply nth_error_In with l. exact Ex.
Qed.

(** The model of a build: the dictionary of the builder turned around,
    and layer objects that all have points. *)
Lemma finish_shape (b : model.ModelBuilder) (nozzle_diam : Q) :
  spec_model.reachable_inv b ->
  exists ls,
    model.finish b nozzle_diam
    = Ok (model.Model_init
            (map (fun item => (snd item, fst item)) (model.z_to_layer b))
            nozzle_diam (model.priming_layer b) (model.priming_layer_z b) ls)
    /\ length ls = length (model.layers b)
    /\ has_points ls.
Proof.
  intros (Idx & Keys & C & Skip & All & Last).
  assert (NDv : NoDup (dict_values (model.z_to_layer b))).
  { unfold spec_model.index_ok in Idx.
    destruct (model._is_after_post_priming_descent b).
    - destruct Idx as (_ & _ & -> & _). apply seq_NoDup.
    - destruct Idx as (_ & _ & ->). apply seq_NoDup. }
  assert (Bound : Forall (fun l => (l < length (model.layers b))%nat)
                         (dict_values (model.z_to_layer b))).
  { apply Forall_forall. intros l I. unfold spec_model.index_ok in Idx.
    destruct (model._is_after_post_priming_descent b).
    - destruct Idx as (_ & _ & Vals & L1). rewrite Vals in I.
      apply in_seq in I. lia.
    - destruct Idx as (_ & _ & Vals). rewrite Vals in I.
      apply in_seq in I. lia. }
  assert (Points : has_points (model.layers b)).
  { apply Forall_forall. intros layer I.
    apply In_nth_error in I. destruct I as [l E].
    assert (L : (l < length (model.layers b))%nat)
      by (apply nth_error_Some; congruence).
    destruct (All l L) as (layer' & ts & fs & H1 & _ & _ & _ & _ & H6 & H7).
    rewrite E in H1. injection H1 as <-. split; [| exact H7].
    specialize (H6 eq_refl). unfold spec_model.segments in H6.
    intros Ep. rewrite Ep in H6. cbn in H6. lia. }
  unfold model.finish.
  destruct (foldM_total (model.pad_layer nozzle_diam)
              (fun ls => length ls = length (model.layers b) /\ has_points ls)
              (fun l => (l < length (model.layers b))%nat)
              (fun s a => pad_layer_keeps_points nozzle_diam
                            (length (model.layers b)) s a)
              (dict_values (model.z_to_layer b)) (model.layers b) Bound
              (conj eq_refl Points))
    as (ls1 & E1 & Inv1).
  rewrite E1. cbn [bind].
  assert (Samples :
    Forall (fun l => (l < length (model.layers b))%nat
                     /\ exists ts fs,
                          dict_get Nat.eqb l (model.layer_to_temperatures b) = Some ts
                          /\ dict_get Nat.eqb l (model.layer_to_feedrates b) = Some fs
                          /\ ts <> [] /\ fs <> [])
           (dict_values (model.z_to_layer b))).
  { rewrite Forall_forall in *. intros l I. split; [apply Bound; exact I |].
    destruct (All l (Bound l I))
      as (layer & ts & fs & _ & H2 & H3 & H4 & H5 & H6 & _).
    exists ts, fs. split; [exact H2 |]. split; [exact H3 |].
    specialize (H6 eq_refl).
    split; intros ->; simpl in *; lia. }
  destruct (foldM_total (model.set_statistics b)
              (fun ls => length ls = length (model.layers b) /\ has_points ls) _
              (fun s a => set_statistics_keeps_points b
                            (length (model.layers b)) s a)
              (dict_values (model.z_to_layer b)) ls1 Samples Inv1)
    as (ls2 & E2 & Len2 & P2).
  rewrite E2. cbn [bind].
  rewrite (layer_to_z_swap (model.z_to_layer b) []) by exact NDv.
  exists ls2. split; [reflexivity |]. split; assumption.
Qed.

(** X21. For the model of a build, [get_boundaries] never raises, with or
    without the priming layer: every layer the builder created has a
    point. *)
Theorem built_model_has_boundaries
        (h : Heap) (gcode : list Command) (nozzle_diam : Q) :
  match model.build_model h gcode nozzle_diam with
  | Ok (_, m) =>
      exists with_priming without,
        model_boundaries.get_boundaries m true = Ok with_priming
        /\ model_boundaries.get_boundaries m false = Ok without
  | Raise _ => True
  end.
Proof.
  pose proof (run_commands_reachable h gcode) as R. unfold model.build_model.
  destruct (model.run_commands h gcode) as [[h' b] | e]; cbn [bind]; [| exact I].
  destruct (finish_shape b nozzle_diam R) as (ls & E & Len & Points).
  rewrite E. cbn [bind].
  destruct R as (Idx & _).
  assert (Valid : forall l, (l < length (model.layers b))%nat ->
                            exists layer, nth_error ls l = Some layer
                                          /\ spec_boundaries.vertices layer <> []).
  { intros l L. destruct (nth_error ls l) as [layer |] eqn:EL.
    2: { apply nth_error_None in EL. lia. }
    exists layer. split; [reflexivity |].
    rewrite Forall_forall in Points.
    destruct (Points layer (nth_error_In _ _ EL)) as [NE F].
    unfold spec_boundaries.vertices. destruct (paths layer) as [| p ps];
      [contradiction |].
    inversion F as [| ? ? Hp _]; subst. destruct p; [cbn in Hp; lia |].
    discriminate. }
  set (d := map (fun item : Q * nat => (snd item, fst item)) (model.z_to_layer b)).
  pose proof (boundaries_without_priming_facts d nozzle_diam
                (model.priming_layer b) (model.priming_layer_z b) ls) as W.
  pose proof (boundaries_with_priming_facts d nozzle_diam
                (model.priming_layer b) (model.priming_layer_z b) ls) as P.
  cbv zeta in W, P.
  set (m := model.Model_init d nozzle_diam (model.priming_layer b)
                             (model.priming_layer_z b) ls) in *.
  change (exists with_priming without,
             model_boundaries.get_boundaries m true = Ok with_priming
             /\ model_boundaries.get_boundaries m false = Ok without).
  destruct (model_boundaries.get_boundaries m false) as [without | e].
  - destruct (model_boundaries.get_boundaries m true) as [wp | e].
    + exists wp, without. split; reflexivity.
    + exfalso. destruct P as (l & El & P).
      assert (L : (l < length (model.layers b))%nat).
      { unfold spec_model.index_ok in Idx.
        destruct (model._is_after_post_priming_descent b).
        - destruct Idx as (E0 & _ & _ & L1). rewrite E0 in El.
          injection El as <-. lia.
        - destruct Idx as (E0 & _). rewrite E0 in El. discriminate El. }
      destruct (Valid l L) as (layer & EL & NE). rewrite EL in P.
      destruct P as [_ P]. contradiction.
  - exfalso. destruct W as (l & z & I & W).
    assert (L : (l < length (model.layers b))%nat).
    { unfold d in I. apply in_map_iff in I. destruct I as ([z' l'] & E0 & I).
      cbn in E0. injection E0 as -> ->.
      assert (IV : In l (dict_values (model.z_to_layer b)))
        by (apply in_map_iff; exists (z, l); split; [reflexivity | exact I]).
      unfold spec_model.index_ok in Idx.
      destruct (model._is_after_post_priming_descent b).
      - destruct Idx as (_ & _ & Vals & L1). rewrite Vals in IV.
        apply in_seq in IV. lia.
      - destruct Idx as (_ & _ & Vals). rewrite Vals in IV.
        apply in_seq in IV. lia. }
    destruct (Valid l L) as (layer & EL & NE). rewrite EL in W.
    destruct W as [_ W]. contradiction.
Qed.

End BuiltBoundaries.
